(** * SuperSlicer: arrangement job and print-region lookups

    A shallow embedding of

    - [src/libslic3r/PrintRegion.cpp]: the per-role extruder, flow and width
      lookups of a print region;
    - [src/slic3r/GUI/Jobs/ArrangeJob.cpp]: the arrange job, its two
      classifiers ([prepare_all], [prepare_selected]), the brim inflation
      ([add_brim]), the engine invocation ([process]) and the commit
      ([finalize]).

    Conventions.

    - A finite C++ [double] or [float] is the rational ([Q]) it denotes;
      there is no NaN and no infinity.  Comparisons are exact.  A sum, a
      difference, a product or a quotient computed in [double] is the exact
      result rounded to the nearest [double], ties to the even significand
      ([round_double], the IEEE 754 binary64 default); the product by 2 in
      [process] is exact and is written as such.  Conversions of a [double]
      to an integer coordinate ([coord_t]) truncate toward zero, as the C++
      conversion does.
    - [int] and [coord_t] values are integers ([Z]); signed overflow is
      undefined in C++ and is not modelled.  Unsigned types wrap, and the
      wrap-around is written out ([to_size_t], [to_uint16], [to_unsigned]).
    - A function that can throw, trip an [assert] or run into undefined
      behaviour returns a [result].
    - Functions, constants and types that the two files use but that are
      declared elsewhere in the repository are fields of the classes
      [FlowLib] and [ArrangeLib]. *)

From Stdlib Require Import ZArith QArith Qpower Qround Lqa String.
From stdpp Require Import base option list gmap strings.

Open Scope Z_scope.

(** ** Failures and the [result] monad *)

Inductive exn : Type :=
  | InvalidArgument (what : string)   (* Slic3r::InvalidArgument *)
  | StdException (what : string).     (* any other std::exception *)

Inductive failure : Type :=
  | Exception (e : exn)     (* a C++ exception leaves the function *)
  | AssertionFailure        (* an [assert] fails (builds without NDEBUG) *)
  | UndefinedBehaviour.     (* e.g. indexing an empty vector *)

Inductive result (A : Type) : Type :=
  | Ok (a : A)
  | Fail (f : failure).

Arguments Ok {A} a.
Arguments Fail {A} f.

Definition throw {A : Type} (e : exn) : result A := Fail (Exception e).

(** Sequencing: a failure of the first computation skips the second.  The
    notation [x ← m; k] is stdpp's. *)
#[global] Instance result_bind : MBind result := λ A B k m,
  match m with
  | Ok a => k a
  | Fail f => Fail f
  end.

(** The result of a computation that did not fail, transformed. *)
#[global] Instance result_fmap : FMap result := λ A B g m,
  match m with
  | Ok a => Ok (g a)
  | Fail f => Fail f
  end.

Definition is_ok {A : Type} (m : result A) : bool :=
  match m with
  | Ok _ => true
  | Fail _ => false
  end.

(** ** Numbers *)

(** [size_t] is 64 bits wide, [uint16_t] 16 bits, [unsigned] 32 bits. *)
Definition to_size_t (z : Z) : Z := z mod 2 ^ 64.
Definition to_uint16 (z : Z) : Z := z mod 2 ^ 16.
Definition to_unsigned (z : Z) : Z := z mod 2 ^ 32.

(** Conversion of a [double] to [coord_t]: the fractional part is dropped. *)
Definition coord_of_double (q : Q) : Z := Z.quot (Qnum q) (Z.pos (Qden q)).

(** *** Arithmetic in [double]

    A finite [double] is [m * 2 ^ e] for integers [m] and [e] with
    [|m| ≤ 2 ^ 53] and [-1074 ≤ e].  An operation yields the exact result
    rounded to the nearest such number, ties to the even [m].  Results
    beyond the largest finite [double] (infinities) and divisions by zero
    are not modelled. *)

(** [2 ^ e], also for a negative [e]. *)
Definition pow2 (e : Z) : Q := (2 ^ e)%Q.

(** The integer nearest to [x], the even one of two at the same distance. *)
Definition round_half_even (x : Q) : Z :=
  let f := Qfloor x in
  match (x - inject_Z f ?= 1 # 2)%Q with
  | Lt => f
  | Gt => f + 1
  | Eq => if Z.even f then f else f + 1
  end.

(** The binary exponent of [q], for [0 < q]: [2 ^ k ≤ q < 2 ^ (k + 1)]. *)
Definition ilog2 (q : Q) : Z :=
  let k := Z.log2 (Qnum q) - Z.log2 (Z.pos (Qden q)) in
  if Qle_bool (pow2 k) q then k else k - 1.

(** The exponent of the unit in the last place of [q]: 53 significant
    bits, and [-1074] in the subnormal range. *)
Definition ulp_exponent (q : Q) : Z := Z.max (ilog2 q - 52) (-1074).

(** The [double] nearest to [q], for [0 < q]. *)
Definition round_pos (q : Q) : Q :=
  let e := ulp_exponent q in
  (inject_Z (round_half_even (q / pow2 e)) * pow2 e)%Q.

(** The [double] nearest to [q]. *)
Definition round_double (q : Q) : Q :=
  match Qnum q with
  | 0 => 0%Q
  | Z.pos _ => round_pos q
  | Z.neg _ => (- round_pos (- q))%Q
  end.

(** [a + b], [a - b], [a * b] and [a / b] on doubles. *)
Definition double_add (a b : Q) : Q := round_double (a + b)%Q.
Definition double_sub (a b : Q) : Q := round_double (a - b)%Q.
Definition double_mul (a b : Q) : Q := round_double (a * b)%Q.
Definition double_div (a b : Q) : Q := round_double (a / b)%Q.

(** Conversion of an integer ([int], [coord_t]) to [double]. *)
Definition double_of_int (z : Z) : Q := round_double (inject_Z z).

(** [a > b] on doubles. *)
Definition Qgt_bool (a b : Q) : bool := negb (Qle_bool a b).

(** [std::max] on doubles: [(a < b) ? b : a]. *)
Definition std_max_double (a b : Q) : Q := if Qgt_bool b a then b else a.

(** * PrintRegion.cpp *)

Module PrintRegion.

(** The seven roles named in PrintRegion.cpp.  [FlowRole] is a C++ enum
    declared in Flow.hpp; [frOther] stands for every value of the enum type
    that is none of the seven. *)
Inductive FlowRole : Type :=
  | frExternalPerimeter
  | frPerimeter
  | frInfill
  | frSolidInfill
  | frTopSolidInfill
  | frSupportMaterial
  | frSupportMaterialInterface
  | frOther (v : Z).

Record ConfigOptionFloatOrPercent : Type := {
  value : Q;
  percent : bool
}.

Record PrintRegionConfig : Type := {
  perimeter_extruder : Z;
  infill_extruder : Z;
  solid_infill_extruder : Z;
  external_perimeter_extrusion_width : ConfigOptionFloatOrPercent;
  perimeter_extrusion_width : ConfigOptionFloatOrPercent;
  infill_extrusion_width : ConfigOptionFloatOrPercent;
  solid_infill_extrusion_width : ConfigOptionFloatOrPercent;
  top_infill_extrusion_width : ConfigOptionFloatOrPercent;
  bridge_flow_ratio : Q
}.

Record PrintObjectConfig : Type := {
  support_material_extruder : Z;
  support_material_interface_extruder : Z;
  first_layer_extrusion_width : ConfigOptionFloatOrPercent;
  extrusion_width : ConfigOptionFloatOrPercent;
  support_material_extrusion_width : ConfigOptionFloatOrPercent
}.

(** [m_print->config()], of which only [nozzle_diameter] is read. *)
Record PrintConfig : Type := {
  nozzle_diameter : list Q
}.

Record PrintRegion : Type := {
  m_config : PrintRegionConfig;
  m_print_config : PrintConfig
}.

(** What PrintRegion.cpp calls in Flow.hpp and Config.hpp. *)
Class FlowLib : Type := {
  Flow : Type;
  (* Flow::new_from_config_width(role, width, nozzle_diameter, height, bridge_flow_ratio) *)
  new_from_config_width :
    FlowRole → ConfigOptionFloatOrPercent → Q → Q → Q → Flow;
  (* Flow::auto_extrusion_width(role, nozzle_diameter) *)
  auto_extrusion_width : FlowRole → Q → Q;
  (* ConfigOptionFloatOrPercent::get_abs_value(ratio_over) *)
  get_abs_value : ConfigOptionFloatOrPercent → Q → Q;
  (* ConfigOptionPercent::get_abs_value(ratio_over) *)
  percent_get_abs_value : Q → Q → Q;
  (* the casts (float)x and float(x) *)
  to_float : Q → Q
}.

(** Modelled from the spec: [ConfigOptionVector::get_at] is declared in
    Config.hpp, which is not among the sources.  PrintRegion.cpp documents
    how it is relied upon: for an index past the end, the lookup "will
    follback to zero'th element".  A vector with no element has no zeroth
    element to fall back to; reading it is undefined. *)
Definition get_at (values : list Q) (i : Z) : result Q :=
  match values with
  | [] => Fail UndefinedBehaviour
  | front :: _ =>
      if bool_decide (i < Z.of_nat (length values))
      then Ok (default front (values !! Z.to_nat i))
      else Ok front
  end.

Definition unknown_role {A : Type} : result A :=
  throw (InvalidArgument "Unknown role").

(** [uint16_t PrintRegion::extruder(FlowRole role, const PrintObject& object) const] *)
Definition extruder (r : PrintRegion) (role : FlowRole)
    (object : PrintObjectConfig) : result Z :=
  extruder ←
    match role with
    | frPerimeter | frExternalPerimeter =>
        Ok (to_size_t (perimeter_extruder (m_config r)))
    | frInfill =>
        Ok (to_size_t (infill_extruder (m_config r)))
    | frSolidInfill | frTopSolidInfill =>
        Ok (to_size_t (solid_infill_extruder (m_config r)))
    | frSupportMaterial =>
        Ok (to_size_t (support_material_extruder object))
    | frSupportMaterialInterface =>
        Ok (to_size_t (support_material_interface_extruder object))
    | frOther _ => unknown_role
    end;
  Ok (to_uint16 extruder).

(** The argument of [get_at]: [this->extruder(role, object) - 1] is computed
    in [int] and converted to [size_t]. *)
Definition nozzle_index (extruder : Z) : Z := to_size_t (extruder - 1).

Section WithFlowLib.
Context `{FlowLib}.

(** [Flow PrintRegion::flow(role, layer_height, bridge, first_layer, width, object) const] *)
Definition flow (r : PrintRegion) (role : FlowRole) (layer_height : Q)
    (bridge first_layer : bool) (width : Q) (object : PrintObjectConfig)
    : result Flow :=
  config_width ←
    (if negb (Qeq_bool width (-1))
     then Ok {| value := width; percent := false |}
     else if first_layer && Qgt_bool (value (first_layer_extrusion_width object)) 0
     then Ok (first_layer_extrusion_width object)
     else match role with
          | frExternalPerimeter => Ok (external_perimeter_extrusion_width (m_config r))
          | frPerimeter => Ok (perimeter_extrusion_width (m_config r))
          | frInfill => Ok (infill_extrusion_width (m_config r))
          | frSolidInfill => Ok (solid_infill_extrusion_width (m_config r))
          | frTopSolidInfill => Ok (top_infill_extrusion_width (m_config r))
          | _ => unknown_role
          end);
  let config_width :=
    if Qeq_bool (value config_width) 0 then extrusion_width object
    else config_width in
  e ← extruder r role object;
  nozzle_diameter ← get_at (nozzle_diameter (m_print_config r)) (nozzle_index e);
  Ok (new_from_config_width role config_width (to_float nozzle_diameter)
        (to_float layer_height)
        (if bridge
         then to_float (percent_get_abs_value (bridge_flow_ratio (m_config r)) 1)
         else 0%Q)).

(** [float PrintRegion::width(FlowRole role, bool first_layer, const PrintObject& object) const] *)
Definition width (r : PrintRegion) (role : FlowRole) (first_layer : bool)
    (object : PrintObjectConfig) : result Q :=
  config_width ←
    (if first_layer && Qgt_bool (value (first_layer_extrusion_width object)) 0
     then Ok (first_layer_extrusion_width object)
     else match role with
          | frExternalPerimeter => Ok (external_perimeter_extrusion_width (m_config r))
          | frPerimeter => Ok (perimeter_extrusion_width (m_config r))
          | frInfill => Ok (infill_extrusion_width (m_config r))
          | frSolidInfill => Ok (solid_infill_extrusion_width (m_config r))
          | frTopSolidInfill => Ok (top_infill_extrusion_width (m_config r))
          | frSupportMaterial | frSupportMaterialInterface =>
              Ok (support_material_extrusion_width object)
          | frOther _ => unknown_role
          end);
  let config_width :=
    if Qeq_bool (value config_width) 0 then extrusion_width object
    else config_width in
  e ← extruder r role object;
  nozzle_diameter ← get_at (nozzle_diameter (m_print_config r)) (nozzle_index e);
  if Qle_bool (value config_width) 0
  then Ok (auto_extrusion_width role nozzle_diameter)
  else Ok (to_float (get_abs_value config_width nozzle_diameter)).

End WithFlowLib.

(** The roles [extruder] has a branch for. *)
Definition extruder_role (role : FlowRole) : bool :=
  match role with
  | frOther _ => false
  | _ => true
  end.

(** The roles the width chain of [flow] has a branch for. *)
Definition flow_width_role (role : FlowRole) : bool :=
  match role with
  | frExternalPerimeter | frPerimeter | frInfill
  | frSolidInfill | frTopSolidInfill => true
  | _ => false
  end.

(** [flow] consults the role for a width only when no custom width is given
    and no first-layer width applies. *)
Definition flow_width_given (first_layer : bool) (width : Q)
    (object : PrintObjectConfig) : bool :=
  negb (Qeq_bool width (-1))
  || (first_layer && Qgt_bool (value (first_layer_extrusion_width object)) 0).

(** ** The other functions of PrintRegion.cpp *)

(** The argument of [get_at] in [nozzle_dmr_avg]: [extruder.value - 1] is
    computed in [int] and converted to [size_t]. *)
Definition nozzle_index_of_id (extruder_id : Z) : Z := to_size_t (extruder_id - 1).

(** [coordf_t PrintRegion::nozzle_dmr_avg(const PrintConfig &print_config) const] *)
Definition nozzle_dmr_avg (r : PrintRegion) (print_config : PrintConfig)
    : result Q :=
  perimeter ← get_at (nozzle_diameter print_config)
                (nozzle_index_of_id (perimeter_extruder (m_config r)));
  infill ← get_at (nozzle_diameter print_config)
             (nozzle_index_of_id (infill_extruder (m_config r)));
  solid_infill ← get_at (nozzle_diameter print_config)
                   (nozzle_index_of_id (solid_infill_extruder (m_config r)));
  Ok (double_div (double_add (double_add perimeter infill) solid_infill) 3).

(** The options of [PrintRegionConfig] that only
    [collect_object_printing_extruders] reads. *)
Record RegionFeatures : Type := {
  perimeters : Z;
  fill_density : Q;
  top_solid_layers : Z;
  bottom_solid_layers : Z
}.

(** [(int)print_config.nozzle_diameter.size()] *)
Definition int_of_size (n : nat) : Z := (Z.of_nat n + 2 ^ 31) mod 2 ^ 32 - 2 ^ 31.

(** The lambda [emplace_extruder]: the 0-based index of the extruder, 0 when
    it is not below the number of extruders, is inserted into the set of
    [uint16_t]. *)
Definition emplace_extruder (num_extruders : Z) (object_extruders : gset Z)
    (extruder_id : Z) : gset Z :=
  let i := Z.max 0 (extruder_id - 1) in
  {[ to_uint16 (if bool_decide (i >= num_extruders) then 0 else i) ]}
  ∪ object_extruders.

(** The static [PrintRegion::collect_object_printing_extruders(print_config,
    object_config, region_config, object_extruders)].  Of the object
    configuration only [brim_width.value] is read; the returned set is
    [object_extruders] after the call. *)
Definition collect_object_printing_extruders_static (print_config : PrintConfig)
    (object_brim_width : Q) (region_config : PrintRegionConfig)
    (features : RegionFeatures) (object_extruders : gset Z) : gset Z :=
  let num_extruders := int_of_size (length (nozzle_diameter print_config)) in
  let object_extruders :=
    if bool_decide (perimeters features > 0) || Qgt_bool object_brim_width 0
    then emplace_extruder num_extruders object_extruders
           (perimeter_extruder region_config)
    else object_extruders in
  let object_extruders :=
    if Qgt_bool (fill_density features) 0
    then emplace_extruder num_extruders object_extruders
           (infill_extruder region_config)
    else object_extruders in
  if bool_decide (top_solid_layers features > 0)
     || bool_decide (bottom_solid_layers features > 0)
  then emplace_extruder num_extruders object_extruders
         (solid_infill_extruder region_config)
  else object_extruders.

(** The member [PrintRegion::collect_object_printing_extruders(object_extruders)].
    [ndebug] tells whether the build defines NDEBUG; [objects] holds the
    brim width of each of [m_print->objects()]. *)
Definition collect_object_printing_extruders (ndebug : bool) (r : PrintRegion)
    (features : RegionFeatures) (objects : list Q) (object_extruders : gset Z)
    : result (gset Z) :=
  let num_extruders := int_of_size (length (nozzle_diameter (m_print_config r))) in
  _ ← (if ndebug
          || (bool_decide (perimeter_extruder (m_config r) ≤ num_extruders)
              && bool_decide (infill_extruder (m_config r) ≤ num_extruders)
              && bool_decide (solid_infill_extruder (m_config r) ≤ num_extruders))
       then Ok ()
       else Fail AssertionFailure);
  Ok (foldl (λ object_extruders brim,
               collect_object_printing_extruders_static (m_print_config r) brim
                 (m_config r) features object_extruders)
        object_extruders objects).

End PrintRegion.

(** * ArrangeJob.cpp *)

Module ArrangeJob.

(** ** Geometry and items *)

Definition Point : Type := Z * Z.
Definition Polygon : Type := list Point.

Record ExPolygon : Type := {
  contour : Polygon;
  holes : list Polygon
}.

(** What an item stands for: an instance of a model object, named by the
    index of the object and the index of the instance, or the wipe tower.
    [ap.apply()] writes to it. *)
Inductive Arrangeable : Type :=
  | ModelInstanceRef (oidx iidx : nat)
  | WipeTowerRef.

#[global] Instance Arrangeable_eq_dec : EqDecision Arrangeable.
Proof. solve_decision. Defined.

#[global] Instance Arrangeable_countable : Countable Arrangeable :=
  inj_countable'
    (λ a, match a with
          | ModelInstanceRef o i => Some (o, i)
          | WipeTowerRef => None
          end)
    (λ x, match x with
          | Some (o, i) => ModelInstanceRef o i
          | None => WipeTowerRef
          end)
    (λ a, match a with
          | ModelInstanceRef _ _ => eq_refl
          | WipeTowerRef => eq_refl
          end).

(** [arrangement::ArrangePolygon], with the fields ArrangeJob.cpp touches.
    The [setter] closure is represented by the object it writes to. *)
Record ArrangePolygon : Type := {
  poly : ExPolygon;
  translation : Point;
  rotation : Q;
  bed_idx : Z;
  priority : Z;
  setter : Arrangeable
}.

Definition set_poly (p : ExPolygon) (ap : ArrangePolygon) : ArrangePolygon :=
  {| poly := p; translation := translation ap; rotation := rotation ap;
     bed_idx := bed_idx ap; priority := priority ap; setter := setter ap |}.

Definition set_translation_X (x : Z) (ap : ArrangePolygon) : ArrangePolygon :=
  {| poly := poly ap; translation := (x, (translation ap).2);
     rotation := rotation ap; bed_idx := bed_idx ap; priority := priority ap;
     setter := setter ap |}.

Definition set_bed_idx (b : Z) (ap : ArrangePolygon) : ArrangePolygon :=
  {| poly := poly ap; translation := translation ap; rotation := rotation ap;
     bed_idx := b; priority := priority ap; setter := setter ap |}.

(** ** The plater: model, selection, configuration *)

Record ModelInstance : Type := {
  printable : bool
}.

(** [obj->config], of which only [option("brim_width")] is read: [None]
    when the object has no such key. *)
Record ModelConfigObject : Type := {
  object_brim_width : option Q
}.

Record ModelObject : Type := {
  instances : list ModelInstance;
  config : ModelConfigObject
}.

Record DynamicPrintConfig : Type := {
  complete_objects_one_brim : bool;
  brim_width : Q;
  extruder_clearance_radius : Q
}.

Record ArrangeSettings : Type := {
  distance : Q;
  enable_rotation : bool
}.

Record Plater : Type := {
  (* m_plater->model().objects *)
  model_objects : list ModelObject;
  (* m_plater->get_selection().get_content(), in iteration order:
     object index and the indices of its selected instances *)
  selection_content : list (Z * list Z);
  (* m_plater->get_selection().is_wipe_tower() *)
  selection_is_wipe_tower : bool;
  (* whether the wipe tower info of the canvas converts to true *)
  has_wipe_tower : bool;
  (* m_plater->config() *)
  plater_config : DynamicPrintConfig;
  (* m_plater->bed_shape_bb().size().x() *)
  bed_width : Q;
  (* get_bed_shape of the plater configuration *)
  bed_shape : list Point;
  (* m_plater->canvas3D()->get_arrange_settings() *)
  arrange_settings : ArrangeSettings;
  (* PrintConfig::min_object_distance(&m_plater->current_print()->full_print_config()) *)
  min_object_distance : Q
}.

(** ** The engine interface *)

(** [arrangement::ArrangeParams].  The stop condition is the closure
    [was_canceled()]; the model samples the flag once per [process]. *)
Record ArrangeParams : Type := {
  allow_rotations : bool;
  min_obj_distance : Z;
  stopcondition : bool
}.

(** What a call of [arrangement::arrange(items, excludes, bed, params)]
    leaves behind: the items, which it mutates in place, the values it
    passed to [params.progressind], in order, and the exception it threw,
    if any. *)
Record ArrangeOutcome : Type := {
  arranged : list ArrangePolygon;
  progress : list Z;
  thrown : option exn
}.

(** What ArrangeJob.cpp uses and does not define. *)
Class ArrangeLib : Type := {
  (* libslic3r.h *)
  SCALING_FACTOR : Q;
  (* the gap between two virtual beds, as a fraction of the bed width *)
  LOGICAL_BED_GAP : Q;
  (* whether the build defines NDEBUG, which compiles [assert] out *)
  NDEBUG : bool;
  (* ClipperUtils: offset_ex(expolygon, delta) *)
  offset_ex : ExPolygon → Z → list ExPolygon;
  (* ArrangeJob.hpp: get_arrange_poly(obj, plater) *)
  get_arrange_poly : Plater → Arrangeable → ArrangePolygon;
  (* Arrange.hpp: arrangement::arrange *)
  arrange :
    list ArrangePolygon → list ArrangePolygon → list Point → ArrangeParams →
    ArrangeOutcome
}.

(** What the job does to the outside, in order. *)
Inductive Event : Type :=
  | CallArrange (items excludes : list ArrangePolygon) (bed : list Point)
      (params : ArrangeParams)            (* arrangement::arrange is entered *)
  | ShowError (msg : string)              (* GUI::show_error *)
  | UpdateStatus (st : Z) (msg : string)  (* Job::update_status *)
  | Apply (ap : ArrangePolygon)           (* ap.apply() *)
  | PlaterUpdate                          (* m_plater->update() *)
  | JobFinalize.                          (* Job::finalize() *)

(** The three item sets of the job. *)
Record ArrangeJob : Type := {
  m_selected : list ArrangePolygon;
  m_unselected : list ArrangePolygon;
  m_unprintable : list ArrangePolygon
}.

(** A loop over a vector with its index, stopping at the first failure. *)
Fixpoint for_each {A St : Type} (body : St → nat → A → result St)
    (i : nat) (xs : list A) (s : St) : result St :=
  match xs with
  | [] => Ok s
  | x :: xs' => s' ← body s i x; for_each body (S i) xs' s'
  end.

(** Conversion of an [unsigned] to [int]. *)
Definition to_int (z : Z) : Z := (z + 2 ^ 31) mod 2 ^ 32 - 2 ^ 31.

(** [count] of [clear_input]: the printable instances of all objects. *)
Definition count_printable (objects : list ModelObject) : nat :=
  sum_list ((λ obj, length (filter (λ mi, printable mi = true) (instances obj)))
            <$> objects).

Section WithArrangeLib.
Context `{ArrangeLib}.

(** Modelled from the spec: the macro [scale_] and the templates [scaled]
    are declared in libslic3r.h and MTUtils.hpp, which are not among the
    sources.  They bring a length to "the same length units as all
    polygons", the scaled coordinates: the length divided by
    [SCALING_FACTOR], in [double]; converted to [coord_t] where an integer
    is asked for. *)
Definition scale_ (v : Q) : Q := double_div v SCALING_FACTOR.
Definition scaled_double (v : Q) : Q := double_div v SCALING_FACTOR.
Definition scaled (v : Q) : Z := coord_of_double (double_div v SCALING_FACTOR).

(** [double bed_stride(const Plater *plater)] *)
Definition bed_stride (plater : Plater) : Q :=
  let bedwidth := bed_width plater in
  scaled_double (double_mul (double_add 1 LOGICAL_BED_GAP) bedwidth).

(** [void ArrangeJob::clear_input()]: the three sets are emptied.  The
    counts [count] and [cunprint] of printable and unprintable instances
    only size the reservations, which cannot be observed. *)
Definition clear_input : ArrangeJob :=
  {| m_selected := []; m_unselected := []; m_unprintable := [] |}.

(** [void add_brim(ArrangePolygon &ap, const ModelConfigObject &config, const Plater* plater)] *)
Definition add_brim (ap : ArrangePolygon) (config : ModelConfigObject)
    (plater : Plater) : result ArrangePolygon :=
  let cfg := plater_config plater in
  if negb (complete_objects_one_brim cfg) then
    let diff :=
      coord_of_double
        (scale_ (double_sub (brim_width cfg)
                   (double_div (extruder_clearance_radius cfg) 2))) in
    let diff :=
      match object_brim_width config with
      | Some w =>
          coord_of_double
            (scale_ (double_sub w
                       (double_div (extruder_clearance_radius cfg) 2)))
      | None => diff
      end in
    if bool_decide (diff > 0) then
      let brimmed := offset_ex (poly ap) diff in
      _ ← (if NDEBUG || bool_decide (length brimmed = 1%nat)
           then Ok ()
           else Fail AssertionFailure);
      match brimmed with
      | brimmed_0 :: _ => Ok (set_poly brimmed_0 ap)
      | [] => Fail UndefinedBehaviour
      end
    else Ok ap
  else Ok ap.

(** The margin of [add_brim], in [double]: the brim width, of the object
    if it has one of its own, minus half the clearance radius. *)
Definition brim_margin (config : ModelConfigObject) (plater : Plater) : Q :=
  let cfg := plater_config plater in
  double_sub (default (brim_width cfg) (object_brim_width config))
    (double_div (extruder_clearance_radius cfg) 2).

(** The value of [diff] when [add_brim] tests it: the margin in scaled
    coordinates. *)
Definition brim_diff (config : ModelConfigObject) (plater : Plater) : Z :=
  coord_of_double (scale_ (brim_margin config plater)).

Definition push_selected (ap : ArrangePolygon) (job : ArrangeJob) : ArrangeJob :=
  {| m_selected := m_selected job ++ [ap];
     m_unselected := m_unselected job;
     m_unprintable := m_unprintable job |}.

Definition push_unselected (ap : ArrangePolygon) (job : ArrangeJob) : ArrangeJob :=
  {| m_selected := m_selected job;
     m_unselected := m_unselected job ++ [ap];
     m_unprintable := m_unprintable job |}.

Definition push_unprintable (ap : ArrangePolygon) (job : ArrangeJob) : ArrangeJob :=
  {| m_selected := m_selected job;
     m_unselected := m_unselected job;
     m_unprintable := m_unprintable job ++ [ap] |}.

(** [std::optional<ArrangePolygon> get_wipe_tower_arrangepoly(const Plater &plater)] *)
Definition get_wipe_tower_arrangepoly (plater : Plater) : option ArrangePolygon :=
  if has_wipe_tower plater
  then Some (get_arrange_poly plater WipeTowerRef)
  else None.

(** [void ArrangeJob::prepare_all()] *)
Definition prepare_all (plater : Plater) : result ArrangeJob :=
  job ← for_each (λ job oidx obj,
           for_each (λ job i mi,
             let ap := get_arrange_poly plater (ModelInstanceRef oidx i) in
             ap ← add_brim ap (config obj) plater;
             Ok (if printable mi then push_selected ap job
                 else push_unprintable ap job))
             0%nat (instances obj) job)
         0%nat (model_objects plater) clear_input;
  Ok (match get_wipe_tower_arrangepoly plater with
      | Some wti => push_selected wti job
      | None => job
      end).

(** The first loop of [prepare_selected]: [obj_sel] has one slot per model
    object, filled with the instance list of the selection entries whose
    object index is below the number of objects.  A negative index is
    converted to a huge [size_t] and written out of bounds. *)
Definition select_objects (content : list (Z * list Z)) (n : nat)
    : result (list (option (list Z))) :=
  for_each (λ obj_sel _ s,
      if bool_decide (s.1 < Z.of_nat n) then
        if bool_decide (0 ≤ s.1)
        then Ok (<[Z.to_nat s.1 := Some s.2]> obj_sel)
        else Fail UndefinedBehaviour
      else Ok obj_sel)
    0%nat content (replicate n None).

(** [inst_sel] has one flag per instance of the object; the flags of the
    listed instances are set, without a bounds check. *)
Definition select_instances (instlist : option (list Z)) (n : nat)
    : result (list bool) :=
  match instlist with
  | None => Ok (replicate n false)
  | Some l =>
      for_each (λ inst_sel _ inst_id,
          if bool_decide (0 ≤ inst_id < Z.of_nat n)
          then Ok (<[Z.to_nat inst_id := true]> inst_sel)
          else Fail UndefinedBehaviour)
        0%nat l (replicate n false)
  end.

(** The classification of [prepare_selected]: every instance, then the
    wipe tower. *)
Definition classify_selected (plater : Plater) : result ArrangeJob :=
  obj_sel ← select_objects (selection_content plater)
              (length (model_objects plater));
  job ← for_each (λ job oidx mo,
           let instlist := default None (obj_sel !! oidx) in
           inst_sel ← select_instances instlist (length (instances mo));
           for_each (λ job i mi,
             let ap := get_arrange_poly plater (ModelInstanceRef oidx i) in
             ap ← add_brim ap (config mo) plater;
             Ok (if printable mi
                 then (if default false (inst_sel !! i)
                       then push_selected ap job
                       else push_unselected ap job)
                 else push_unprintable ap job))
             0%nat (instances mo) job)
         0%nat (model_objects plater) clear_input;
  Ok (if has_wipe_tower plater then
        let ap := get_arrange_poly plater WipeTowerRef in
        if selection_is_wipe_tower plater
        then push_selected ap job
        else push_unselected ap job
      else job).

(** "If the selection was empty arrange everything" *)
Definition swap_if_empty (job : ArrangeJob) : ArrangeJob :=
  match m_selected job with
  | [] => {| m_selected := m_unselected job;
             m_unselected := m_selected job;
             m_unprintable := m_unprintable job |}
  | _ :: _ => job
  end.

(** [p.translation(X) -= p.bed_idx * stride]: the coordinate and the bed
    index are converted to [double], the product and the difference are
    computed in [double], and the difference is stored into the integer
    coordinate. *)
Definition remove_stride (stride : Q) (p : ArrangePolygon) : ArrangePolygon :=
  set_translation_X
    (coord_of_double
       (double_sub (double_of_int (translation p).1)
          (double_mul (double_of_int (bed_idx p)) stride))) p.

(** [void ArrangeJob::prepare_selected()] *)
Definition prepare_selected (plater : Plater) : result ArrangeJob :=
  let stride := bed_stride plater in
  job ← classify_selected plater;
  let job := swap_if_empty job in
  Ok {| m_selected := m_selected job;
        m_unselected := remove_stride stride <$> m_unselected job;
        m_unprintable := m_unprintable job |}.

(** [void ArrangeJob::prepare()]; [shift] is [wxGetKeyState(WXK_SHIFT)]. *)
Definition prepare (shift : bool) (plater : Plater) : result ArrangeJob :=
  if shift then prepare_selected plater else prepare_all plater.

(** The parameters [process] hands to the engine.  [canceled] is what
    [was_canceled()] returns. *)
Definition arrange_params (plater : Plater) (canceled : bool) : ArrangeParams :=
  let settings := arrange_settings plater in
  let min_dist_computed := min_object_distance plater in
  {| allow_rotations := enable_rotation settings;
     min_obj_distance :=
       scaled (std_max_double (distance settings) (min_dist_computed * 2)%Q);
     stopcondition := canceled |}.

Definition arrangestr : string := "Arranging".

(** The first progress indicator: [st += m_unprintable.size();
    if (st > 0) update_status(int(count - st), arrangestr)]. *)
Definition progressind_selected (count unprintable_size st : Z) : list Event :=
  let st := to_unsigned (st + unprintable_size) in
  if bool_decide (st > 0)
  then [UpdateStatus (to_int (to_unsigned (count - st))) arrangestr]
  else [].

(** The second one: [if (st > 0) update_status(int(count - st), arrangestr)]. *)
Definition progressind_unprintable (count st : Z) : list Event :=
  if bool_decide (st > 0)
  then [UpdateStatus (to_int (to_unsigned (count - st))) arrangestr]
  else [].

(** [void ArrangeJob::process()] *)
Definition process (plater : Plater) (canceled : bool) (job : ArrangeJob)
    : ArrangeJob * list Event :=
  let params := arrange_params plater canceled in
  let count :=
    to_unsigned (Z.of_nat (length (m_selected job) + length (m_unprintable job))) in
  let bedpts := bed_shape plater in
  let unprintable_size := Z.of_nat (length (m_unprintable job)) in
  let error :=
    ShowError "Could not arrange model objects! Some geometries may be invalid." in
  let r1 := arrange (m_selected job) (m_unselected job) bedpts params in
  let ev1 :=
    CallArrange (m_selected job) (m_unselected job) bedpts params
    :: (progress r1 ≫= progressind_selected count unprintable_size) in
  let '(job, events) :=
    match thrown r1 with
    | Some _ =>
        ({| m_selected := arranged r1;
            m_unselected := m_unselected job;
            m_unprintable := m_unprintable job |},
         ev1 ++ [error])
    | None =>
        let r2 := arrange (m_unprintable job) [] bedpts params in
        let ev2 :=
          CallArrange (m_unprintable job) [] bedpts params
          :: (progress r2 ≫= progressind_unprintable count) in
        ({| m_selected := arranged r1;
            m_unselected := m_unselected job;
            m_unprintable := arranged r2 |},
         ev1 ++ ev2 ++ match thrown r2 with Some _ => [error] | None => [] end)
    end in
  (job,
   events ++ [UpdateStatus (to_int count)
                (if canceled then "Arranging canceled." else "Arranging done.")]).

End WithArrangeLib.

(** [beds = std::max(ap.bed_idx, beds)] over a set of items. *)
Definition max_bed_idx (beds : Z) (items : list ArrangePolygon) : Z :=
  foldl (λ beds ap, Z.max (bed_idx ap) beds) beds items.

(** [void ArrangeJob::finalize()]; [canceled] is what [was_canceled()]
    returns on entry. *)
Definition finalize (canceled : bool) (job : ArrangeJob)
    : ArrangeJob * list Event :=
  if canceled then (job, []) else
  let beds := 0 in
  let beds := max_bed_idx beds (m_selected job) in
  let ev_selected := Apply <$> m_selected job in
  let beds := max_bed_idx beds (m_unselected job) in
  let unprintable :=
    (λ ap, set_bed_idx (bed_idx ap + (beds + 1)) ap) <$> m_unprintable job in
  let ev_unprintable := Apply <$> unprintable in
  ({| m_selected := m_selected job;
      m_unselected := m_unselected job;
      m_unprintable := unprintable |},
   ev_selected ++ ev_unprintable ++ [PlaterUpdate; JobFinalize]).

(** ** The scene *)

(** The placement of an arrangeable object, as the scene holds it. *)
Record Placement : Type := {
  placed_translation : Point;
  placed_rotation : Q;
  placed_bed : Z
}.

(** Modelled from the spec: [ArrangePolygon::apply] runs the setter that
    [get_arrange_poly] installs; both are declared in Arrange.hpp and
    ArrangeJob.hpp, which are not among the sources.  By the spec, applying
    an item is to "write its placement transform into the backing object
    instance (or into the tower via WipeTowerAdapter)". *)
Definition apply (ap : ArrangePolygon)
    (scene : gmap Arrangeable Placement) : gmap Arrangeable Placement :=
  <[setter ap := {| placed_translation := translation ap;
                    placed_rotation := rotation ap;
                    placed_bed := bed_idx ap |}]> scene.

(** The scene after the job has done [events]. *)
Definition replay (events : list Event)
    (scene : gmap Arrangeable Placement) : gmap Arrangeable Placement :=
  foldl (λ scene ev, match ev with Apply ap => apply ap scene | _ => scene end)
    scene events.

(** The items whose transform [events] writes back. *)
Definition written (events : list Event) : list ArrangePolygon :=
  omap (λ ev, match ev with Apply ap => Some ap | _ => None end) events.

(** Modelled from the spec: the job framework (Job.hpp) is not among the
    sources.  By the spec it invokes the "three lifecycle entry points ...
    in fixed order once per run - prepare(), process(), finalize()"; the
    final [update_status] of [process] ("finalize just here") is what makes
    the framework call [finalize]. *)
Definition run `{ArrangeLib} (shift : bool) (plater : Plater)
    (canceled_in_process canceled_at_finalize : bool)
    : result (ArrangeJob * list Event) :=
  job ← prepare shift plater;
  let '(job, ev_process) := process plater canceled_in_process job in
  let '(job, ev_finalize) := finalize canceled_at_finalize job in
  Ok (job, ev_process ++ ev_finalize).

(** ** The wipe tower *)

(** [BoundingBoxf]: the corners of a rectangle, in millimetres. *)
Record BoundingBoxf : Type := {
  bb_min : Q * Q;
  bb_max : Q * Q
}.

(** [class WipeTower]: the members of [GLCanvas3D::WipeTowerInfo] that
    ArrangeJob.cpp reads. *)
Record WipeTower : Type := {
  m_pos : Q * Q;
  m_rotation : Q;
  m_bb : BoundingBoxf
}.

(** [ArrangePolygon WipeTower::get_arrange_polygon() const].  [ret] is the
    default-constructed [ArrangePolygon] the function starts from. *)
Definition get_arrange_polygon `{ArrangeLib} (wt : WipeTower)
    (ret : ArrangePolygon) : ArrangePolygon :=
  let ap : Polygon :=
    [(scaled (bb_min (m_bb wt)).1, scaled (bb_min (m_bb wt)).2);
     (scaled (bb_max (m_bb wt)).1, scaled (bb_min (m_bb wt)).2);
     (scaled (bb_max (m_bb wt)).1, scaled (bb_max (m_bb wt)).2);
     (scaled (bb_min (m_bb wt)).1, scaled (bb_max (m_bb wt)).2)] in
  {| poly := {| contour := ap; holes := holes (poly ret) |};
     translation := (scaled (m_pos wt).1, scaled (m_pos wt).2);
     rotation := m_rotation wt;
     bed_idx := bed_idx ret;
     priority := priority ret + 1;
     setter := setter ret |}.

(** The engine calls among [events]: the items and the excludes of each. *)
Definition engine_calls (events : list Event)
    : list (list ArrangePolygon * list ArrangePolygon) :=
  omap (λ ev, match ev with
              | CallArrange items excludes _ _ => Some (items, excludes)
              | _ => None
              end) events.

(** The error messages shown among [events]. *)
Definition errors_shown (events : list Event) : list string :=
  omap (λ ev, match ev with ShowError msg => Some msg | _ => None end) events.

(** The job with the selected and the unselected set exchanged. *)
Definition exchanged (job : ArrangeJob) : ArrangeJob :=
  {| m_selected := m_unselected job;
     m_unselected := m_selected job;
     m_unprintable := m_unprintable job |}.

(** The number of instances of all objects. *)
Definition count_instances (objects : list ModelObject) : nat :=
  sum_list ((λ obj, length (instances obj)) <$> objects).

(** Twice the signed area of a closed polygon, by the shoelace formula;
    positive when the vertices run counter-clockwise. *)
Fixpoint shoelace_from (first : Point) (p : Polygon) : Z :=
  match p with
  | [] => 0
  | [last] => last.1 * first.2 - first.1 * last.2
  | a :: (b :: _) as rest => a.1 * b.2 - b.1 * a.2 + shoelace_from first rest
  end.

Definition shoelace (p : Polygon) : Z :=
  match p with
  | [] => 0
  | first :: _ => shoelace_from first p
  end.

End ArrangeJob.

(** * Concrete configurations, engines and scenes *)

Module Sample.
Import PrintRegion ArrangeJob.

(** ** A print region with two nozzles *)

Definition absolute (v : Q) : ConfigOptionFloatOrPercent :=
  {| value := v; percent := false |}.

(** A flow library that keeps what it is given. *)
Definition flow_lib : FlowLib :=
  {| Flow := FlowRole * ConfigOptionFloatOrPercent * Q * Q * Q;
     new_from_config_width := λ role w nozzle height ratio,
       (role, w, nozzle, height, ratio);
     auto_extrusion_width := λ _ nozzle, (nozzle * (9 # 8))%Q;
     get_abs_value := λ w over,
       if percent w then (over * value w / 100)%Q else value w;
     percent_get_abs_value := λ v over, (over * v / 100)%Q;
     to_float := λ q, q |}.

(** The solid infill and the support material have no extruder assigned
    (identifier 0). *)
Definition region : PrintRegion :=
  {| m_config :=
       {| perimeter_extruder := 1;
          infill_extruder := 2;
          solid_infill_extruder := 0;
          external_perimeter_extrusion_width := absolute (21 # 50);
          perimeter_extrusion_width := absolute (9 # 20);
          infill_extrusion_width := absolute 0;
          solid_infill_extrusion_width := absolute (9 # 20);
          top_infill_extrusion_width := absolute (2 # 5);
          bridge_flow_ratio := 100 |};
     m_print_config := {| nozzle_diameter := [2 # 5; 3 # 5] |} |}.

Definition object : PrintObjectConfig :=
  {| support_material_extruder := 0;
     support_material_interface_extruder := 2;
     first_layer_extrusion_width := absolute 0;
     extrusion_width := absolute (9 # 20);
     support_material_extrusion_width := absolute (7 # 20) |}.

(** ** Polygons, offsets and engines *)

Definition square (a : Z) : ExPolygon :=
  {| contour := [(0, 0); (a, 0); (a, a); (0, a)]; holes := [] |}.

(** Moves every vertex away from the origin by [delta] on both axes. *)
Definition grow (delta : Z) (p : ExPolygon) : ExPolygon :=
  {| contour :=
       (λ v : Point,
          ((if bool_decide (v.1 ≤ 0) then v.1 - delta else v.1 + delta),
           (if bool_decide (v.2 ≤ 0) then v.2 - delta else v.2 + delta)))
       <$> contour p;
     holes := holes p |}.

(** An offset that yields one contour. *)
Definition offset_one (p : ExPolygon) (delta : Z) : list ExPolygon :=
  [grow delta p].

(** An offset that yields two contours. *)
Definition offset_two (p : ExPolygon) (delta : Z) : list ExPolygon :=
  [grow delta p; square 1].

(** An offset that yields no contour. *)
Definition offset_none (p : ExPolygon) (delta : Z) : list ExPolygon := [].

(** Instance [iidx] of object [oidx] sits on virtual bed [iidx]. *)
Definition arrange_poly_on_beds (stride : Z) (_ : Plater) (obj : Arrangeable)
    : ArrangePolygon :=
  match obj with
  | ModelInstanceRef oidx iidx =>
      {| poly := square 10;
         translation := (Z.of_nat iidx * stride + 60, Z.of_nat oidx * 20);
         rotation := 0;
         bed_idx := Z.of_nat iidx;
         priority := 0;
         setter := obj |}
  | WipeTowerRef =>
      {| poly := square 60;
         translation := (100, 100);
         rotation := 0;
         bed_idx := 0;
         priority := 1;
         setter := obj |}
  end.

(** An engine that puts item [k] on bed [k] at the origin and reports the
    number of items left after each one. *)
Definition arrange_one_per_bed (items excludes : list ArrangePolygon)
    (bed : list Point) (params : ArrangeParams) : ArrangeOutcome :=
  {| arranged :=
       imap (λ k ap,
          {| poly := poly ap; translation := (0, 0); rotation := rotation ap;
             bed_idx := Z.of_nat k; priority := priority ap;
             setter := setter ap |}) items;
     progress := Z.of_nat <$> reverse (seq 0 (length items));
     thrown := None |}.

(** An engine that rejects its input and leaves the items as they are. *)
Definition arrange_throws (items excludes : list ArrangePolygon)
    (bed : list Point) (params : ArrangeParams) : ArrangeOutcome :=
  {| arranged := items;
     progress := [];
     thrown := Some (StdException "invalid geometry") |}.

Definition lib (scaling gap : Q) (ndebug : bool)
    (offset : ExPolygon → Z → list ExPolygon)
    (engine : list ArrangePolygon → list ArrangePolygon → list Point →
              ArrangeParams → ArrangeOutcome)
    (stride : Z) : ArrangeLib :=
  {| SCALING_FACTOR := scaling;
     LOGICAL_BED_GAP := gap;
     NDEBUG := ndebug;
     offset_ex := offset;
     get_arrange_poly := arrange_poly_on_beds stride;
     arrange := engine |}.

(** The double written [0.1]. *)
Definition tenth : Q := round_double (1 # 10).

(** Lengths in polygon units, a gap of one tenth of the bed. *)
Definition unit_lib : ArrangeLib :=
  lib 1 tenth true offset_one arrange_one_per_bed 220.

(** The same with an engine that fails. *)
Definition failing_lib : ArrangeLib :=
  lib 1 tenth true offset_one arrange_throws 220.

(** Release and debug builds whose offset splits the contour in two. *)
Definition split_release_lib : ArrangeLib :=
  lib 1 tenth true offset_two arrange_one_per_bed 220.

Definition split_debug_lib : ArrangeLib :=
  lib 1 tenth false offset_two arrange_one_per_bed 220.

(** A gap of a quarter of the bed: the stride of a bed of width 200 is
    250, and instance [i] sits at X = 250 i + 60. *)
Definition quarter_lib : ArrangeLib :=
  lib 1 (1 # 4) true offset_one arrange_one_per_bed 250.

(** A release build whose offset comes back empty. *)
Definition empty_release_lib : ArrangeLib :=
  lib 1 tenth true offset_none arrange_one_per_bed 220.

(** Lengths in millimetres, coordinates in nanometres: [SCALING_FACTOR] is
    the double written [0.000001]. *)
Definition nano_lib : ArrangeLib :=
  lib (round_double (1 # 1000000)) tenth true offset_one arrange_one_per_bed
    220000000.

(** ** Platers *)

Definition on : ModelInstance := {| printable := true |}.
Definition off : ModelInstance := {| printable := false |}.

Definition plater (objects : list ModelObject) (content : list (Z * list Z))
    (tower_selected tower : bool) (one_brim : bool) : Plater :=
  {| model_objects := objects;
     selection_content := content;
     selection_is_wipe_tower := tower_selected;
     has_wipe_tower := tower;
     plater_config :=
       {| complete_objects_one_brim := one_brim;
          brim_width := 5;
          extruder_clearance_radius := 4 |};
     bed_width := 200;
     bed_shape := [(0, 0); (200, 0); (200, 200); (0, 200)];
     arrange_settings := {| distance := 6; enable_rotation := true |};
     min_object_distance := 4 |}.

Definition plain : ModelConfigObject := {| object_brim_width := None |}.

(** An object with a brim width of its own. *)
Definition own_brim (w : Q) : ModelConfigObject :=
  {| object_brim_width := Some w |}.

(** An empty plater with the given default brim width and clearance
    radius, each brim on its own. *)
Definition brim_plater (brim clearance : Q) : Plater :=
  {| model_objects := [];
     selection_content := [];
     selection_is_wipe_tower := false;
     has_wipe_tower := false;
     plater_config :=
       {| complete_objects_one_brim := false;
          brim_width := brim;
          extruder_clearance_radius := clearance |};
     bed_width := 200;
     bed_shape := [(0, 0); (200, 0); (200, 200); (0, 200)];
     arrange_settings := {| distance := 6; enable_rotation := true |};
     min_object_distance := 4 |}.

(** One object with three printable instances. *)
Definition three_instances : list ModelObject :=
  [{| instances := [on; on; on]; config := plain |}].

(** One object with a printable and an unprintable instance. *)
Definition mixed_instances : list ModelObject :=
  [{| instances := [on; off]; config := plain |}].

(** ** Printing features and a wipe tower *)

(** Perimeters, infill and solid layers are all printed. *)
Definition all_features : PrintRegion.RegionFeatures :=
  {| PrintRegion.perimeters := 2;
     PrintRegion.fill_density := 20;
     PrintRegion.top_solid_layers := 3;
     PrintRegion.bottom_solid_layers := 3 |}.

(** A wipe tower of 60 by 40 at (120, 150), turned by 90 degrees; its
    bounding box starts at (5, 7). *)
Definition tower : WipeTower :=
  {| m_pos := (120 # 1, 150 # 1)%Q;
     m_rotation := 90;
     m_bb := {| bb_min := (5 # 1, 7 # 1)%Q; bb_max := (65 # 1, 47 # 1)%Q |} |}.

(** Two nozzles of 0.4 and 0.6, as doubles. *)
Definition double_nozzles : PrintRegion.PrintConfig :=
  {| PrintRegion.nozzle_diameter :=
       [round_double (2 # 5); round_double (3 # 5)] |}.

(** One nozzle of 0.4. *)
Definition single_nozzle : PrintRegion.PrintConfig :=
  {| PrintRegion.nozzle_diameter := [round_double (2 # 5)] |}.

(** A default-constructed item: nothing placed, priority 0. *)
Definition blank : ArrangePolygon :=
  {| poly := {| contour := []; holes := [] |};
     translation := (0, 0);
     rotation := 0;
     bed_idx := -1;
     priority := 0;
     setter := WipeTowerRef |}.

End Sample.

(** * Facts about the numeric conversions *)

Lemma coord_of_double_mono (a b : Q) :
  (a <= b)%Q → coord_of_double a ≤ coord_of_double b.
Proof.
  destruct a as [n1 d1], b as [n2 d2]. unfold Qle, coord_of_double. simpl.
  intros Hle.
  rewrite <- (Z.quot_mul_cancel_r n1 (Z.pos d1) (Z.pos d2)) by lia.
  rewrite <- (Z.quot_mul_cancel_r n2 (Z.pos d2) (Z.pos d1)) by lia.
  rewrite (Z.mul_comm (Z.pos d2) (Z.pos d1)).
  apply Z.quot_le_mono; lia.
Qed.

Lemma coord_of_double_compat (a b : Q) :
  (a == b)%Q → coord_of_double a = coord_of_double b.
Proof.
  intros Heq. apply Z.le_antisymm; apply coord_of_double_mono;
    rewrite Heq; apply Qle_refl.
Qed.

Lemma coord_of_double_inject_Z (z : Z) : coord_of_double (inject_Z z) = z.
Proof. unfold coord_of_double. simpl. apply Z.quot_1_r. Qed.

(** ** Rounding to a double *)

Lemma pow2_pos (e : Z) : (0 < pow2 e)%Q.
Proof. by apply Qpower_0_lt. Qed.

Lemma pow2_add (a b : Z) : (pow2 (a + b) == pow2 a * pow2 b)%Q.
Proof. apply Qpower_plus. discriminate. Qed.

Lemma pow2_le (a b : Z) : a ≤ b → (pow2 a <= pow2 b)%Q.
Proof. intros Hle. by apply Qpower_le_compat_l. Qed.

Lemma pow2_lt_inv (a b : Z) : (pow2 a < pow2 b)%Q → a < b.
Proof. intros Hlt. by apply (Qpower_lt_compat_l_inv 2). Qed.

Lemma pow2_Z (e : Z) : 0 ≤ e → (pow2 e == inject_Z (2 ^ e))%Q.
Proof. intros He. symmetry. by apply Zpower_Qpower. Qed.

Lemma Z_log2_pow2 (n : Z) :
  0 < n → (pow2 (Z.log2 n) <= inject_Z n)%Q ∧ (inject_Z n < pow2 (Z.log2 n + 1))%Q.
Proof.
  intros Hn. destruct (Z.log2_spec n Hn) as [Hlo Hhi].
  pose proof (Z.log2_nonneg n).
  rewrite !pow2_Z by lia. rewrite <- Zle_Qle, <- Zlt_Qlt.
  replace (Z.log2 n + 1) with (Z.succ (Z.log2 n)) by lia. done.
Qed.

Lemma ilog2_spec (q : Q) :
  (0 < q)%Q → (pow2 (ilog2 q) <= q)%Q ∧ (q < pow2 (ilog2 q + 1))%Q.
Proof.
  intros Hq. unfold ilog2.
  set (k := Z.log2 (Qnum q) - Z.log2 (Z.pos (Qden q))).
  assert (0 < Qnum q) as Hn.
  { destruct q as [n d]. unfold Qlt in Hq. simpl in *. lia. }
  destruct (Z_log2_pow2 (Qnum q) Hn) as [Hn1 Hn2].
  destruct (Z_log2_pow2 (Z.pos (Qden q))) as [Hd1 Hd2]; [lia|].
  assert (q == inject_Z (Qnum q) / inject_Z (Z.pos (Qden q)))%Q as Hdiv.
  { destruct q as [n d]. apply Qmake_Qdiv. }
  assert (0 < inject_Z (Z.pos (Qden q)))%Q as Hdpos by reflexivity.
  assert (pow2 (k - 1) < q ∧ q < pow2 (k + 1))%Q as [Hlo Hhi].
  { rewrite Hdiv. split.
    - apply Qlt_shift_div_l; [done|].
      eapply Qlt_le_trans; [|exact Hn1].
      replace (Z.log2 (Qnum q)) with ((k - 1) + (Z.log2 (Z.pos (Qden q)) + 1))
        by (unfold k; lia).
      rewrite pow2_add. apply Qmult_lt_l; [apply pow2_pos|done].
    - apply Qlt_shift_div_r; [done|].
      eapply Qlt_le_trans; [exact Hn2|].
      replace (Z.log2 (Qnum q) + 1) with ((k + 1) + Z.log2 (Z.pos (Qden q)))
        by (unfold k; lia).
      rewrite pow2_add. apply Qmult_le_l; [apply pow2_pos|done]. }
  destruct (Qle_bool (pow2 k) q) eqn:Hb.
  - apply Qle_bool_iff in Hb. done.
  - split; [by apply Qlt_le_weak|].
    replace (k - 1 + 1) with k by lia.
    apply Qnot_le_lt. intros Hle. apply Qle_bool_iff in Hle. congruence.
Qed.

Lemma ilog2_mono (a b : Q) : (0 < a)%Q → (a <= b)%Q → ilog2 a ≤ ilog2 b.
Proof.
  intros Ha Hab.
  destruct (ilog2_spec a Ha) as [Ha1 _].
  destruct (ilog2_spec b) as [_ Hb2]; [by eapply Qlt_le_trans|].
  assert (ilog2 a < ilog2 b + 1); [|lia].
  apply pow2_lt_inv. eapply Qle_lt_trans; [exact Ha1|].
  by eapply Qle_lt_trans.
Qed.

Lemma ilog2_bounds (q : Q) (k : Z) :
  (pow2 k <= q)%Q → (q < pow2 (k + 1))%Q → ilog2 q = k.
Proof.
  intros Hlo Hhi.
  assert (0 < q)%Q as Hq by (eapply Qlt_le_trans; [apply (pow2_pos k)|done]).
  destruct (ilog2_spec q Hq) as [H1 H2].
  assert (k < ilog2 q + 1).
  { apply pow2_lt_inv. by eapply Qle_lt_trans. }
  assert (ilog2 q < k + 1).
  { apply pow2_lt_inv. by eapply Qle_lt_trans. }
  lia.
Qed.

(** The nearest integer is within one half, and rounding is monotone. *)
Lemma round_half_even_near (x : Q) :
  (inject_Z (round_half_even x) <= x + (1 # 2))%Q ∧
  (x - (1 # 2) <= inject_Z (round_half_even x))%Q.
Proof.
  unfold round_half_even.
  pose proof (Qfloor_le x) as Hlo. pose proof (Qlt_floor x) as Hhi.
  rewrite inject_Z_plus in Hhi. change (inject_Z 1) with 1%Q in Hhi.
  destruct (Qcompare_spec (x - inject_Z (Qfloor x)) (1 # 2)) as [He|Hl|Hg];
    [destruct (Z.even _)|..]; rewrite ?inject_Z_plus;
    change (inject_Z 1) with 1%Q; split; lra.
Qed.

Lemma round_half_even_mono (x y : Q) :
  (x <= y)%Q → round_half_even x ≤ round_half_even y.
Proof.
  intros Hxy. pose proof (Qfloor_resp_le x y Hxy) as Hf.
  unfold round_half_even.
  destruct (Z.eq_dec (Qfloor x) (Qfloor y)) as [Heq|Hne].
  - rewrite <- Heq.
    destruct (Qcompare_spec (x - inject_Z (Qfloor x)) (1 # 2)) as [He|Hl|Hg];
      destruct (Qcompare_spec (y - inject_Z (Qfloor x)) (1 # 2)) as [He'|Hl'|Hg'];
      try destruct (Z.even _); try lia; exfalso; lra.
  - assert (Qfloor x + 1 ≤ Qfloor y) by lia.
    destruct (x - _ ?= _)%Q; [destruct (Z.even _)|..];
      (destruct (y - _ ?= _)%Q; [destruct (Z.even _)|..]); lia.
Qed.

Lemma round_half_even_Z (z : Z) : round_half_even (inject_Z z) = z.
Proof.
  unfold round_half_even. rewrite Qfloor_Z.
  destruct (Qcompare_spec (inject_Z z - inject_Z z) (1 # 2)) as [He|Hl|Hg];
    [lra|done|lra].
Qed.

Lemma round_half_even_comp (x y : Q) :
  (x == y)%Q → round_half_even x = round_half_even y.
Proof.
  intros Heq. apply Z.le_antisymm; apply round_half_even_mono;
    rewrite Heq; apply Qle_refl.
Qed.

Lemma ulp_exponent_mono (a b : Q) :
  (0 < a)%Q → (a <= b)%Q → ulp_exponent a ≤ ulp_exponent b.
Proof.
  intros Ha Hab. pose proof (ilog2_mono a b Ha Hab). unfold ulp_exponent. lia.
Qed.

(** The significand: at most [2 ^ 53], and at least [2 ^ 52] above the
    subnormal range. *)
Lemma significand_le (q : Q) :
  (0 < q)%Q → round_half_even (q / pow2 (ulp_exponent q)) ≤ 2 ^ 53.
Proof.
  intros Hq. rewrite <- (round_half_even_Z (2 ^ 53)).
  apply round_half_even_mono. rewrite <- pow2_Z by done.
  apply Qle_shift_div_r; [apply pow2_pos|]. rewrite <- pow2_add.
  destruct (ilog2_spec q Hq) as [_ Hhi].
  eapply Qle_trans; [apply Qlt_le_weak, Hhi|].
  apply pow2_le. unfold ulp_exponent. lia.
Qed.

Lemma significand_ge (q : Q) :
  (0 < q)%Q → -1074 < ulp_exponent q →
  2 ^ 52 ≤ round_half_even (q / pow2 (ulp_exponent q)).
Proof.
  intros Hq He. rewrite <- (round_half_even_Z (2 ^ 52)) at 1.
  apply round_half_even_mono. rewrite <- pow2_Z by done.
  apply Qle_shift_div_l; [apply pow2_pos|]. rewrite <- pow2_add.
  destruct (ilog2_spec q Hq) as [Hlo _].
  eapply Qle_trans; [|exact Hlo].
  apply pow2_le. unfold ulp_exponent in *. lia.
Qed.

(** The rounded value is within half a unit in the last place. *)
Lemma round_pos_near (q : Q) :
  (0 < q)%Q →
  (q - pow2 (ulp_exponent q) * (1 # 2) <= round_pos q)%Q ∧
  (round_pos q <= q + pow2 (ulp_exponent q) * (1 # 2))%Q.
Proof.
  intros Hq. unfold round_pos. cbv zeta.
  set (e := ulp_exponent q).
  pose proof (pow2_pos e) as He.
  destruct (round_half_even_near (q / pow2 e)) as [Hhi Hlo].
  assert (q / pow2 e * pow2 e == q)%Q as Hq'.
  { field. intros Hzero. rewrite Hzero in He. by apply Qlt_irrefl in He. }
  split.
  - apply (Qmult_le_compat_r _ _ (pow2 e)) in Hlo; [|by apply Qlt_le_weak].
    rewrite <- Hq' at 1. lra.
  - apply (Qmult_le_compat_r _ _ (pow2 e)) in Hhi; [|by apply Qlt_le_weak].
    rewrite <- Hq' at 2. lra.
Qed.

Lemma round_pos_nonneg (q : Q) : (0 < q)%Q → (0 <= round_pos q)%Q.
Proof.
  intros Hq. unfold round_pos.
  apply Qmult_le_0_compat; [|apply Qlt_le_weak, pow2_pos].
  change 0%Q with (inject_Z 0). rewrite <- Zle_Qle.
  rewrite <- (round_half_even_Z 0) at 1. apply round_half_even_mono.
  apply Qle_shift_div_l; [apply pow2_pos|]. rewrite Qmult_0_l.
  by apply Qlt_le_weak.
Qed.

Lemma round_pos_mono (a b : Q) :
  (0 < a)%Q → (a <= b)%Q → (round_pos a <= round_pos b)%Q.
Proof.
  intros Ha Hab.
  assert (0 < b)%Q as Hb by lra.
  pose proof (ulp_exponent_mono a b Ha Hab) as He.
  unfold round_pos.
  destruct (Z.eq_dec (ulp_exponent a) (ulp_exponent b)) as [Heq|Hne].
  - rewrite Heq. apply Qmult_le_compat_r; [|apply Qlt_le_weak, pow2_pos].
    rewrite <- Zle_Qle. apply round_half_even_mono.
    apply Qmult_le_compat_r; [done|].
    apply Qlt_le_weak, Qinv_lt_0_compat, pow2_pos.
  - pose proof (significand_le a Ha) as Hma.
    pose proof (significand_ge b Hb) as Hmb.
    assert (-1074 ≤ ulp_exponent a) by (unfold ulp_exponent; lia).
    specialize (Hmb ltac:(lia)).
    rewrite Zle_Qle in Hma, Hmb. rewrite <- !pow2_Z in Hma, Hmb by done.
    eapply Qle_trans.
    { apply Qmult_le_compat_r; [exact Hma|apply Qlt_le_weak, pow2_pos]. }
    eapply Qle_trans;
      [|apply Qmult_le_compat_r; [exact Hmb|apply Qlt_le_weak, pow2_pos]].
    rewrite <- !pow2_add. apply pow2_le. lia.
Qed.

Lemma Qnum_pos (q : Q) : (0 < q)%Q ↔ 0 < Qnum q.
Proof. destruct q as [n d]. unfold Qlt. simpl. lia. Qed.

Lemma Qnum_neg (q : Q) : (q < 0)%Q ↔ Qnum q < 0.
Proof. destruct q as [n d]. unfold Qlt. simpl. lia. Qed.

Lemma round_double_pos (q : Q) : (0 < q)%Q → round_double q = round_pos q.
Proof.
  intros Hq%Qnum_pos. unfold round_double. by destruct (Qnum q).
Qed.

Lemma round_double_neg (q : Q) :
  (q < 0)%Q → round_double q = (- round_pos (- q))%Q.
Proof.
  intros Hq%Qnum_neg. unfold round_double. by destruct (Qnum q).
Qed.

Lemma round_double_zero (q : Q) : (q == 0)%Q → round_double q = 0%Q.
Proof.
  intros Hq. unfold round_double. destruct q as [[|n|n] d]; [done|..];
    unfold Qeq in Hq; simpl in Hq; lia.
Qed.

Lemma round_double_nonneg (q : Q) : (0 <= q)%Q → (0 <= round_double q)%Q.
Proof.
  intros Hq. destruct (Qlt_le_dec 0 q) as [Hpos|Hle].
  - rewrite round_double_pos by done. by apply round_pos_nonneg.
  - rewrite round_double_zero; [apply Qle_refl|]. by apply Qle_antisym.
Qed.

Lemma round_double_nonpos (q : Q) : (q <= 0)%Q → (round_double q <= 0)%Q.
Proof.
  intros Hq. destruct (Qlt_le_dec q 0) as [Hneg|Hle].
  - rewrite round_double_neg by done.
    assert (0 <= round_pos (- q))%Q; [apply round_pos_nonneg|]; lra.
  - rewrite round_double_zero; [apply Qle_refl|]. by apply Qle_antisym.
Qed.

(** Rounding to a double is monotone. *)
Lemma round_double_mono (a b : Q) :
  (a <= b)%Q → (round_double a <= round_double b)%Q.
Proof.
  intros Hab.
  destruct (Qlt_le_dec 0 a) as [Ha|Ha].
  - rewrite (round_double_pos a) by done.
    rewrite (round_double_pos b) by lra.
    by apply round_pos_mono.
  - destruct (Qlt_le_dec b 0) as [Hb|Hb].
    + rewrite (round_double_neg b) by done.
      rewrite (round_double_neg a) by lra.
      apply Qopp_le_compat. apply round_pos_mono; lra.
    + eapply Qle_trans; [by apply round_double_nonpos|].
      by apply round_double_nonneg.
Qed.

Lemma round_double_comp (a b : Q) :
  (a == b)%Q → (round_double a == round_double b)%Q.
Proof.
  intros Heq. apply Qle_antisym; apply round_double_mono;
    rewrite Heq; apply Qle_refl.
Qed.

(** An integer below [2 ^ 53] in magnitude is a double. *)
Lemma round_pos_Z (z : Z) :
  0 < z < 2 ^ 53 → (round_pos (inject_Z z) == inject_Z z)%Q.
Proof.
  intros [Hlo Hhi].
  assert (0 < inject_Z z)%Q as Hq by (by apply Qnum_pos).
  destruct (ilog2_spec (inject_Z z) Hq) as [H1 H2].
  assert (0 ≤ ilog2 (inject_Z z) ≤ 52) as Hk.
  { split.
    - assert (0 < ilog2 (inject_Z z) + 1); [|lia].
      apply pow2_lt_inv. eapply Qle_lt_trans; [|exact H2].
      change (pow2 0) with (inject_Z 1). rewrite <- Zle_Qle. lia.
    - assert (ilog2 (inject_Z z) < 53); [|lia].
      apply pow2_lt_inv. eapply Qle_lt_trans; [exact H1|].
      rewrite pow2_Z by done. rewrite <- Zlt_Qlt. done. }
  unfold round_pos, ulp_exponent.
  set (k := ilog2 (inject_Z z)) in *.
  replace (Z.max (k - 52) (-1074)) with (- (52 - k)) by lia.
  assert (inject_Z z / pow2 (- (52 - k)) == inject_Z (z * 2 ^ (52 - k)))%Q as Hx.
  { rewrite inject_Z_mult, <- pow2_Z by lia.
    unfold pow2. rewrite Qpower_opp. field.
    apply Qpower_not_0. discriminate. }
  rewrite (round_half_even_comp _ _ Hx), round_half_even_Z.
  rewrite inject_Z_mult, <- pow2_Z by lia.
  unfold pow2. rewrite Qpower_opp. field.
  apply Qpower_not_0. discriminate.
Qed.

Lemma round_double_Z (z : Z) :
  - 2 ^ 53 < z < 2 ^ 53 → (round_double (inject_Z z) == inject_Z z)%Q.
Proof.
  intros Hz. destruct (Z.lt_trichotomy z 0) as [Hneg|[->|Hpos]].
  - rewrite round_double_neg by (by apply Qnum_neg).
    rewrite <- inject_Z_opp, round_pos_Z by lia.
    rewrite inject_Z_opp. ring.
  - reflexivity.
  - rewrite round_double_pos by (by apply Qnum_pos).
    apply round_pos_Z. lia.
Qed.

(** The doubles written [0.1] and [1. / 3.], and a tie: [2 ^ 53 + 1] lies
    midway between two doubles and goes to the even one. *)
Lemma round_double_examples :
  (round_double (1 # 10) == 3602879701896397 # 36028797018963968)%Q ∧
  (double_div 1 3 == 6004799503160661 # 18014398509481984)%Q ∧
  (round_double (inject_Z (2 ^ 53 + 1)) == inject_Z (2 ^ 53))%Q ∧
  (round_double (inject_Z (2 ^ 53 + 3)) == inject_Z (2 ^ 53 + 4))%Q ∧
  (double_add (round_double (1 # 10)) (round_double (2 # 10))
   == 1351079888211149 # 4503599627370496)%Q.
Proof. vm_compute. by repeat split. Qed.

(** A quotient of doubles has the sign of the exact quotient. *)
Lemma double_div_nonpos (a b : Q) :
  (0 < b)%Q → (a <= 0)%Q → (double_div a b <= 0)%Q.
Proof.
  intros Hb Ha. apply round_double_nonpos. unfold Qdiv.
  rewrite <- (Qmult_0_l (/ b)).
  apply Qmult_le_compat_r; [done|]. by apply Qlt_le_weak, Qinv_lt_0_compat.
Qed.

Lemma double_div_nonneg (a b : Q) :
  (0 < b)%Q → (0 <= a)%Q → (0 <= double_div a b)%Q.
Proof.
  intros Hb Ha. apply round_double_nonneg. unfold Qdiv.
  apply Qmult_le_0_compat; [done|]. by apply Qlt_le_weak, Qinv_lt_0_compat.
Qed.

Lemma double_div_mono (a b c : Q) :
  (0 < c)%Q → (a <= b)%Q → (double_div a c <= double_div b c)%Q.
Proof.
  intros Hc Hab. apply round_double_mono. unfold Qdiv.
  apply Qmult_le_compat_r; [done|]. by apply Qlt_le_weak, Qinv_lt_0_compat.
Qed.

Lemma double_of_int_exact (z : Z) :
  - 2 ^ 53 < z < 2 ^ 53 → (double_of_int z == inject_Z z)%Q.
Proof. apply round_double_Z. Qed.

Lemma Qgt_bool_true (a b : Q) : Qgt_bool a b = true ↔ (b < a)%Q.
Proof.
  unfold Qgt_bool. rewrite negb_true_iff, <- not_true_iff_false, Qle_bool_iff.
  split; [apply Qnot_le_lt | apply Qlt_not_le].
Qed.

Lemma Qgt_bool_false (a b : Q) : Qgt_bool a b = false ↔ (a <= b)%Q.
Proof.
  unfold Qgt_bool. rewrite negb_false_iff. apply Qle_bool_iff.
Qed.

(** * Facts about PrintRegion.cpp *)

Section PrintRegionFacts.
Import PrintRegion.
Context `{FlowLib}.

Lemma extruder_known (r : PrintRegion) (role : FlowRole) (obj : PrintObjectConfig) :
  extruder_role role = true →
  ∃ e, extruder r role obj = Ok e ∧ 0 ≤ e < 2 ^ 16.
Proof.
  intros Hrole. unfold extruder.
  destruct role; try discriminate Hrole; simpl;
    (eexists; split; [reflexivity | apply Z.mod_pos_bound; lia]).
Qed.

Lemma extruder_unknown (r : PrintRegion) (role : FlowRole) (obj : PrintObjectConfig) :
  extruder_role role = false →
  extruder r role obj = Fail (Exception (InvalidArgument "Unknown role")).
Proof. destruct role; try discriminate; reflexivity. Qed.

Lemma get_at_total (values : list Q) (i : Z) :
  values ≠ [] → ∃ v, get_at values i = Ok v.
Proof.
  intros Hne. destruct values as [|front rest]; [done|].
  unfold get_at. case_bool_decide; eauto.
Qed.

(** The index computed from extruder identifier 0 is the largest [size_t],
    and the lookup answers with the first element. *)
Lemma get_at_underflow (front : Q) (rest : list Q) :
  Z.of_nat (length (front :: rest)) < 2 ^ 64 →
  nozzle_index 0 = 2 ^ 64 - 1 ∧
  get_at (front :: rest) (nozzle_index 0) = Ok front.
Proof.
  intros Hlen. split; [reflexivity|].
  unfold get_at. rewrite bool_decide_eq_false_2; [done|].
  change (nozzle_index 0) with (2 ^ 64 - 1). lia.
Qed.

Lemma flow_ok (r : PrintRegion) (role : FlowRole) (layer_height : Q)
    (bridge first_layer : bool) (w : Q) (obj : PrintObjectConfig) :
  nozzle_diameter (m_print_config r) ≠ [] →
  extruder_role role = true →
  flow_width_role role || flow_width_given first_layer w obj = true →
  is_ok (flow r role layer_height bridge first_layer w obj) = true.
Proof.
  intros Hnd Hrole Hw.
  destruct (extruder_known r role obj Hrole) as (e & He & _).
  destruct (get_at_total _ (nozzle_index e) Hnd) as (v & Hv).
  unfold flow, flow_width_given in *. rewrite He.
  destruct (negb (Qeq_bool w (-1))); simpl in *.
  { rewrite Hv. reflexivity. }
  destruct (first_layer && _); simpl in *.
  { rewrite Hv. reflexivity. }
  rewrite orb_false_r in Hw.
  destruct role; try discriminate Hw; simpl; rewrite Hv; reflexivity.
Qed.

Lemma flow_unknown (r : PrintRegion) (role : FlowRole) (layer_height : Q)
    (bridge first_layer : bool) (w : Q) (obj : PrintObjectConfig) :
  extruder_role role && (flow_width_role role || flow_width_given first_layer w obj) = false →
  flow r role layer_height bridge first_layer w obj
  = Fail (Exception (InvalidArgument "Unknown role")).
Proof.
  intros Hno. unfold flow, flow_width_given in *.
  destruct role; simpl in Hno;
    try discriminate Hno;
    destruct (negb (Qeq_bool w (-1))); simpl in *; try discriminate Hno;
    try reflexivity;
    destruct (first_layer && _); simpl in *; try discriminate Hno; reflexivity.
Qed.

Lemma width_ok (r : PrintRegion) (role : FlowRole) (first_layer : bool)
    (obj : PrintObjectConfig) :
  nozzle_diameter (m_print_config r) ≠ [] →
  extruder_role role = true →
  is_ok (width r role first_layer obj) = true.
Proof.
  intros Hnd Hrole.
  destruct (extruder_known r role obj Hrole) as (e & He & _).
  destruct (get_at_total _ (nozzle_index e) Hnd) as (v & Hv).
  unfold width. rewrite He.
  destruct (first_layer && _); simpl.
  { rewrite Hv. simpl. destruct (Qle_bool _ _); reflexivity. }
  destruct role; try discriminate Hrole; simpl; rewrite Hv; simpl;
    destruct (Qle_bool _ _); reflexivity.
Qed.

Lemma width_unknown (r : PrintRegion) (role : FlowRole) (first_layer : bool)
    (obj : PrintObjectConfig) :
  extruder_role role = false →
  width r role first_layer obj
  = Fail (Exception (InvalidArgument "Unknown role")).
Proof.
  intros Hno. unfold width.
  destruct role; try discriminate Hno.
  destruct (first_layer && _); reflexivity.
Qed.

End PrintRegionFacts.

Section PrintRegionClaims.
Import PrintRegion.

(** C9.  The lookups [extruder], [flow] and [width] of a print region either
    return, or throw [InvalidArgument] with the text "Unknown role"; they
    never substitute a default for a role they have no branch for.
    [extruder] and [width] return for each of the seven named roles and
    throw for every other role.  [flow] throws for every other role as
    well; it returns for the five perimeter and infill roles, and for the
    two support roles it returns when a width comes with the call (a
    custom width, or the first-layer width) and throws when the width
    would have to be found from the role. *)
Theorem unknown_role_fails_fast `{FlowLib} (r : PrintRegion) (role : FlowRole)
    (obj : PrintObjectConfig) (layer_height : Q) (bridge first_layer : bool)
    (w : Q) :
  nozzle_diameter (m_print_config r) ≠ [] →
  (if extruder_role role
   then is_ok (extruder r role obj) = true
   else extruder r role obj
        = Fail (Exception (InvalidArgument "Unknown role"))) ∧
  (if extruder_role role
      && (flow_width_role role || flow_width_given first_layer w obj)
   then is_ok (flow r role layer_height bridge first_layer w obj) = true
   else flow r role layer_height bridge first_layer w obj
        = Fail (Exception (InvalidArgument "Unknown role"))) ∧
  (if extruder_role role
   then is_ok (width r role first_layer obj) = true
   else width r role first_layer obj
        = Fail (Exception (InvalidArgument "Unknown role"))).
Proof.
  intros Hnd. repeat split.
  - destruct (extruder_role role) eqn:Hrole.
    + destruct (extruder_known r role obj Hrole) as (e & -> & _). reflexivity.
    + apply extruder_unknown, Hrole.
  - destruct (extruder_role role && _) eqn:Hcase.
    + apply andb_true_iff in Hcase as [Hrole Hw]. by apply flow_ok.
    + by apply flow_unknown.
  - destruct (extruder_role role) eqn:Hrole.
    + by apply width_ok.
    + by apply width_unknown.
Qed.

(** The infill role is resolved by all three lookups; a role that is none of
    the seven is refused by all three. *)
Lemma unknown_role_fails_fast_witness :
  (is_ok (extruder Sample.region frInfill Sample.object) = true ∧
   is_ok (flow (H := Sample.flow_lib) Sample.region frInfill (1 # 5)
            false false (-1) Sample.object) = true ∧
   is_ok (width (H := Sample.flow_lib) Sample.region frInfill false
            Sample.object) = true) ∧
  (extruder Sample.region (frOther 7) Sample.object
   = Fail (Exception (InvalidArgument "Unknown role")) ∧
   flow (H := Sample.flow_lib) Sample.region (frOther 7) (1 # 5)
     false false (1 # 2) Sample.object
   = Fail (Exception (InvalidArgument "Unknown role")) ∧
   width (H := Sample.flow_lib) Sample.region (frOther 7) false Sample.object
   = Fail (Exception (InvalidArgument "Unknown role"))).
Proof.
  split.
  - apply (unknown_role_fails_fast (H := Sample.flow_lib) Sample.region
             frInfill Sample.object (1 # 5) false false (-1)).
    discriminate.
  - apply (unknown_role_fails_fast (H := Sample.flow_lib) Sample.region
             (frOther 7) Sample.object (1 # 5) false false (1 # 2)).
    discriminate.
Defined.

(** C10, as stated, fails: the support material role is handled by
    [extruder] (here with identifier 0, the underflow case), yet [flow],
    asked to find the width from the role, throws before it reaches the
    nozzle lookup. *)
Lemma flow_support_material_throws :
  extruder Sample.region frSupportMaterial Sample.object = Ok 0 ∧
  is_ok (get_at (nozzle_diameter (m_print_config Sample.region))
           (nozzle_index 0)) = true ∧
  flow (H := Sample.flow_lib) Sample.region frSupportMaterial (1 # 5)
    false false (-1) Sample.object
  = Fail (Exception (InvalidArgument "Unknown role")).
Proof. repeat split. Qed.

(** C10, amended.  With at least one nozzle diameter configured, the lookup
    indexed by [extruder(role, object) - 1] succeeds for every role that
    [extruder] handles; for extruder identifier 0 the index wraps to the
    largest [size_t] and the lookup answers with the first element.
    Consequently [width] returns for every such role, and [flow] returns
    for every such role for which it has a width: the five perimeter and
    infill roles, and any handled role when a custom or first-layer width
    comes with the call. *)
Theorem nozzle_lookup_total `{FlowLib} (r : PrintRegion) (role : FlowRole)
    (obj : PrintObjectConfig) (layer_height : Q) (bridge first_layer : bool)
    (w : Q) :
  nozzle_diameter (m_print_config r) ≠ [] →
  Z.of_nat (length (nozzle_diameter (m_print_config r))) < 2 ^ 64 →
  extruder_role role = true →
  ∃ e front rest,
    extruder r role obj = Ok e ∧
    nozzle_diameter (m_print_config r) = front :: rest ∧
    is_ok (get_at (front :: rest) (nozzle_index e)) = true ∧
    (e = 0 →
     nozzle_index e = 2 ^ 64 - 1 ∧
     get_at (front :: rest) (nozzle_index e) = Ok front) ∧
    is_ok (width r role first_layer obj) = true ∧
    (flow_width_role role || flow_width_given first_layer w obj = true →
     is_ok (flow r role layer_height bridge first_layer w obj) = true).
Proof.
  intros Hnd Hlen Hrole.
  destruct (extruder_known r role obj Hrole) as (e & He & _).
  destruct (nozzle_diameter (m_print_config r)) as [|front rest] eqn:Hvalues;
    [done|].
  exists e, front, rest. split; [done|]. split; [done|].
  split.
  { destruct (get_at_total (front :: rest) (nozzle_index e)) as (v & ->); done. }
  split.
  { intros ->. by apply get_at_underflow. }
  split.
  { apply width_ok; [by rewrite Hvalues | done]. }
  intros Hw. apply flow_ok; [by rewrite Hvalues | done | done].
Qed.

(** The solid infill of the sample region has extruder identifier 0: the
    index wraps, the first nozzle diameter is read, and both [width] and
    [flow] return. *)
Lemma nozzle_lookup_total_witness :
  ∃ e front rest,
    extruder Sample.region frSolidInfill Sample.object = Ok e ∧
    nozzle_diameter (m_print_config Sample.region) = front :: rest ∧
    is_ok (get_at (front :: rest) (nozzle_index e)) = true ∧
    (e = 0 →
     nozzle_index e = 2 ^ 64 - 1 ∧
     get_at (front :: rest) (nozzle_index e) = Ok front) ∧
    is_ok (width (H := Sample.flow_lib) Sample.region frSolidInfill false
             Sample.object) = true ∧
    (flow_width_role frSolidInfill
     || flow_width_given false (-1) Sample.object = true →
     is_ok (flow (H := Sample.flow_lib) Sample.region frSolidInfill (1 # 5)
              false false (-1) Sample.object) = true).
Proof.
  apply (nozzle_lookup_total (H := Sample.flow_lib) Sample.region
           frSolidInfill Sample.object (1 # 5) false false (-1)).
  - discriminate.
  - simpl. lia.
  - reflexivity.
Defined.

End PrintRegionClaims.

(** * Facts about ArrangeJob.cpp *)

Section ArrangeJobFacts.
Import ArrangeJob.
Context `{ArrangeLib}.

(** ** What is written back *)

Lemma written_app (l k : list Event) : written (l ++ k) = written l ++ written k.
Proof. apply omap_app. Qed.

Lemma written_Apply (items : list ArrangePolygon) :
  written (Apply <$> items) = items.
Proof.
  induction items as [|ap items IH]; [done|].
  change (written (Apply <$> ap :: items))
    with (ap :: written (Apply <$> items)).
  by rewrite IH.
Qed.

Lemma written_nil (events : list Event) :
  (∀ ap, Apply ap ∉ events) → written events = [].
Proof.
  induction events as [|ev events IH]; intros Hno; [done|].
  destruct ev as [| | |ap| |];
    try (apply IH; intros ap' Hin; apply (Hno ap'), elem_of_cons; by right).
  destruct (Hno ap). apply elem_of_cons. by left.
Qed.

Lemma progressind_selected_status (count size : Z) (sts : list Z) (ev : Event) :
  ev ∈ sts ≫= progressind_selected count size →
  ∃ st msg, ev = UpdateStatus st msg.
Proof.
  intros (st & Hev & _)%list_elem_of_bind.
  unfold progressind_selected in Hev.
  destruct (bool_decide _); [|by apply not_elem_of_nil in Hev].
  apply list_elem_of_singleton in Hev as ->. eauto.
Qed.

Lemma progressind_unprintable_status (count : Z) (sts : list Z) (ev : Event) :
  ev ∈ sts ≫= progressind_unprintable count →
  ∃ st msg, ev = UpdateStatus st msg.
Proof.
  intros (st & Hev & _)%list_elem_of_bind.
  unfold progressind_unprintable in Hev.
  destruct (bool_decide _); [|by apply not_elem_of_nil in Hev].
  apply list_elem_of_singleton in Hev as ->. eauto.
Qed.

(** What [process] does to the outside: it enters the engine with
    [arrange_params], shows an error, posts a status. *)
Lemma process_events (plater : Plater) (canceled : bool) (job : ArrangeJob)
    (ev : Event) :
  ev ∈ (process plater canceled job).2 →
  (∃ items excludes bed,
     ev = CallArrange items excludes bed (arrange_params plater canceled)) ∨
  (∃ msg, ev = ShowError msg) ∨
  (∃ st msg, ev = UpdateStatus st msg).
Proof.
  unfold process.
  destruct (thrown (arrange (m_selected job) _ _ _));
    [|destruct (thrown (arrange (m_unprintable job) _ _ _))];
    cbn [snd]; rewrite !elem_of_app, !elem_of_cons, ?elem_of_app, ?elem_of_cons;
    intros Hin;
    repeat match type of Hin with
      | _ ∨ _ => destruct Hin as [Hin|Hin]
      | _ ∈ [] => by apply not_elem_of_nil in Hin
      | _ ∈ _ ≫= progressind_selected _ _ =>
          apply progressind_selected_status in Hin
      | _ ∈ _ ≫= progressind_unprintable _ =>
          apply progressind_unprintable_status in Hin
      | _ = _ => subst ev
      end;
    eauto 8.
Qed.

(** [process] works on the item sets of the job and writes nothing back. *)
Lemma process_writes_nothing (plater : Plater) (canceled : bool) (job : ArrangeJob) :
  written (process plater canceled job).2 = [].
Proof.
  apply written_nil. intros ap Hin.
  apply process_events in Hin
    as [(? & ? & ? & [=])|[(? & [=])|(? & ? & [=])]].
Qed.

(** Every call of the engine in [process] carries [arrange_params]. *)
Lemma process_calls (plater : Plater) (canceled : bool) (job : ArrangeJob)
    (items excludes : list ArrangePolygon) (bed : list Point)
    (params : ArrangeParams) :
  CallArrange items excludes bed params ∈ (process plater canceled job).2 →
  params = arrange_params plater canceled.
Proof.
  intros Hin.
  apply process_events in Hin
    as [(? & ? & ? & [= _ _ _ ->])|[(? & [=])|(? & ? & [=])]].
  done.
Qed.

Lemma replay_app (l k : list Event) (scene : gmap Arrangeable Placement) :
  replay (l ++ k) scene = replay k (replay l scene).
Proof. apply foldl_app. Qed.

(** The scene changes through the written items only. *)
Lemma replay_written (events : list Event) (scene : gmap Arrangeable Placement) :
  replay events scene = foldl (λ scene ap, apply ap scene) scene (written events).
Proof.
  revert scene. induction events as [|ev events IH]; intros scene; [done|].
  destruct ev; simpl; apply IH.
Qed.

Lemma replay_nothing_written (events : list Event)
    (scene : gmap Arrangeable Placement) :
  written events = [] → replay events scene = scene.
Proof. intros Hw. by rewrite replay_written, Hw. Qed.

(** ** The bed count of [finalize] *)

Lemma max_bed_idx_app (beds : Z) (l k : list ArrangePolygon) :
  max_bed_idx (max_bed_idx beds l) k = max_bed_idx beds (l ++ k).
Proof. unfold max_bed_idx. by rewrite foldl_app. Qed.

Lemma max_bed_idx_spec (items : list ArrangePolygon) (beds : Z) :
  beds ≤ max_bed_idx beds items ∧
  (∀ ap, ap ∈ items → bed_idx ap ≤ max_bed_idx beds items) ∧
  (max_bed_idx beds items = beds ∨
   ∃ ap, ap ∈ items ∧ bed_idx ap = max_bed_idx beds items).
Proof.
  revert beds. induction items as [|ap items IH]; intros beds.
  { split; [done|]. split; [|by left]. intros ap Hin. by apply not_elem_of_nil in Hin. }
  change (max_bed_idx beds (ap :: items))
    with (max_bed_idx (Z.max (bed_idx ap) beds) items).
  destruct (IH (Z.max (bed_idx ap) beds)) as (Hge & Hub & Hatt).
  split; [lia|]. split.
  - intros ap' [->|Hin]%elem_of_cons; [lia|by apply Hub].
  - destruct Hatt as [Heq|(ap' & Hin & Heq)].
    + destruct (Z.max_spec (bed_idx ap) beds) as [[_ Hm]|[_ Hm]].
      * left. lia.
      * right. exists ap. split; [apply elem_of_cons; by left|lia].
    + right. exists ap'. split; [apply elem_of_cons; by right|done].
Qed.

(** The code's bed count is the largest bed index in use, 0 at least. *)
Lemma max_bed_idx_is_max (items : list ArrangePolygon) (m : Z) :
  (∀ p, p ∈ items → bed_idx p ≤ m) →
  (m = 0 ∨ ∃ p, p ∈ items ∧ bed_idx p = m) →
  0 ≤ m →
  max_bed_idx 0 items = m.
Proof.
  intros Hub Hatt Hnn.
  destruct (max_bed_idx_spec items 0) as (Hge & Hub' & Hatt').
  apply Z.le_antisymm.
  - destruct Hatt' as [->|(p & Hin & <-)]; [done|by apply Hub].
  - destruct Hatt as [->|(p & Hin & <-)]; [done|by apply Hub'].
Qed.

End ArrangeJobFacts.

Section CommitClaims.
Import ArrangeJob.

(** C2.  When the cancellation flag is set on entry, [finalize] returns at
    once: it leaves the job as it is and does nothing to the outside.  A
    whole run that ends in such a [finalize] applies no item of any of the
    three sets, to no instance and not to the wipe tower, so every scene is
    after the run what it was before. *)
Theorem finalize_canceled_commits_nothing `{ArrangeLib} (shift : bool)
    (plater : Plater) (canceled_in_process : bool) (job : ArrangeJob)
    (events : list Event) (scene : gmap Arrangeable Placement) :
  run shift plater canceled_in_process true = Ok (job, events) →
  (∀ job', finalize true job' = (job', [])) ∧
  written events = [] ∧
  (∀ ap, Apply ap ∉ events) ∧
  replay events scene = scene.
Proof.
  intros Hrun.
  assert (Hw : written events = []).
  { unfold run in Hrun.
    destruct (prepare shift plater) as [prepared|]; [|discriminate Hrun].
    simpl in Hrun.
    pose proof (process_writes_nothing plater canceled_in_process prepared) as Hp.
    destruct (process plater canceled_in_process prepared) as [processed ev].
    injection Hrun as <- <-. by rewrite app_nil_r. }
  split; [done|]. split; [done|]. split.
  - intros ap Hin.
    assert (Hap : ap ∈ written events).
    { unfold written. apply list_elem_of_omap. by exists (Apply ap). }
    rewrite Hw in Hap. by apply not_elem_of_nil in Hap.
  - by apply replay_nothing_written.
Qed.

(** A selection-based run over three instances and an unselected wipe
    tower, cancelled before [finalize]. *)
Lemma finalize_canceled_commits_nothing_witness :
  ∃ job events,
    run (H := Sample.unit_lib) true
      (Sample.plater Sample.three_instances [(0, [0])] false true false)
      false true = Ok (job, events) ∧
    written events = [] ∧
    replay events ∅ = ∅.
Proof.
  destruct (run (H := Sample.unit_lib) true
              (Sample.plater Sample.three_instances [(0, [0])] false true false)
              false true) as [[job events]|f] eqn:Hrun;
    [|vm_compute in Hrun; discriminate Hrun].
  exists job, events. split; [reflexivity|].
  destruct (finalize_canceled_commits_nothing (H := Sample.unit_lib) true
              (Sample.plater Sample.three_instances [(0, [0])] false true false)
              false job events ∅ Hrun) as (_ & Hw & _ & Hr).
  split; assumption.
Defined.

(** C1 does not hold of the code.  The engine throws on its first call and
    leaves the items as they were; [process] reports the error and posts its
    final status, and [finalize], which looks at the cancellation flag only,
    commits: it applies the selected item and moves the unprintable item,
    which the engine never saw, from bed 1 to bed 2. *)
Theorem engine_failure_still_commits :
  let plater := Sample.plater Sample.mixed_instances [] false false true in
  let printable_item :=
    get_arrange_poly (ArrangeLib := Sample.failing_lib) plater
      (ModelInstanceRef 0 0) in
  let unprintable_item :=
    get_arrange_poly (ArrangeLib := Sample.failing_lib) plater
      (ModelInstanceRef 0 1) in
  let before := replay [Apply printable_item; Apply unprintable_item] ∅ in
  thrown (arrange (ArrangeLib := Sample.failing_lib) [printable_item] []
            (bed_shape plater)
            (arrange_params (H := Sample.failing_lib) plater false))
  = Some (StdException "invalid geometry") ∧
  ∃ job events,
    run (H := Sample.failing_lib) false plater false false = Ok (job, events) ∧
    ShowError "Could not arrange model objects! Some geometries may be invalid."
      ∈ events ∧
    written events = [printable_item; set_bed_idx 2 unprintable_item] ∧
    (placed_bed <$> before !! ModelInstanceRef 0 1) = Some 1 ∧
    (placed_bed <$> replay events before !! ModelInstanceRef 0 1) = Some 2 ∧
    replay events before ≠ before.
Proof.
  intros plater printable_item unprintable_item before.
  split; [reflexivity|].
  destruct (run (H := Sample.failing_lib) false plater false false)
    as [[job events]|f] eqn:Hrun; [|vm_compute in Hrun; discriminate Hrun].
  exists job, events. split; [reflexivity|].
  vm_compute in Hrun. injection Hrun as <- <-.
  split; [set_solver|]. split; [reflexivity|].
  split; [reflexivity|]. split; [reflexivity|].
  intros Heq.
  apply (f_equal (λ scene, placed_bed <$> scene !! ModelInstanceRef 0 1)) in Heq.
  vm_compute in Heq. discriminate Heq.
Qed.

(** C4.  Let [m] be the largest bed index among the selected and the
    unselected items (0 when there is none; bed indices are not negative).
    A [finalize] that is not cancelled adds [m + 1] to the bed index of
    every unprintable item, and what it applies are the selected items
    followed by the unprintable items with their raised bed index.  An
    unprintable item that the engine put on a bed of its own 0-based
    numbering therefore ends on a bed strictly after every bed of the
    selected and unselected items.  With [m = 2] its final bed index is the
    engine's index plus 3. *)
Theorem unprintable_beds_follow_printable (job : ArrangeJob) (m : Z) :
  (∀ p, p ∈ m_selected job ++ m_unselected job → bed_idx p ≤ m) →
  (m = 0 ∨ ∃ p, p ∈ m_selected job ++ m_unselected job ∧ bed_idx p = m) →
  0 ≤ m →
  (∀ u, u ∈ m_unprintable job → 0 ≤ bed_idx u) →
  m_unprintable (finalize false job).1
  = (λ u, set_bed_idx (bed_idx u + (m + 1)) u) <$> m_unprintable job ∧
  written (finalize false job).2
  = m_selected job ++ m_unprintable (finalize false job).1 ∧
  (∀ u p, u ∈ m_unprintable (finalize false job).1 →
          p ∈ m_selected job ++ m_unselected job →
          bed_idx p < bed_idx u).
Proof.
  intros Hub Hatt Hnn Hu.
  unfold finalize. cbn [fst snd m_unprintable].
  rewrite max_bed_idx_app, (max_bed_idx_is_max _ m Hub Hatt Hnn).
  split; [done|]. split.
  - rewrite !written_app, !written_Apply. cbn. by rewrite app_nil_r.
  - intros u' p [u [-> Hin]]%list_elem_of_fmap Hp. cbn.
    specialize (Hub p Hp). specialize (Hu u Hin). lia.
Qed.

(** Selected items on beds 0 and 2, a fixed item on bed 1, and two
    unprintable items that the engine put on its beds 0 and 1: they end on
    beds 3 and 4. *)
Lemma unprintable_beds_follow_printable_witness :
  let item (b : Z) (i : nat) :=
    {| poly := Sample.square 10; translation := (0, 0); rotation := 0;
       bed_idx := b; priority := 0; setter := ModelInstanceRef 0 i |} in
  let job :=
    {| m_selected := [item 0 0%nat; item 2 1%nat];
       m_unselected := [item 1 2%nat];
       m_unprintable := [item 0 3%nat; item 1 4%nat] |} in
  m_unprintable (finalize false job).1 = [item 3 3%nat; item 4 4%nat] ∧
  written (finalize false job).2
  = [item 0 0%nat; item 2 1%nat; item 3 3%nat; item 4 4%nat] ∧
  (∀ u p, u ∈ m_unprintable (finalize false job).1 →
          p ∈ m_selected job ++ m_unselected job →
          bed_idx p < bed_idx u).
Proof.
  intros item job.
  apply (unprintable_beds_follow_printable job 2).
  - intros p Hp. cbn in Hp. set_unfold in Hp.
    destruct Hp as [->|[->|[->|[]]]]; cbn; lia.
  - right. exists (item 2 1%nat). split; [cbn; set_solver|reflexivity].
  - lia.
  - intros u Hu. cbn in Hu. set_unfold in Hu.
    destruct Hu as [->|[->|[]]]; cbn; lia.
Defined.

End CommitClaims.

(** ** The parameters of the engine *)

Section EngineParameters.
Import ArrangeJob.
Context `{ArrangeLib}.

Lemma scaled_mono (a b : Q) :
  (0 < SCALING_FACTOR)%Q → (a <= b)%Q → scaled a ≤ scaled b.
Proof.
  intros Hpos Hle. by apply coord_of_double_mono, double_div_mono.
Qed.

Lemma scaled_compat (a b : Q) : (a == b)%Q → scaled a = scaled b.
Proof.
  intros Heq. apply coord_of_double_compat, round_double_comp.
  by rewrite Heq.
Qed.

Lemma std_max_double_l (a b : Q) : (b <= a)%Q → std_max_double a b = a.
Proof.
  intros Hle. unfold std_max_double.
  by apply Qgt_bool_false in Hle as ->.
Qed.

Lemma std_max_double_r (a b : Q) : (a <= b)%Q → (std_max_double a b == b)%Q.
Proof.
  intros Hle. unfold std_max_double.
  destruct (Qgt_bool b a) eqn:Hgt; [reflexivity|].
  apply Qgt_bool_false in Hgt. by apply Qle_antisym.
Qed.

Lemma std_max_double_ge (a b : Q) :
  (a <= std_max_double a b)%Q ∧ (b <= std_max_double a b)%Q.
Proof.
  unfold std_max_double. destruct (Qgt_bool b a) eqn:Hgt.
  - apply Qgt_bool_true in Hgt. split; [by apply Qlt_le_weak|apply Qle_refl].
  - apply Qgt_bool_false in Hgt. split; [apply Qle_refl|done].
Qed.

(** C8.  [process] enters the engine, and every time it does the minimum
    spacing it passes is the larger of the user's distance and twice the
    minimum object distance of the print, brought to coordinate units: it
    is twice the minimum object distance whenever that is not below the
    user's distance, the user's distance otherwise, and never below
    either. *)
Theorem min_spacing_dominates (plater : Plater) (canceled : bool)
    (job : ArrangeJob) :
  (0 < SCALING_FACTOR)%Q →
  let user := distance (arrange_settings plater) in
  let required := (min_object_distance plater * 2)%Q in
  let events := (process plater canceled job).2 in
  (∃ params rest,
     events = CallArrange (m_selected job) (m_unselected job)
                (bed_shape plater) params :: rest) ∧
  (∀ items excludes bed params,
     CallArrange items excludes bed params ∈ events →
     min_obj_distance params = scaled (std_max_double user required) ∧
     ((user <= required)%Q → min_obj_distance params = scaled required) ∧
     ((required <= user)%Q → min_obj_distance params = scaled user) ∧
     scaled user ≤ min_obj_distance params ∧
     scaled required ≤ min_obj_distance params).
Proof.
  intros Hpos user required events. split.
  - unfold events, process.
    destruct (thrown (arrange (m_selected job) _ _ _));
      [|destruct (thrown (arrange (m_unprintable job) _ _ _))];
      cbn [snd]; rewrite <- app_comm_cons; eauto.
  - intros items excludes bed params ->%process_calls.
    cbn [arrange_params min_obj_distance]. fold user required.
    destruct (std_max_double_ge user required) as [Hu Hr].
    split; [done|]. split; [|split; [|split]].
    + intros Hle. by apply scaled_compat, std_max_double_r.
    + intros Hle. by rewrite std_max_double_l.
    + by apply scaled_mono.
    + by apply scaled_mono.
Qed.

End EngineParameters.

(** A user distance of 6 against a required distance of 2 * 4: the engine
    is given 8. *)
Lemma min_spacing_dominates_witness :
  let plater := Sample.plater Sample.three_instances [] false false true in
  let job :=
    {| ArrangeJob.m_selected := []; ArrangeJob.m_unselected := [];
       ArrangeJob.m_unprintable := [] |} in
  let events := (ArrangeJob.process (H := Sample.unit_lib) plater false job).2 in
  (∃ params rest,
     events = ArrangeJob.CallArrange [] [] (ArrangeJob.bed_shape plater) params
              :: rest) ∧
  (∀ items excludes bed params,
     ArrangeJob.CallArrange items excludes bed params ∈ events →
     ArrangeJob.min_obj_distance params = 8).
Proof.
  intros plater job events.
  destruct (min_spacing_dominates (H := Sample.unit_lib) plater false job)
    as [Hcall Hall]; [reflexivity|].
  split; [exact Hcall|].
  intros items excludes bed params Hin.
  destruct (Hall items excludes bed params Hin) as (-> & _). reflexivity.
Defined.

(** ** Brim inflation *)

Section BrimInflation.
Import ArrangeJob.
Context `{ArrangeLib}.

Lemma scaled_0 : scaled 0 = 0.
Proof.
  unfold scaled, double_div. rewrite round_double_zero; [done|].
  unfold Qdiv. apply Qmult_0_l.
Qed.

(** [add_brim] in terms of the value of [diff] it tests. *)
Lemma add_brim_unfold (ap : ArrangePolygon) (config : ModelConfigObject)
    (plater : Plater) :
  add_brim ap config plater =
  if complete_objects_one_brim (plater_config plater) then Ok ap
  else if bool_decide (brim_diff config plater > 0) then
    let brimmed := offset_ex (poly ap) (brim_diff config plater) in
    if NDEBUG || bool_decide (length brimmed = 1%nat) then
      match brimmed with
      | brimmed_0 :: _ => Ok (set_poly brimmed_0 ap)
      | [] => Fail UndefinedBehaviour
      end
    else Fail AssertionFailure
  else Ok ap.
Proof.
  unfold add_brim, brim_diff, brim_margin.
  destruct (complete_objects_one_brim _); [done|].
  destruct (object_brim_width config); cbn [negb default]; cbv zeta;
    (destruct (bool_decide (_ > 0)); [|done]);
    by destruct (NDEBUG || _).
Qed.

(** A margin of at most 0 never reaches a positive [diff]. *)
Lemma brim_diff_nonpos (config : ModelConfigObject) (plater : Plater) :
  (0 < SCALING_FACTOR)%Q →
  (brim_margin config plater <= 0)%Q → brim_diff config plater ≤ 0.
Proof.
  intros Hpos Hle. unfold brim_diff, scale_.
  apply (Z.le_trans _ (coord_of_double 0)); [|done].
  by apply coord_of_double_mono, double_div_nonpos.
Qed.

(** A margin of at least one coordinate unit reaches a positive [diff]. *)
Lemma brim_diff_pos (config : ModelConfigObject) (plater : Plater) :
  (0 < SCALING_FACTOR)%Q →
  (SCALING_FACTOR <= brim_margin config plater)%Q →
  brim_diff config plater > 0.
Proof.
  intros Hpos Hle. unfold brim_diff, scale_.
  assert (1 ≤ coord_of_double (double_div (brim_margin config plater)
                                 SCALING_FACTOR)); [|lia].
  rewrite <- (coord_of_double_inject_Z 1) at 1.
  apply coord_of_double_mono.
  rewrite <- (round_double_Z 1) by done.
  apply round_double_mono. apply Qle_shift_div_l; [done|].
  by rewrite Qmult_1_l.
Qed.

(** C6, amended.  With the unified-brim flag set the boundary stays as it
    is, whatever the other values.  Otherwise let the margin be the brim
    width (the override of the object if it has one, the default otherwise)
    minus half the clearance radius, computed in double, and [delta] the
    margin divided by [SCALING_FACTOR], truncated to a coordinate.  The
    boundary stays as it is when [delta] is at most 0, which is so for
    every margin of at most 0; [delta] is positive for every margin of at
    least one coordinate unit, and when [delta] is positive and the offset
    of the boundary by [delta] is one contour, that contour becomes the
    boundary and nothing else of the item changes. *)
Theorem add_brim_inflates (ap : ArrangePolygon) (config : ModelConfigObject)
    (plater : Plater) :
  (0 < SCALING_FACTOR)%Q →
  let cfg := plater_config plater in
  let margin :=
    double_sub (default (brim_width cfg) (object_brim_width config))
      (double_div (extruder_clearance_radius cfg) 2) in
  let delta := coord_of_double (double_div margin SCALING_FACTOR) in
  (complete_objects_one_brim cfg = true → add_brim ap config plater = Ok ap) ∧
  (complete_objects_one_brim cfg = false → (margin <= 0)%Q →
   add_brim ap config plater = Ok ap) ∧
  (complete_objects_one_brim cfg = false → delta ≤ 0 →
   add_brim ap config plater = Ok ap) ∧
  ((SCALING_FACTOR <= margin)%Q → delta > 0) ∧
  (complete_objects_one_brim cfg = false → delta > 0 → ∀ p,
   offset_ex (poly ap) delta = [p] →
   add_brim ap config plater =
   Ok {| poly := p;
         translation := translation ap;
         rotation := rotation ap;
         bed_idx := bed_idx ap;
         priority := priority ap;
         setter := setter ap |}).
Proof.
  intros Hpos cfg margin delta.
  pose proof (brim_diff_nonpos config plater Hpos) as Hnonpos.
  pose proof (brim_diff_pos config plater Hpos) as Hunit.
  rewrite add_brim_unfold.
  change (brim_margin config plater) with margin in Hnonpos, Hunit.
  change (brim_diff config plater) with delta in *. fold cfg.
  split; [by intros ->|]. split; [|split; [|split; [done|]]].
  - intros -> Hle. specialize (Hnonpos Hle).
    rewrite bool_decide_eq_false_2; [done|lia].
  - intros -> Hle. rewrite bool_decide_eq_false_2; [done|lia].
  - intros -> Hgt p Hp. rewrite bool_decide_eq_true_2 by done.
    cbv zeta. rewrite Hp. cbn. by rewrite orb_true_r.
Qed.

End BrimInflation.

(** Brim width 5 and clearance radius 4 give a margin of 3: with one
    coordinate unit per length unit the square of side 10 becomes the
    square from (-3, -3) to (13, 13).  With the unified brim it stays.
    With coordinates in millionths, a brim width of 2.21 and a clearance
    radius of 0.4 give the margin 2.0099999999999998 and an offset by
    2009999 units. *)
Lemma add_brim_inflates_witness :
  let plater := Sample.plater Sample.three_instances [] false false false in
  let unified := Sample.plater Sample.three_instances [] false false true in
  let fine := Sample.brim_plater (round_double (221 # 100)) (round_double (2 # 5)) in
  let ap :=
    ArrangeJob.get_arrange_poly (ArrangeLib := Sample.unit_lib)
      plater (ArrangeJob.ModelInstanceRef 0 0) in
  ArrangeJob.add_brim (H := Sample.unit_lib) ap Sample.plain plater
  = Ok {| ArrangeJob.poly :=
            {| ArrangeJob.contour := [(-3, -3); (13, -3); (13, 13); (-3, 13)];
               ArrangeJob.holes := [] |};
          ArrangeJob.translation := (60, 0);
          ArrangeJob.rotation := 0;
          ArrangeJob.bed_idx := 0;
          ArrangeJob.priority := 0;
          ArrangeJob.setter := ArrangeJob.ModelInstanceRef 0 0 |} ∧
  ArrangeJob.add_brim (H := Sample.unit_lib) ap Sample.plain unified = Ok ap ∧
  ArrangeJob.add_brim (H := Sample.nano_lib) ap Sample.plain fine
  = Ok {| ArrangeJob.poly :=
            {| ArrangeJob.contour :=
                 [(-2009999, -2009999); (2010009, -2009999);
                  (2010009, 2010009); (-2009999, 2010009)];
               ArrangeJob.holes := [] |};
          ArrangeJob.translation := (60, 0);
          ArrangeJob.rotation := 0;
          ArrangeJob.bed_idx := 0;
          ArrangeJob.priority := 0;
          ArrangeJob.setter := ArrangeJob.ModelInstanceRef 0 0 |}.
Proof.
  intros plater unified fine ap. split; [|split].
  - destruct (add_brim_inflates (H := Sample.unit_lib) ap Sample.plain plater)
      as (_ & _ & _ & Hunit & Hoffset); [reflexivity|].
    apply Hoffset; [reflexivity|apply Hunit; vm_compute; discriminate|
                    reflexivity].
  - destruct (add_brim_inflates (H := Sample.unit_lib) ap Sample.plain unified)
      as (Hunified & _); [reflexivity|].
    apply Hunified. reflexivity.
  - destruct (add_brim_inflates (H := Sample.nano_lib) ap Sample.plain fine)
      as (_ & _ & _ & Hunit & Hoffset); [reflexivity|].
    apply Hoffset; [reflexivity|apply Hunit; vm_compute; discriminate|
                    reflexivity].
Defined.

(** C6, as stated, fails: a brim width of 2.5 of the object against a
    clearance radius of 4 gives the positive margin 0.5, which is no whole
    coordinate unit; the boundary stays as it is, and it is none of the
    offsets of itself by a positive amount.  The same holds for a margin of
    half a millionth with coordinates in millionths. *)
Lemma add_brim_small_margin_unchanged :
  let plater := Sample.plater Sample.three_instances [] false false false in
  let thin := Sample.brim_plater (round_double (5 # 10000000)) 0 in
  let ap :=
    ArrangeJob.get_arrange_poly (ArrangeLib := Sample.unit_lib)
      plater (ArrangeJob.ModelInstanceRef 0 0) in
  (ArrangeJob.brim_margin (Sample.own_brim (5 # 2)) plater == 1 # 2)%Q ∧
  ArrangeJob.add_brim (H := Sample.unit_lib) ap (Sample.own_brim (5 # 2)) plater
  = Ok ap ∧
  (0 < ArrangeJob.brim_margin Sample.plain thin)%Q ∧
  ArrangeJob.add_brim (H := Sample.nano_lib) ap Sample.plain thin = Ok ap ∧
  ∀ delta, delta > 0 →
    ArrangeJob.poly ap
    ∉ ArrangeJob.offset_ex (ArrangeLib := Sample.unit_lib)
        (ArrangeJob.poly ap) delta.
Proof.
  intros plater thin ap.
  split; [reflexivity|]. split; [reflexivity|]. split; [reflexivity|].
  split; [reflexivity|].
  intros delta Hdelta Hin. apply list_elem_of_singleton in Hin.
  apply (f_equal ArrangeJob.contour) in Hin. cbn in Hin.
  injection Hin as Hx _. lia.
Qed.

(** C7.  The builds differ only in the assertion: with a [diff] of 3 and an
    offset that comes back with two contours, a build with assertions stops
    at the assertion, and a build without them does not leave the boundary
    as it is but takes the first contour; when the offset comes back empty,
    the build without assertions reads the first element of an empty
    vector. *)
Theorem add_brim_release_has_no_fallback :
  let plater := Sample.plater Sample.three_instances [] false false false in
  let ap :=
    ArrangeJob.get_arrange_poly (ArrangeLib := Sample.unit_lib)
      plater (ArrangeJob.ModelInstanceRef 0 0) in
  ArrangeJob.poly ap = Sample.square 10 ∧
  ArrangeJob.brim_diff (H := Sample.unit_lib) Sample.plain plater = 3 ∧
  (ArrangeJob.NDEBUG (ArrangeLib := Sample.empty_release_lib) = true ∧
   ArrangeJob.offset_ex (ArrangeLib := Sample.empty_release_lib)
     (ArrangeJob.poly ap) 3 = [] ∧
   ArrangeJob.add_brim (H := Sample.empty_release_lib) ap Sample.plain plater
   = Fail UndefinedBehaviour) ∧
  (ArrangeJob.NDEBUG (ArrangeLib := Sample.split_release_lib) = true ∧
   ArrangeJob.offset_ex (ArrangeLib := Sample.split_release_lib)
     (ArrangeJob.poly ap) 3
   = [{| ArrangeJob.contour := [(-3, -3); (13, -3); (13, 13); (-3, 13)];
         ArrangeJob.holes := [] |};
      Sample.square 1] ∧
   ArrangeJob.add_brim (H := Sample.split_release_lib) ap Sample.plain plater
   = Ok {| ArrangeJob.poly :=
             {| ArrangeJob.contour := [(-3, -3); (13, -3); (13, 13); (-3, 13)];
                ArrangeJob.holes := [] |};
           ArrangeJob.translation := (60, 0);
           ArrangeJob.rotation := 0;
           ArrangeJob.bed_idx := 0;
           ArrangeJob.priority := 0;
           ArrangeJob.setter := ArrangeJob.ModelInstanceRef 0 0 |} ∧
   ArrangeJob.add_brim (H := Sample.split_release_lib) ap Sample.plain plater
   ≠ Ok ap) ∧
  (ArrangeJob.NDEBUG (ArrangeLib := Sample.split_debug_lib) = false ∧
   ArrangeJob.add_brim (H := Sample.split_debug_lib) ap Sample.plain plater
   = Fail AssertionFailure).
Proof.
  intros plater ap. split; [reflexivity|]. split; [reflexivity|].
  split; [by repeat split|]. split; [|by split].
  split; [reflexivity|]. split; [reflexivity|]. split; [reflexivity|].
  intros Heq. vm_compute in Heq. discriminate Heq.
Qed.

(** ** Classification by selection *)

Section Classification.
Import ArrangeJob.
Context `{ArrangeLib}.

Lemma bind_Ok {A B : Type} (a : A) (k : A → result B) : (x ← Ok a; k x) = k a.
Proof. reflexivity. Qed.

Lemma bind_Ok_inv {A B : Type} (m : result A) (k : A → result B) (b : B) :
  (a ← m; k a) = Ok b → ∃ a, m = Ok a ∧ k a = Ok b.
Proof. destruct m as [a|f]; [eauto|discriminate]. Qed.

(** A loop keeps what each of its steps keeps. *)
Lemma for_each_preserved {A St B : Type} (body : St → nat → A → result St)
    (f : St → B) :
  (∀ s i x s', body s i x = Ok s' → f s' = f s) →
  ∀ xs i s s', for_each body i xs s = Ok s' → f s' = f s.
Proof.
  intros Hstep xs. induction xs as [|x xs IH]; intros i s s' Hrun.
  - by injection Hrun as <-.
  - apply bind_Ok_inv in Hrun as (s1 & Hbody & Hrest).
    rewrite (IH _ _ _ Hrest). eauto.
Qed.

(** A loop adds up what each of its steps adds. *)
Lemma for_each_measure {A St : Type} (body : St → nat → A → result St)
    (f : St → nat) (g : A → nat) :
  (∀ s i x s', body s i x = Ok s' → f s' = (f s + g x)%nat) →
  ∀ xs i s s', for_each body i xs s = Ok s' →
               f s' = (f s + sum_list (g <$> xs))%nat.
Proof.
  intros Hstep xs. induction xs as [|x xs IH]; intros i s s' Hrun.
  - injection Hrun as <-. cbn. lia.
  - apply bind_Ok_inv in Hrun as (s1 & Hbody & Hrest).
    rewrite (IH _ _ _ Hrest), (Hstep _ _ _ _ Hbody). cbn. lia.
Qed.

Lemma sum_list_indicator {A : Type} (P : A → bool) (xs : list A) :
  sum_list ((λ x, if P x then 1%nat else 0%nat) <$> xs)
  = length (filter (λ x, P x = true) xs).
Proof.
  induction xs as [|x xs IH]; [done|].
  rewrite filter_cons. cbn [fmap list_fmap sum_list sum_list_with].
  fold (sum_list ((λ x, if P x then 1%nat else 0%nat) <$> xs)).
  rewrite IH. destruct (decide (P x = true)) as [->|Hf].
  - done.
  - by apply not_true_is_false in Hf as ->.
Qed.

Lemma select_objects_nil (n : nat) : select_objects [] n = Ok (replicate n None).
Proof. reflexivity. Qed.

Lemma lookup_replicate_default {A : Type} (n i : nat) (x : A) :
  default x (replicate n x !! i) = x.
Proof.
  destruct (replicate n x !! i) as [y|] eqn:Hl; [|done].
  by apply lookup_replicate in Hl as [-> _].
Qed.

(** With nothing selected, the instance loops put every printable instance
    into the unselected set and none into the selected set. *)
Lemma classify_instances_unselected (plater : Plater) (objects : list ModelObject)
    (n oidx : nat) (job job' : ArrangeJob) :
  for_each (λ job oidx mo,
      let instlist := default None (replicate n None !! oidx) in
      inst_sel ← select_instances instlist (length (instances mo));
      for_each (λ job i mi,
        let ap := get_arrange_poly plater (ModelInstanceRef oidx i) in
        ap ← add_brim ap (config mo) plater;
        Ok (if printable mi
            then (if default false (inst_sel !! i)
                  then push_selected ap job
                  else push_unselected ap job)
            else push_unprintable ap job))
        0%nat (instances mo) job)
    oidx objects job = Ok job' →
  m_selected job' = m_selected job ∧
  length (m_unselected job')
  = (length (m_unselected job) + count_printable objects)%nat.
Proof.
  intros Hrun. split.
  - revert Hrun. apply for_each_preserved.
    intros s i mo s'. cbn zeta. rewrite lookup_replicate_default. cbn.
    apply for_each_preserved.
    intros s1 i1 mi s1' (ap & _ & Hpush)%bind_Ok_inv.
    rewrite lookup_replicate_default in Hpush.
    injection Hpush as <-. by destruct (printable mi).
  - revert Hrun. unfold count_printable.
    apply (for_each_measure _ (λ job, length (m_unselected job))
             (λ obj, length (filter (λ mi, printable mi = true) (instances obj)))).
    intros s i mo s'. cbn zeta. rewrite lookup_replicate_default. cbn.
    rewrite <- sum_list_indicator.
    apply (for_each_measure _ (λ job, length (m_unselected job))
             (λ mi, if printable mi then 1%nat else 0%nat)).
    intros s1 i1 mi s1' (ap & _ & Hpush)%bind_Ok_inv.
    rewrite lookup_replicate_default in Hpush.
    injection Hpush as <-. destruct (printable mi); cbn.
    + rewrite length_app. cbn. lia.
    + lia.
Qed.

(** C3, amended.  [prepare_selected] swaps the selected and the unselected
    set when, after every instance and the wipe tower have been classified,
    the selected set is empty.  With N printable instances and an empty
    selection, the selected set has N items when there is no wipe tower;
    an unselected wipe tower is swapped in with the instances, N + 1 items;
    and a wipe tower that is itself the selection is the only selected
    item. *)
Theorem empty_selection_arranges_everything (plater : Plater) (job : ArrangeJob) :
  prepare_selected plater = Ok job →
  ∃ classified,
    classify_selected plater = Ok classified ∧
    (m_selected classified = [] →
     m_selected job = m_unselected classified ∧ m_unselected job = []) ∧
    (selection_content plater = [] →
     length (m_selected job) =
     if has_wipe_tower plater
     then (if selection_is_wipe_tower plater
           then 1%nat
           else S (count_printable (model_objects plater)))
     else count_printable (model_objects plater)).
Proof.
  unfold prepare_selected. cbn zeta.
  intros (classified & Hclass & Hjob)%bind_Ok_inv.
  injection Hjob as <-. exists classified. split; [done|]. split.
  - intros Hempty. unfold swap_if_empty. rewrite Hempty. by cbn.
  - intros Hcontent. cbn [m_selected].
    unfold classify_selected in Hclass.
    rewrite Hcontent, select_objects_nil in Hclass.
    apply bind_Ok_inv in Hclass as (obj_sel & [= <-] & Hclass).
    apply bind_Ok_inv in Hclass as (looped & Hloop & [= <-]).
    apply classify_instances_unselected in Hloop as [Hsel Hunsel].
    cbn in Hsel, Hunsel.
    destruct (has_wipe_tower plater); [destruct (selection_is_wipe_tower plater)|].
    + unfold swap_if_empty, push_selected. cbn. by rewrite Hsel.
    + unfold swap_if_empty, push_unselected. cbn. rewrite Hsel. cbn.
      rewrite length_app, Hunsel. cbn. lia.
    + unfold swap_if_empty. rewrite Hsel. cbn. done.
Qed.

(** The stride removal is exact on whole numbers below [2 ^ 53]. *)
Lemma remove_stride_exact (s : Z) (stride : Q) (p : ArrangePolygon) :
  (stride == inject_Z s)%Q →
  - 2 ^ 53 < (translation p).1 < 2 ^ 53 →
  - 2 ^ 53 < bed_idx p < 2 ^ 53 →
  - 2 ^ 53 < bed_idx p * s < 2 ^ 53 →
  - 2 ^ 53 < (translation p).1 - bed_idx p * s < 2 ^ 53 →
  (translation (remove_stride stride p)).1 = (translation p).1 - bed_idx p * s.
Proof.
  intros Hs Hx Hb Hbs Hd. cbn.
  rewrite <- (coord_of_double_inject_Z (_ - _ * s)).
  apply coord_of_double_compat. unfold double_sub, double_mul.
  assert (round_double (double_of_int (bed_idx p) * stride)
          == inject_Z (bed_idx p * s))%Q as Hproduct.
  { etransitivity; [apply round_double_comp|by apply round_double_Z].
    by rewrite double_of_int_exact, Hs, <- inject_Z_mult. }
  etransitivity; [apply round_double_comp|by apply round_double_Z].
  rewrite Hproduct, double_of_int_exact by done.
  unfold Qminus. by rewrite <- inject_Z_opp, <- inject_Z_plus.
Qed.

(** C5, amended.  The stride is the double [(1. + gap) * bed width]
    divided by [SCALING_FACTOR], each operation rounded to a double.  Every
    item that [prepare_selected] leaves in the unselected set has the X of
    its translation replaced by the double [X - bed index * stride],
    truncated into the integer coordinate.  When the stride is a whole
    number of units and the numbers stay below [2 ^ 53], exactly
    [bed index * stride] is taken off, and an item on bed 0 keeps its X.
    Nothing else of the item changes, and the selected and the unprintable
    items are left as they are. *)
Theorem fixed_items_lose_their_stride (plater : Plater) (job : ArrangeJob) :
  prepare_selected plater = Ok job →
  let stride := bed_stride plater in
  stride = double_div (double_mul (double_add 1 LOGICAL_BED_GAP)
                         (bed_width plater)) SCALING_FACTOR ∧
  ∃ classified,
    classify_selected plater = Ok classified ∧
    m_selected job = m_selected (swap_if_empty classified) ∧
    m_unprintable job = m_unprintable (swap_if_empty classified) ∧
    Forall2 (λ before after,
        (translation after).1
        = coord_of_double
            (double_sub (double_of_int (translation before).1)
               (double_mul (double_of_int (bed_idx before)) stride)) ∧
        (bed_idx before = 0 →
         - 2 ^ 53 < (translation before).1 < 2 ^ 53 →
         (translation after).1 = (translation before).1) ∧
        (∀ s : Z, (stride == inject_Z s)%Q →
                  - 2 ^ 53 < (translation before).1 < 2 ^ 53 →
                  - 2 ^ 53 < bed_idx before < 2 ^ 53 →
                  - 2 ^ 53 < bed_idx before * s < 2 ^ 53 →
                  - 2 ^ 53 < (translation before).1 - bed_idx before * s
                    < 2 ^ 53 →
                  (translation after).1
                  = (translation before).1 - bed_idx before * s) ∧
        (translation after).2 = (translation before).2 ∧
        bed_idx after = bed_idx before ∧
        poly after = poly before ∧
        rotation after = rotation before ∧
        priority after = priority before ∧
        setter after = setter before)
      (m_unselected (swap_if_empty classified)) (m_unselected job).
Proof.
  unfold prepare_selected. cbn zeta.
  intros (classified & Hclass & Hjob)%bind_Ok_inv.
  injection Hjob as <-. split; [reflexivity|].
  exists classified. split; [done|]. split; [done|]. split; [done|].
  cbn [m_unselected].
  apply Forall2_fmap_r, Forall_Forall2_diag, Forall_forall.
  intros p _. split; [done|]. split; [|split; [|done]].
  - intros Hb Hx. cbn.
    etransitivity; [|apply (coord_of_double_inject_Z (translation p).1)].
    apply coord_of_double_compat. rewrite Hb.
    unfold double_sub, double_mul.
    rewrite (round_double_zero (double_of_int 0 * _)) by apply Qmult_0_l.
    etransitivity; [apply round_double_comp|by apply round_double_Z].
    rewrite double_of_int_exact by done. unfold Qminus.
    apply Qplus_0_r.
  - intros s Hs Hx Hb Hbs Hd. by apply remove_stride_exact.
Qed.

End Classification.

(** ** [prepare_selected] returns *)

Section PrepareReturns.
Import ArrangeJob.
Context `{ArrangeLib}.

(** A loop whose steps succeed on the elements it meets, and keep an
    invariant, succeeds and keeps the invariant. *)
Lemma for_each_succeeds {A St : Type} (body : St → nat → A → result St)
    (I : St → Prop) (xs : list A) :
  ∀ i s,
    I s →
    (∀ s k x, I s → xs !! k = Some x →
              ∃ s', body s (i + k)%nat x = Ok s' ∧ I s') →
    ∃ s', for_each body i xs s = Ok s' ∧ I s'.
Proof.
  induction xs as [|x xs IH]; intros i s Hs Hstep; [by exists s|].
  destruct (Hstep s 0%nat x Hs eq_refl) as (s1 & Hbody & Hs1).
  rewrite Nat.add_0_r in Hbody. cbn [for_each]. rewrite Hbody.
  apply (IH (S i) s1 Hs1).
  intros s2 k y Hs2 Hy.
  destruct (Hstep s2 (S k) y Hs2 Hy) as (s3 & Hb & Hs3).
  exists s3. by rewrite Nat.add_succ_comm.
Qed.

(** The inflation succeeds when the brim is unified or the offset always
    comes back as one contour. *)
Lemma add_brim_succeeds (ap : ArrangePolygon) (config : ModelConfigObject)
    (plater : Plater) :
  complete_objects_one_brim (plater_config plater) = true
  ∨ (∀ p delta, length (offset_ex p delta) = 1%nat) →
  ∃ ap', add_brim ap config plater = Ok ap'.
Proof.
  intros Hbrim. rewrite add_brim_unfold. cbn zeta.
  destruct Hbrim as [->|Hone]; [by eexists|].
  destruct (complete_objects_one_brim _); [by eexists|].
  destruct (bool_decide _); [|by eexists].
  match goal with |- context [offset_ex ?p ?d] =>
    specialize (Hone p d); destruct (offset_ex p d) as [|b [|? ?]]
  end; try discriminate Hone.
  rewrite orb_true_r. by eexists.
Qed.

(** [prepare_selected] returns a job when the inflation succeeds and the
    selection names existing objects and instances only. *)
Lemma prepare_selected_succeeds (plater : Plater) :
  complete_objects_one_brim (plater_config plater) = true
  ∨ (∀ p delta, length (offset_ex p delta) = 1%nat) →
  Forall (λ s : Z * list Z,
      0 ≤ s.1 ∧
      ∀ mo, model_objects plater !! Z.to_nat s.1 = Some mo →
            Forall (λ id, 0 ≤ id < Z.of_nat (length (instances mo))) s.2)
    (selection_content plater) →
  ∃ job, prepare_selected plater = Ok job.
Proof.
  intros Hbrim Hsel.
  set (valid (obj_sel : list (option (list Z))) :=
         ∀ oidx l mo,
           obj_sel !! oidx = Some (Some l) →
           model_objects plater !! oidx = Some mo →
           Forall (λ id, 0 ≤ id < Z.of_nat (length (instances mo))) l).
  unfold prepare_selected, classify_selected.
  destruct (for_each_succeeds
              (λ (obj_sel : list (option (list Z))) (_ : nat) (s : Z * list Z),
                 if bool_decide (s.1 < Z.of_nat (length (model_objects plater)))
                 then if bool_decide (0 ≤ s.1)
                      then Ok (<[Z.to_nat s.1 := Some s.2]> obj_sel)
                      else Fail UndefinedBehaviour
                 else Ok obj_sel)
              valid (selection_content plater) 0%nat
              (replicate (length (model_objects plater)) None))
    as (obj_sel & Hobj & Hvalid).
  { intros oidx l mo Hl _. by apply lookup_replicate in Hl as [[=] _]. }
  { intros obj_sel k s Hv Hk.
    apply (proj1 (Forall_lookup _ _) Hsel) in Hk as [Hnn Hids].
    destruct (bool_decide (s.1 < _)); [|by exists obj_sel].
    rewrite bool_decide_eq_true_2 by done. eexists. split; [done|].
    intros oidx l mo Hl Hmo.
    destruct (decide (oidx = Z.to_nat s.1)) as [->|Hne].
    - apply list_lookup_insert_Some in Hl as [(_ & [= <-] & _)|[? _]]; [|done].
      by apply Hids.
    - rewrite list_lookup_insert_ne in Hl by done. by eapply Hv. }
  unfold select_objects. rewrite Hobj, bind_Ok. cbv beta.
  destruct (for_each_succeeds
              (λ job oidx mo,
                 let instlist := default None (obj_sel !! oidx) in
                 inst_sel ← select_instances instlist (length (instances mo));
                 for_each (λ job i mi,
                   let ap := get_arrange_poly plater (ModelInstanceRef oidx i) in
                   ap ← add_brim ap (config mo) plater;
                   Ok (if printable mi
                       then (if default false (inst_sel !! i)
                             then push_selected ap job
                             else push_unselected ap job)
                       else push_unprintable ap job))
                   0%nat (instances mo) job)
              (λ _, True) (model_objects plater) 0%nat clear_input)
    as (job & Hjob & _);
    [done| |cbv zeta in Hjob; rewrite Hjob, !bind_Ok; by eexists].
  intros job oidx mo _ Hmo. cbn zeta. rewrite Nat.add_0_l.
  assert (∃ inst_sel,
            select_instances (default None (obj_sel !! oidx))
              (length (instances mo)) = Ok inst_sel) as (inst_sel & ->).
  { unfold select_instances.
    destruct (obj_sel !! oidx) as [[l|]|] eqn:Hl; cbn [default]; try by eexists.
    destruct (for_each_succeeds
                (λ (inst_sel : list bool) (_ : nat) (inst_id : Z),
                   if bool_decide (0 ≤ inst_id < Z.of_nat (length (instances mo)))
                   then Ok (<[Z.to_nat inst_id := true]> inst_sel)
                   else Fail UndefinedBehaviour)
                (λ _, True) l 0%nat (replicate (length (instances mo)) false))
      as (inst_sel & Hinst & _); [done| |by eexists].
    intros inst_sel k inst_id _ Hk.
    apply (proj1 (Forall_lookup _ _) (Hvalid oidx l mo Hl Hmo)) in Hk.
    rewrite bool_decide_eq_true_2 by done. by eexists. }
  rewrite bind_Ok. cbv beta.
  apply for_each_succeeds; [done|].
  intros job1 i mi _ _.
  destruct (add_brim_succeeds (get_arrange_poly plater (ModelInstanceRef oidx (0 + i)))
              (config mo) plater Hbrim) as (ap & ->).
  by eexists.
Qed.

End PrepareReturns.

Section ClassificationExamples.
Import ArrangeJob.

(** C3, as stated, fails where there is a wipe tower.  Three printable
    instances, nothing selected: with an unselected wipe tower the selected
    set ends with four items, and with the wipe tower as the selection it
    ends with one. *)
Lemma empty_selection_with_wipe_tower :
  let unselected_tower := Sample.plater Sample.three_instances [] false true true in
  let selected_tower := Sample.plater Sample.three_instances [] true true true in
  selection_content unselected_tower = [] ∧
  count_printable (model_objects unselected_tower) = 3%nat ∧
  (∃ job, prepare_selected (H := Sample.unit_lib) unselected_tower = Ok job ∧
          length (m_selected job) = 4%nat) ∧
  selection_content selected_tower = [] ∧
  count_printable (model_objects selected_tower) = 3%nat ∧
  (∃ job, prepare_selected (H := Sample.unit_lib) selected_tower = Ok job ∧
          length (m_selected job) = 1%nat).
Proof.
  intros unselected_tower selected_tower.
  split; [reflexivity|]. split; [reflexivity|].
  split; [eexists; split; [vm_compute; reflexivity|reflexivity]|].
  split; [reflexivity|]. split; [reflexivity|].
  eexists. split; [vm_compute; reflexivity|reflexivity].
Qed.

(** Three printable instances, nothing selected, no wipe tower: all three
    are selected. *)
Lemma empty_selection_arranges_everything_witness :
  let plater := Sample.plater Sample.three_instances [] false false false in
  ∃ job,
    prepare_selected (H := Sample.unit_lib) plater = Ok job ∧
    m_unselected job = [] ∧
    length (m_selected job) = 3%nat.
Proof.
  intros plater.
  destruct (prepare_selected_succeeds (H := Sample.unit_lib) plater)
    as (job & Hjob).
  { right. reflexivity. }
  { constructor. }
  exists job. split; [exact Hjob|].
  destruct (empty_selection_arranges_everything (H := Sample.unit_lib)
              plater job Hjob) as (classified & Hclass & Hswap & Hcount).
  split; [|by apply Hcount].
  apply Hswap. vm_compute in Hclass. by injection Hclass as <-.
Defined.

(** The first of three instances is selected; the other two sit on beds 1
    and 2.  With a bed width of 200 and a gap of 0.25 the stride is 250:
    the items at X = 310 and X = 560 are handed to the engine at X = 60,
    250 and 500 less.  With a gap of 0.1 the stride is
    220.00000000000003: the items at X = 280 and X = 500 are handed over at
    X = 59. *)
Lemma fixed_items_lose_their_stride_witness :
  let plater := Sample.plater Sample.three_instances [(0, [0])] false false false in
  ((bed_stride (H := Sample.quarter_lib) plater == 250)%Q ∧
   ∃ job classified,
     prepare_selected (H := Sample.quarter_lib) plater = Ok job ∧
     classify_selected (H := Sample.quarter_lib) plater = Ok classified ∧
     (λ p, ((translation p).1, bed_idx p)) <$> m_unselected classified
     = [(310, 1); (560, 2)] ∧
     (λ p, ((translation p).1, bed_idx p)) <$> m_unselected job
     = [(60, 1); (60, 2)]) ∧
  ((bed_stride (H := Sample.unit_lib) plater
    == 220 + (1 # 35184372088832))%Q ∧
   ∃ job classified,
     prepare_selected (H := Sample.unit_lib) plater = Ok job ∧
     classify_selected (H := Sample.unit_lib) plater = Ok classified ∧
     (λ p, ((translation p).1, bed_idx p)) <$> m_unselected classified
     = [(280, 1); (500, 2)] ∧
     (λ p, ((translation p).1, bed_idx p)) <$> m_unselected job
     = [(59, 1); (59, 2)]).
Proof.
  intros plater. split.
  - split; [vm_compute; reflexivity|].
    destruct (prepare_selected_succeeds (H := Sample.quarter_lib) plater)
      as (job & Hjob).
    { right. reflexivity. }
    { constructor; [|constructor]. split; [done|].
      intros mo [= <-]. constructor; [cbn; lia|constructor]. }
    destruct (fixed_items_lose_their_stride (H := Sample.quarter_lib)
                plater job Hjob) as (_ & classified & Hclass & _ & _ & Hall).
    exists job, classified. split; [exact Hjob|]. split; [exact Hclass|].
    vm_compute in Hclass. injection Hclass as <-. split; [reflexivity|].
    cbn [swap_if_empty m_selected m_unselected] in Hall.
    apply Forall2_cons_inv_l in Hall as (q1 & rest1 & H1 & Hall & ->).
    apply Forall2_cons_inv_l in Hall as (q2 & rest2 & H2 & Hall & ->).
    apply Forall2_nil_inv_l in Hall as ->.
    destruct H1 as (_ & _ & H1 & _ & Hb1 & _), H2 as (_ & _ & H2 & _ & Hb2 & _).
    cbn [fmap list_fmap].
    rewrite (H1 250), (H2 250), Hb1, Hb2
      by first [vm_compute; reflexivity | cbn; lia].
    reflexivity.
  - split; [vm_compute; reflexivity|].
    destruct (prepare_selected_succeeds (H := Sample.unit_lib) plater)
      as (job & Hjob).
    { right. reflexivity. }
    { constructor; [|constructor]. split; [done|].
      intros mo [= <-]. constructor; [cbn; lia|constructor]. }
    destruct (fixed_items_lose_their_stride (H := Sample.unit_lib)
                plater job Hjob) as (_ & classified & Hclass & _ & _ & Hall).
    exists job, classified. split; [exact Hjob|]. split; [exact Hclass|].
    vm_compute in Hclass. injection Hclass as <-. split; [reflexivity|].
    cbn [swap_if_empty m_selected m_unselected] in Hall.
    apply Forall2_cons_inv_l in Hall as (q1 & rest1 & H1 & Hall & ->).
    apply Forall2_cons_inv_l in Hall as (q2 & rest2 & H2 & Hall & ->).
    apply Forall2_nil_inv_l in Hall as ->.
    destruct H1 as (H1 & _ & _ & _ & Hb1 & _), H2 as (H2 & _ & _ & _ & Hb2 & _).
    cbn [fmap list_fmap]. rewrite H1, H2, Hb1, Hb2. vm_compute. reflexivity.
Defined.

(** C5, as stated, fails on its own example.  For a bed width of 200 and
    the gap 0.1 the stride is not 220: the double sum [1. + 0.1] lies above
    1.1, and the product with 200 is 220.00000000000003.  The item of bed 2
    at X = 500 is handed over at X = 59: its X is reduced by 441, not by
    440. *)
Lemma stride_example_is_rounded :
  let plater := Sample.plater Sample.three_instances [(0, [0])] false false false in
  LOGICAL_BED_GAP (ArrangeLib := Sample.unit_lib) = round_double (1 # 10) ∧
  SCALING_FACTOR (ArrangeLib := Sample.unit_lib) = 1%Q ∧
  bed_width plater = 200%Q ∧
  ¬ (bed_stride (H := Sample.unit_lib) plater == 220)%Q ∧
  (bed_stride (H := Sample.unit_lib) plater == 220 + (1 # 35184372088832))%Q ∧
  ∃ job classified,
    prepare_selected (H := Sample.unit_lib) plater = Ok job ∧
    classify_selected (H := Sample.unit_lib) plater = Ok classified ∧
    (λ p, ((translation p).1, bed_idx p)) <$> m_unselected classified
    = [(280, 1); (500, 2)] ∧
    (λ p, ((translation p).1, bed_idx p)) <$> m_unselected job
    = [(59, 1); (59, 2)].
Proof.
  intros plater. split; [reflexivity|]. split; [reflexivity|].
  split; [reflexivity|]. split; [vm_compute; discriminate|].
  split; [vm_compute; reflexivity|].
  eexists _, _. split; [vm_compute; reflexivity|].
  split; [vm_compute; reflexivity|]. split; reflexivity.
Qed.

End ClassificationExamples.

(** * Further facts about PrintRegion.cpp *)

Section PrintRegionFurther.
Import PrintRegion.

Lemma get_at_elem (values : list Q) (i : Z) (v : Q) :
  get_at values i = Ok v → v ∈ values.
Proof.
  destruct values as [|front rest]; [discriminate|].
  unfold get_at. case_bool_decide as Hi; intros [= <-]; [|by left].
  destruct ((front :: rest) !! Z.to_nat i) as [v|] eqn:Hv; cbn.
  - by eapply list_elem_of_lookup_2.
  - by left.
Qed.

Lemma to_size_t_small (z : Z) : 0 ≤ z < 2 ^ 64 → to_size_t z = z.
Proof. intros Hz. unfold to_size_t. by apply Z.mod_small. Qed.

Lemma to_size_t_negative (z : Z) : - 2 ^ 64 ≤ z < 0 → to_size_t z = z + 2 ^ 64.
Proof.
  intros Hz. unfold to_size_t.
  rewrite <- (Z.mod_add z 1 (2 ^ 64)) by lia.
  rewrite Z.mul_1_l. apply Z.mod_small. lia.
Qed.

(** The nozzle read for a 1-based extruder identifier given as an [int]:
    its own when the identifier names a nozzle, the first otherwise. *)
Lemma get_at_extruder_id (front : Q) (rest : list Q) (id : Z) :
  Z.of_nat (length (front :: rest)) < 2 ^ 63 →
  - 2 ^ 63 < id < 2 ^ 63 →
  ∃ d, get_at (front :: rest) (to_size_t (id - 1)) = Ok d ∧
       (1 ≤ id ≤ Z.of_nat (length (front :: rest)) →
        (front :: rest) !! Z.to_nat (id - 1) = Some d) ∧
       (id ≤ 0 ∨ Z.of_nat (length (front :: rest)) < id → d = front).
Proof.
  intros Hlen Hid. unfold get_at.
  destruct (Z.lt_ge_cases (id - 1) 0) as [Hneg|Hnn].
  - rewrite to_size_t_negative by lia.
    rewrite bool_decide_eq_false_2 by lia.
    exists front. split; [done|]. split; [lia|done].
  - rewrite to_size_t_small by lia. case_bool_decide as Hin.
    + destruct (lookup_lt_is_Some_2 (front :: rest) (Z.to_nat (id - 1)))
        as [d Hd]; [lia|].
      exists d. rewrite Hd. split; [done|]. split; [done|]. lia.
    + exists front. split; [done|]. split; [lia|done].
Qed.

(** X1.  The nozzle diameter that [flow] hands to the flow constructor is
    that of the extruder of the role: for the 1-based identifier [e] of a
    configured nozzle it is the entry [e - 1] of the nozzle diameters, and
    for identifier 0 or one beyond the last nozzle it is the first entry. *)
Theorem flow_nozzle_of_extruder `{FlowLib} (r : PrintRegion) (role : FlowRole)
    (layer_height : Q) (bridge first_layer : bool) (w : Q)
    (obj : PrintObjectConfig) (e : Z) (f : Flow) :
  Z.of_nat (length (nozzle_diameter (m_print_config r))) < 2 ^ 63 →
  extruder r role obj = Ok e →
  flow r role layer_height bridge first_layer w obj = Ok f →
  ∃ d config_width ratio,
    f = new_from_config_width role config_width (to_float d)
          (to_float layer_height) ratio ∧
    (1 ≤ e ≤ Z.of_nat (length (nozzle_diameter (m_print_config r))) →
     nozzle_diameter (m_print_config r) !! Z.to_nat (e - 1) = Some d) ∧
    (e = 0 ∨ Z.of_nat (length (nozzle_diameter (m_print_config r))) < e →
     head (nozzle_diameter (m_print_config r)) = Some d).
Proof.
  intros Hlen He Hflow.
  assert (0 ≤ e < 2 ^ 16) as Hrange.
  { unfold extruder in He.
    destruct role; cbn in He; try discriminate He; injection He as <-;
      apply Z.mod_pos_bound; lia. }
  unfold flow in Hflow. rewrite He in Hflow.
  destruct (nozzle_diameter (m_print_config r)) as [|front rest] eqn:Hnd.
  { destruct (if negb _ then _ else _); discriminate Hflow. }
  destruct (get_at_extruder_id front rest e) as (d & Hd & Hin & Hout);
    [done|lia|].
  destruct (if negb _ then _ else _) as [cw|]; [|discriminate Hflow].
  rewrite !bind_Ok in Hflow. unfold nozzle_index in Hflow.
  rewrite Hd, bind_Ok in Hflow. injection Hflow as <-.
  eexists d, _, _. split; [reflexivity|]. split; [done|].
  intros Hcase. cbn. f_equal. symmetry. apply Hout. lia.
Qed.

(** The infill of the sample region uses extruder 2 and the second nozzle;
    the solid infill has extruder 0 and gets the first. *)
Lemma flow_nozzle_of_extruder_witness :
  ∃ d config_width ratio,
    flow (H := Sample.flow_lib) Sample.region frInfill (1 # 5) false false
      (-1) Sample.object
    = Ok (new_from_config_width (FlowLib := Sample.flow_lib) frInfill
            config_width d (1 # 5) ratio) ∧
    nozzle_diameter (m_print_config Sample.region) !! 1%nat = Some d.
Proof.
  destruct (flow (H := Sample.flow_lib) Sample.region frInfill (1 # 5)
              false false (-1) Sample.object) as [f|] eqn:Hflow;
    [|vm_compute in Hflow; discriminate Hflow].
  destruct (flow_nozzle_of_extruder (H := Sample.flow_lib) Sample.region
              frInfill (1 # 5) false false (-1) Sample.object 2 f)
    as (d & cw & ratio & -> & Hin & _);
    [cbn; lia|reflexivity|exact Hflow|].
  exists d, cw, ratio. split; [reflexivity|]. apply Hin. cbn. lia.
Defined.

(** X2.  A custom width given to [flow] wins over the first-layer width and
    over the width of the role, and is taken as an absolute value; this
    also serves the two support roles, for which [flow] has no width of its
    own.  A custom width of 0 stands for the extrusion width of the
    object. *)
Theorem flow_custom_width `{FlowLib} (r : PrintRegion) (role : FlowRole)
    (layer_height : Q) (bridge first_layer : bool) (w : Q)
    (obj : PrintObjectConfig) (e : Z) (d : Q) :
  ¬ (w == -1)%Q →
  extruder r role obj = Ok e →
  get_at (nozzle_diameter (m_print_config r)) (nozzle_index e) = Ok d →
  flow r role layer_height bridge first_layer w obj
  = Ok (new_from_config_width role
          (if Qeq_bool w 0 then extrusion_width obj
           else {| value := w; percent := false |})
          (to_float d) (to_float layer_height)
          (if bridge
           then to_float (percent_get_abs_value (bridge_flow_ratio (m_config r)) 1)
           else 0%Q)).
Proof.
  intros Hw He Hd. unfold flow.
  assert (Qeq_bool w (-1) = false) as ->.
  { apply not_true_iff_false. by rewrite Qeq_bool_iff. }
  cbn [negb]. rewrite He, !bind_Ok, Hd. reflexivity.
Qed.

(** A custom width of 1/2 for the support material on the first layer. *)
Lemma flow_custom_width_witness :
  flow (H := Sample.flow_lib) Sample.region frSupportMaterial (1 # 5)
    false true (1 # 2) Sample.object
  = Ok (frSupportMaterial, Sample.absolute (1 # 2), 2 # 5, 1 # 5, 0%Q).
Proof.
  apply (flow_custom_width (H := Sample.flow_lib) Sample.region
           frSupportMaterial (1 # 5) false true (1 # 2) Sample.object 0);
    [discriminate|reflexivity|reflexivity].
Defined.

(** X3.  [nozzle_dmr_avg] returns whenever a nozzle diameter is configured.
    Its result is the double mean [(p + i + s) / 3.] of the nozzle
    diameters of the perimeter, infill and solid infill extruders, where
    an extruder identifier that names no nozzle (0, negative, or beyond the
    last) stands for the first nozzle.  The mean of diameters that are not
    negative is not negative. *)
Theorem nozzle_dmr_avg_mean (r : PrintRegion) (print_config : PrintConfig)
    (front : Q) (rest : list Q) :
  let nd := nozzle_diameter print_config in
  let of_id (id : Z) (d : Q) :=
    (1 ≤ id ≤ Z.of_nat (length nd) → nd !! Z.to_nat (id - 1) = Some d) ∧
    (id ≤ 0 ∨ Z.of_nat (length nd) < id → d = front) in
  nd = front :: rest →
  Z.of_nat (length nd) < 2 ^ 63 →
  - 2 ^ 31 < perimeter_extruder (m_config r) < 2 ^ 31 →
  - 2 ^ 31 < infill_extruder (m_config r) < 2 ^ 31 →
  - 2 ^ 31 < solid_infill_extruder (m_config r) < 2 ^ 31 →
  ∃ perimeter infill solid_infill,
    of_id (perimeter_extruder (m_config r)) perimeter ∧
    of_id (infill_extruder (m_config r)) infill ∧
    of_id (solid_infill_extruder (m_config r)) solid_infill ∧
    nozzle_dmr_avg r print_config
    = Ok (double_div (double_add (double_add perimeter infill) solid_infill) 3) ∧
    ((∀ d, d ∈ nd → (0 <= d)%Q) →
     (0 <= double_div (double_add (double_add perimeter infill) solid_infill) 3)%Q).
Proof.
  intros nd of_id Hnd Hlen Hp Hi Hs. unfold nozzle_dmr_avg. fold nd.
  subst of_id. cbv beta. rewrite Hnd in *.
  destruct (get_at_extruder_id front rest (perimeter_extruder (m_config r)))
    as (a & Ha & Ha_in & Ha_out); [done|lia|].
  destruct (get_at_extruder_id front rest (infill_extruder (m_config r)))
    as (b & Hb & Hb_in & Hb_out); [done|lia|].
  destruct (get_at_extruder_id front rest (solid_infill_extruder (m_config r)))
    as (c & Hc & Hc_in & Hc_out); [done|lia|].
  unfold nozzle_index_of_id. rewrite Ha, Hb, Hc.
  exists a, b, c. split; [done|]. split; [done|]. split; [done|].
  split; [reflexivity|].
  intros Hnonneg.
  pose proof (Hnonneg a (get_at_elem _ _ _ Ha)) as Ha0.
  pose proof (Hnonneg b (get_at_elem _ _ _ Hb)) as Hb0.
  pose proof (Hnonneg c (get_at_elem _ _ _ Hc)) as Hc0.
  apply double_div_nonneg; [reflexivity|].
  apply round_double_nonneg.
  assert (0 <= double_add a b)%Q as Hab; [apply round_double_nonneg|]; lra.
Qed.

(** The sample region prints perimeters with extruder 1, infill with
    extruder 2 and solid infill with extruder 0.  With nozzles of 0.4 and
    0.6 the mean is that of 0.4, 0.6 and 0.4.  With the one nozzle 0.4 the
    mean of three times 0.4 is the double above 0.4. *)
Lemma nozzle_dmr_avg_mean_witness :
  let small := round_double (2 # 5) in
  let large := round_double (3 # 5) in
  nozzle_dmr_avg Sample.region Sample.double_nozzles
  = Ok (double_div (double_add (double_add small large) small) 3) ∧
  (∃ avg, nozzle_dmr_avg Sample.region Sample.single_nozzle = Ok avg ∧
          (avg == small + (1 # 18014398509481984))%Q).
Proof.
  intros small large. split.
  - destruct (nozzle_dmr_avg_mean Sample.region Sample.double_nozzles
                small [large])
      as (a & b & c & [Ha _] & [Hb _] & [_ Hc] & -> & _);
      [reflexivity|cbn; lia..|].
    specialize (Ha ltac:(cbn; lia)). specialize (Hb ltac:(cbn; lia)).
    specialize (Hc ltac:(cbn; lia)).
    injection Ha as <-. injection Hb as <-. by rewrite Hc.
  - destruct (nozzle_dmr_avg_mean Sample.region Sample.single_nozzle
                small [])
      as (a & b & c & [Ha _] & [_ Hb] & [_ Hc] & -> & _);
      [reflexivity|cbn; lia..|].
    specialize (Ha ltac:(cbn; lia)). specialize (Hb ltac:(cbn; lia)).
    specialize (Hc ltac:(cbn; lia)).
    injection Ha as <-. rewrite Hb, Hc.
    eexists. split; [reflexivity|]. vm_compute. reflexivity.
Defined.

End PrintRegionFurther.

(** ** The extruders an object prints with *)

Section PrintingExtruders.
Import PrintRegion.

Lemma int_of_size_small (n : nat) :
  Z.of_nat n < 2 ^ 31 → int_of_size n = Z.of_nat n.
Proof.
  intros Hn. unfold int_of_size.
  rewrite Z.mod_small by lia. lia.
Qed.

Lemma emplace_extruder_union (n : Z) (s : gset Z) (id : Z) :
  emplace_extruder n s id = emplace_extruder n ∅ id ∪ s.
Proof.
  unfold emplace_extruder. cbv zeta. by rewrite union_empty_r_L.
Qed.

Lemma collect_static_union (print_config : PrintConfig) (brim : Q)
    (region_config : PrintRegionConfig) (features : RegionFeatures)
    (s : gset Z) :
  collect_object_printing_extruders_static print_config brim region_config
    features s
  = collect_object_printing_extruders_static print_config brim region_config
      features ∅ ∪ s.
Proof.
  unfold collect_object_printing_extruders_static. cbv zeta.
  destruct (_ || Qgt_bool brim 0), (Qgt_bool (fill_density features) 0),
    (bool_decide (top_solid_layers features > 0) || _);
    rewrite ?(emplace_extruder_union _ (emplace_extruder _ _ _));
    rewrite ?(emplace_extruder_union _ s);
    apply set_eq; intros x; rewrite ?elem_of_union, ?elem_of_empty; tauto.
Qed.

(** What one [emplace_extruder] may add. *)
Lemma emplace_extruder_elem (n : Z) (s : gset Z) (id x : Z) :
  x ∈ emplace_extruder n s id →
  x ∈ s ∨ (0 ≤ x ∧ (x < n ∨ x = 0)).
Proof.
  unfold emplace_extruder. cbv zeta.
  intros [->%elem_of_singleton|Hx]%elem_of_union; [|by left]. right.
  case_bool_decide as Hi; [change (to_uint16 0) with 0; lia|].
  unfold to_uint16.
  pose proof (Z.mod_pos_bound (Z.max 0 (id - 1)) (2 ^ 16)).
  pose proof (Z.mod_le (Z.max 0 (id - 1)) (2 ^ 16)). lia.
Qed.

(** X4.  The static [collect_object_printing_extruders] only adds to the
    set it is given.  What it adds is a 0-based index below the number of
    nozzle diameters, or 0: with at least one nozzle configured, a set of
    valid extruder indices stays one.  When the region prints no
    perimeters, no brim, no infill and no solid layers, the set is
    returned as it was. *)
Theorem collect_static_keeps_valid (print_config : PrintConfig) (brim : Q)
    (region_config : PrintRegionConfig) (features : RegionFeatures)
    (s : gset Z) :
  let n := Z.of_nat (length (nozzle_diameter print_config)) in
  let out :=
    collect_object_printing_extruders_static print_config brim region_config
      features s in
  n < 2 ^ 31 →
  s ⊆ out ∧
  (∀ x, x ∈ out → x ∈ s ∨ (0 ≤ x ∧ (x < n ∨ x = 0))) ∧
  (1 ≤ n → (∀ x, x ∈ s → 0 ≤ x < n) → ∀ x, x ∈ out → 0 ≤ x < n) ∧
  (perimeters features ≤ 0 → (brim <= 0)%Q → (fill_density features <= 0)%Q →
   top_solid_layers features ≤ 0 → bottom_solid_layers features ≤ 0 →
   out = s).
Proof.
  intros n out Hn.
  assert (Hadd : ∀ x, x ∈ out → x ∈ s ∨ (0 ≤ x ∧ (x < n ∨ x = 0))).
  { intros x. unfold out, collect_object_printing_extruders_static. cbv zeta.
    rewrite int_of_size_small by done. fold n.
    destruct (_ || Qgt_bool brim 0), (Qgt_bool (fill_density features) 0),
      (bool_decide (top_solid_layers features > 0) || _);
      intros Hx;
      repeat match type of Hx with
        | _ ∈ emplace_extruder _ _ _ =>
            apply emplace_extruder_elem in Hx as [Hx|Hx]; [|by right]
        end;
      by left. }
  split; [|split; [done|split]].
  - unfold out. rewrite collect_static_union. apply union_subseteq_r.
  - intros Hpos Hs x Hx. destruct (Hadd x Hx) as [Hin|Hnew]; [by apply Hs|lia].
  - intros Hp Hb Hf Ht Hbt.
    unfold out, collect_object_printing_extruders_static. cbv zeta.
    rewrite (bool_decide_eq_false_2 (perimeters features > 0)) by lia.
    rewrite (proj2 (Qgt_bool_false brim 0) Hb).
    rewrite (proj2 (Qgt_bool_false (fill_density features) 0) Hf).
    rewrite (bool_decide_eq_false_2 (top_solid_layers features > 0)) by lia.
    rewrite (bool_decide_eq_false_2 (bottom_solid_layers features > 0)) by lia.
    done.
Qed.

(** The sample region prints with extruders 1, 2 and 0: the indices 0 and
    1, which two nozzles allow. *)
Lemma collect_static_keeps_valid_witness :
  let out :=
    collect_object_printing_extruders_static (m_print_config Sample.region) 0
      (m_config Sample.region) Sample.all_features {[1]} in
  {[1]} ⊆ out ∧ ∀ x, x ∈ out → 0 ≤ x < 2.
Proof.
  intros out.
  destruct (collect_static_keeps_valid (m_print_config Sample.region) 0
              (m_config Sample.region) Sample.all_features {[1]})
    as (Hsub & _ & Hvalid & _); [cbn; lia|].
  split; [exact Hsub|].
  apply Hvalid; [by vm_compute|].
  intros x ->%elem_of_singleton. by vm_compute.
Defined.

(** X5.  With at most 65536 nozzles, [emplace_extruder] inserts the index
    [id - 1] for a 1-based identifier [id] of an existing extruder and the
    index 0 for every other identifier: the identifiers 0 and 1 stand for
    the same extruder, and so does every identifier beyond the last. *)
Theorem emplace_extruder_index (n : Z) (s : gset Z) (id : Z) :
  0 ≤ n ≤ 2 ^ 16 →
  emplace_extruder n s id
  = {[ if bool_decide (1 ≤ id ≤ n) then id - 1 else 0 ]} ∪ s.
Proof.
  intros Hn. unfold emplace_extruder. cbv zeta. f_equal. f_equal.
  case_bool_decide as Hi; case_bool_decide as Hid.
  - lia.
  - reflexivity.
  - rewrite Z.max_r by lia. unfold to_uint16. apply Z.mod_small. lia.
  - rewrite Z.max_l by lia. reflexivity.
Qed.

(** Two extruders: the identifiers 0, 1 and 7 give index 0, and 2 gives 1. *)
Lemma emplace_extruder_index_witness :
  emplace_extruder 2 ∅ 0 = {[0]} ∪ ∅ ∧
  emplace_extruder 2 ∅ 1 = {[0]} ∪ ∅ ∧
  emplace_extruder 2 ∅ 7 = {[0]} ∪ ∅ ∧
  emplace_extruder 2 ∅ 2 = {[1]} ∪ ∅.
Proof.
  split; [|split; [|split]].
  - apply (emplace_extruder_index 2 ∅ 0). lia.
  - apply (emplace_extruder_index 2 ∅ 1). lia.
  - apply (emplace_extruder_index 2 ∅ 7). lia.
  - apply (emplace_extruder_index 2 ∅ 2). lia.
Defined.

Lemma collect_fold_union (print_config : PrintConfig)
    (region_config : PrintRegionConfig) (features : RegionFeatures)
    (objects : list Q) (s : gset Z) :
  foldl (λ object_extruders brim,
           collect_object_printing_extruders_static print_config brim
             region_config features object_extruders) s objects
  = foldl (λ object_extruders brim,
             collect_object_printing_extruders_static print_config brim
               region_config features object_extruders) ∅ objects
    ∪ s.
Proof.
  revert s. induction objects as [|brim objects IH]; intros s; cbn [foldl].
  { by rewrite union_empty_l_L. }
  rewrite IH, (IH (collect_object_printing_extruders_static _ _ _ _ ∅)).
  rewrite (collect_static_union _ _ _ _ s). by rewrite (assoc_L (∪)).
Qed.

(** X6.  The member [collect_object_printing_extruders].  A build without
    assertions always returns; a build with assertions returns exactly when
    none of the three extruder identifiers of the region exceeds the number
    of nozzle diameters, and stops at an assertion otherwise.  When it
    returns, the set it was given is part of the result, nothing is added
    for a print without objects, and collecting again into the result
    changes nothing. *)
Theorem collect_member_asserts (ndebug : bool) (r : PrintRegion)
    (features : RegionFeatures) (objects : list Q) (s : gset Z) :
  let n := Z.of_nat (length (nozzle_diameter (m_print_config r))) in
  let valid :=
    perimeter_extruder (m_config r) ≤ n ∧
    infill_extruder (m_config r) ≤ n ∧
    solid_infill_extruder (m_config r) ≤ n in
  n < 2 ^ 31 →
  (ndebug = false → ¬ valid →
   collect_object_printing_extruders ndebug r features objects s
   = Fail AssertionFailure) ∧
  (ndebug = true ∨ valid →
   ∃ out,
     collect_object_printing_extruders ndebug r features objects s = Ok out ∧
     s ⊆ out ∧
     (objects = [] → out = s) ∧
     collect_object_printing_extruders ndebug r features objects out = Ok out).
Proof.
  intros n valid Hn. unfold collect_object_printing_extruders. cbv zeta.
  rewrite int_of_size_small by done. fold n.
  split.
  - intros -> Hinvalid. cbn [orb].
    destruct (bool_decide _ && bool_decide _ && bool_decide _) eqn:Hb; [|done].
    destruct Hinvalid.
    apply andb_true_iff in Hb as [[H1 H2]%andb_true_iff H3].
    by apply bool_decide_eq_true in H1, H2, H3.
  - intros Hok.
    assert (ndebug
            || bool_decide (perimeter_extruder (m_config r) ≤ n)
               && bool_decide (infill_extruder (m_config r) ≤ n)
               && bool_decide (solid_infill_extruder (m_config r) ≤ n)
            = true) as ->.
    { destruct Hok as [->|(H1 & H2 & H3)]; [done|].
      rewrite !bool_decide_eq_true_2 by done. apply orb_true_r. }
    rewrite !bind_Ok. eexists. split; [reflexivity|].
    split; [rewrite collect_fold_union; apply union_subseteq_r|].
    split; [by intros ->|].
    f_equal. rewrite (collect_fold_union _ _ _ _ (foldl _ s objects)).
    rewrite (collect_fold_union _ _ _ _ s).
    by rewrite (assoc_L (∪)), union_idemp_L.
Qed.

(** The sample region in a build with assertions: extruders 1, 2 and 0
    against two nozzles pass; two objects, one of them with a brim. *)
Lemma collect_member_asserts_witness :
  ∃ out,
    collect_object_printing_extruders false Sample.region Sample.all_features
      [0%Q; 5%Q] {[1]} = Ok out ∧
    {[1]} ⊆ out ∧
    collect_object_printing_extruders false Sample.region Sample.all_features
      [0%Q; 5%Q] out = Ok out.
Proof.
  destruct (collect_member_asserts false Sample.region Sample.all_features
              [0%Q; 5%Q] {[1]}) as [_ Hreturns]; [cbn; lia|].
  destruct Hreturns as (out & Hout & Hsub & _ & Hagain).
  { right. cbn. lia. }
  exists out. split; [exact Hout|]. split; [exact Hsub|exact Hagain].
Defined.

End PrintingExtruders.

(** * Further facts about ArrangeJob.cpp *)

Section WipeTowerFacts.
Import ArrangeJob.
Context `{ArrangeLib}.

(** X7.  The contour of the item of the wipe tower is made of the four
    corners of the bounding box, in the order min-min, max-min, max-max,
    min-max, each coordinate scaled on its own.  For a box whose minimum is
    not beyond its maximum the contour runs counter-clockwise, and twice
    its area is the shoelace sum.  The item carries the scaled position and
    the rotation of the tower, and its priority is one above that of a
    default item. *)
Theorem wipe_tower_polygon (wt : WipeTower) (ret : ArrangePolygon) :
  (0 < SCALING_FACTOR)%Q →
  ((bb_min (m_bb wt)).1 <= (bb_max (m_bb wt)).1)%Q →
  ((bb_min (m_bb wt)).2 <= (bb_max (m_bb wt)).2)%Q →
  let ap := get_arrange_polygon wt ret in
  let x0 := scaled (bb_min (m_bb wt)).1 in
  let y0 := scaled (bb_min (m_bb wt)).2 in
  let x1 := scaled (bb_max (m_bb wt)).1 in
  let y1 := scaled (bb_max (m_bb wt)).2 in
  let width := x1 - x0 in
  let height := y1 - y0 in
  contour (poly ap) = [(x0, y0); (x1, y0); (x1, y1); (x0, y1)] ∧
  0 ≤ width ∧ 0 ≤ height ∧
  shoelace (contour (poly ap)) = 2 * (width * height) ∧
  0 ≤ shoelace (contour (poly ap)) ∧
  translation ap = (scaled (m_pos wt).1, scaled (m_pos wt).2) ∧
  rotation ap = m_rotation wt ∧
  priority ap = priority ret + 1.
Proof.
  intros Hpos Hx Hy ap x0 y0 x1 y1 width height.
  pose proof (scaled_mono _ _ Hpos Hx) as Hw.
  pose proof (scaled_mono _ _ Hpos Hy) as Hh.
  assert (shoelace (contour (poly ap)) = 2 * (width * height)) as Harea.
  { unfold ap, get_arrange_polygon, shoelace, width, height, x0, y0, x1, y1.
    cbn [contour poly shoelace_from fst snd]. ring. }
  split; [done|]. split; [unfold width, x0, x1; lia|].
  split; [unfold height, y0, y1; lia|].
  split; [done|].
  split; [rewrite Harea; unfold width, height, x0, y0, x1, y1; nia|].
  done.
Qed.

End WipeTowerFacts.

(** A tower of 60 by 40 whose bounding box starts at (5, 7): the contour
    runs from (5, 7) over (65, 7) and (65, 47) to (5, 47) and encloses 2400
    square units. *)
Lemma wipe_tower_polygon_witness :
  let ap := ArrangeJob.get_arrange_polygon (H := Sample.unit_lib)
              Sample.tower Sample.blank in
  ArrangeJob.contour (ArrangeJob.poly ap) = [(5, 7); (65, 7); (65, 47); (5, 47)] ∧
  ArrangeJob.shoelace (ArrangeJob.contour (ArrangeJob.poly ap)) = 2 * (60 * 40) ∧
  ArrangeJob.translation ap = (120, 150) ∧
  ArrangeJob.rotation ap = 90%Q ∧
  ArrangeJob.priority ap = 1.
Proof.
  intros ap.
  destruct (wipe_tower_polygon (H := Sample.unit_lib) Sample.tower Sample.blank)
    as (Hcontour & _ & _ & Harea & _ & Htr & Hrot & Hprio);
    [reflexivity|discriminate|discriminate|].
  split; [exact Hcontour|]. split; [exact Harea|]. split; [exact Htr|].
  split; [exact Hrot|exact Hprio].
Defined.

(** ** Inflation and the placement of an item *)

Section BrimFurther.
Import ArrangeJob.
Context `{ArrangeLib}.

Lemma add_brim_cases (ap ap' : ArrangePolygon) (config : ModelConfigObject)
    (plater : Plater) :
  add_brim ap config plater = Ok ap' →
  ap' = ap ∨ ∃ p delta, p ∈ offset_ex (poly ap) delta ∧ ap' = set_poly p ap.
Proof.
  rewrite add_brim_unfold. cbv zeta.
  destruct (complete_objects_one_brim _); [intros [= <-]; by left|].
  destruct (bool_decide _); [|intros [= <-]; by left].
  destruct (NDEBUG || _); [|discriminate].
  match goal with |- context [offset_ex ?p ?d] =>
    destruct (offset_ex p d) as [|q rest] eqn:Hoff; [discriminate|];
    intros [= <-]; right; exists q, d
  end.
  split; [|done]. rewrite Hoff. apply elem_of_cons. by left.
Qed.

Lemma add_brim_failures (ap : ArrangePolygon) (config : ModelConfigObject)
    (plater : Plater) (f : failure) :
  add_brim ap config plater = Fail f →
  complete_objects_one_brim (plater_config plater) = false ∧
  (f = AssertionFailure ∧ NDEBUG = false ∨
   f = UndefinedBehaviour ∧ NDEBUG = true).
Proof.
  rewrite add_brim_unfold. cbv zeta.
  destruct (complete_objects_one_brim _); [discriminate|].
  destruct (bool_decide _); [|discriminate].
  destruct NDEBUG; cbn [orb].
  - destruct (offset_ex _ _); [|discriminate]. intros [= <-]. auto.
  - case_bool_decide as Hlen.
    + (* one contour was counted: the vector is not empty *)
      destruct (offset_ex _ _); [discriminate Hlen|discriminate].
    + intros [= <-]. auto.
Qed.

(** X8.  [add_brim] changes the boundary of an item at most: when it
    returns, the translation, the rotation, the bed index, the priority and
    the setter of the item are what they were, and the boundary is the old
    one or a contour of one of its offsets. *)
Theorem add_brim_keeps_placement (ap ap' : ArrangePolygon)
    (config : ModelConfigObject) (plater : Plater) :
  add_brim ap config plater = Ok ap' →
  translation ap' = translation ap ∧
  rotation ap' = rotation ap ∧
  bed_idx ap' = bed_idx ap ∧
  priority ap' = priority ap ∧
  setter ap' = setter ap ∧
  (poly ap' = poly ap ∨ ∃ delta, poly ap' ∈ offset_ex (poly ap) delta).
Proof.
  intros [->|(p & delta & Hp & ->)]%add_brim_cases.
  - repeat split; by left.
  - repeat split. right. by exists delta.
Qed.

(** X9.  The brim width of the object, when it has one, replaces the
    default brim width: two platers that agree on the unified-brim flag and
    on the clearance radius inflate the items of such an object alike,
    whatever their default brim widths. *)
Theorem add_brim_override (ap : ArrangePolygon) (config : ModelConfigObject)
    (plater plater' : Plater) (w : Q) :
  object_brim_width config = Some w →
  complete_objects_one_brim (plater_config plater)
  = complete_objects_one_brim (plater_config plater') →
  extruder_clearance_radius (plater_config plater)
  = extruder_clearance_radius (plater_config plater') →
  add_brim ap config plater = add_brim ap config plater'.
Proof.
  intros Hw Hflag Hradius. rewrite !add_brim_unfold. cbv zeta.
  unfold brim_diff, brim_margin. cbv zeta.
  by rewrite Hw, Hflag, Hradius.
Qed.

End BrimFurther.

(** An inflated square stays where it was. *)
Lemma add_brim_keeps_placement_witness :
  let plater := Sample.plater Sample.three_instances [] false false false in
  let ap :=
    ArrangeJob.get_arrange_poly (ArrangeLib := Sample.unit_lib) plater
      (ArrangeJob.ModelInstanceRef 0 2) in
  ∃ ap',
    ArrangeJob.add_brim (H := Sample.unit_lib) ap Sample.plain plater = Ok ap' ∧
    ArrangeJob.translation ap' = (500, 0) ∧
    ArrangeJob.bed_idx ap' = 2.
Proof.
  intros plater ap.
  destruct (ArrangeJob.add_brim (H := Sample.unit_lib) ap Sample.plain plater)
    as [ap'|] eqn:Hbrim; [|vm_compute in Hbrim; discriminate Hbrim].
  exists ap'. split; [reflexivity|].
  destruct (add_brim_keeps_placement (H := Sample.unit_lib) ap ap'
              Sample.plain plater Hbrim) as (-> & _ & -> & _).
  split; reflexivity.
Defined.

(** An object with a brim width of 2: a default of 5 or of 50 makes no
    difference. *)
Lemma add_brim_override_witness :
  let config := {| ArrangeJob.object_brim_width := Some 2%Q |} in
  let plater := Sample.plater Sample.three_instances [] false false false in
  let plater' :=
    {| ArrangeJob.model_objects := [];
       ArrangeJob.selection_content := [];
       ArrangeJob.selection_is_wipe_tower := false;
       ArrangeJob.has_wipe_tower := false;
       ArrangeJob.plater_config :=
         {| ArrangeJob.complete_objects_one_brim := false;
            ArrangeJob.brim_width := 50;
            ArrangeJob.extruder_clearance_radius := 4 |};
       ArrangeJob.bed_width := 200;
       ArrangeJob.bed_shape := [];
       ArrangeJob.arrange_settings :=
         {| ArrangeJob.distance := 6; ArrangeJob.enable_rotation := true |};
       ArrangeJob.min_object_distance := 4 |} in
  ArrangeJob.add_brim (H := Sample.unit_lib) Sample.blank config plater
  = ArrangeJob.add_brim (H := Sample.unit_lib) Sample.blank config plater'.
Proof.
  intros config plater plater'.
  apply (add_brim_override (H := Sample.unit_lib) Sample.blank config
           plater plater' 2); reflexivity.
Defined.

(** ** The three sets after [prepare] *)

Section PrepareFurther.
Import ArrangeJob.
Context `{ArrangeLib}.

Lemma fmap_Ok {A B : Type} (g : A → B) (a : A) : g <$> Ok a = Ok (g a).
Proof. reflexivity. Qed.

(** Two loops whose steps correspond through [g] correspond through [g]. *)
Lemma for_each_fmap {A St St' : Type} (g : St → St')
    (body : St → nat → A → result St) (body' : St' → nat → A → result St') :
  (∀ s i x, body' (g s) i x = g <$> body s i x) →
  ∀ xs i s, for_each body' i xs (g s) = g <$> for_each body i xs s.
Proof.
  intros Hstep xs. induction xs as [|x xs IH]; intros i s; [done|].
  cbn [for_each]. rewrite Hstep.
  destruct (body s i x) as [s1|f]; [|done].
  rewrite fmap_Ok, !bind_Ok. apply IH.
Qed.

(** A loop fails where one of its steps fails. *)
Lemma for_each_fails {A St : Type} (body : St → nat → A → result St)
    (xs : list A) (f : failure) :
  ∀ i s, for_each body i xs s = Fail f →
         ∃ s' k x, xs !! k = Some x ∧ body s' (i + k)%nat x = Fail f.
Proof.
  induction xs as [|x xs IH]; intros i s Hrun; [discriminate|].
  cbn [for_each] in Hrun.
  destruct (body s i x) as [s1|f'] eqn:Hbody.
  - rewrite bind_Ok in Hrun.
    destruct (IH _ _ Hrun) as (s' & k & y & Hk & Hfail).
    exists s', (S k), y. split; [done|]. by rewrite <- Nat.add_succ_comm.
  - injection Hrun as ->. exists s, 0%nat, x. split; [done|].
    by rewrite Nat.add_0_r.
Qed.

Lemma sum_list_ones {A : Type} (xs : list A) :
  sum_list ((λ _, 1%nat) <$> xs) = length xs.
Proof. induction xs as [|x xs IH]; [done|]. cbn. by rewrite IH. Qed.

Lemma select_instances_fails (instlist : option (list Z)) (n : nat) (f : failure) :
  select_instances instlist n = Fail f → f = UndefinedBehaviour.
Proof.
  unfold select_instances. destruct instlist as [l|]; [|discriminate].
  intros (s & k & x & _ & Hfail)%for_each_fails.
  destruct (bool_decide _); [discriminate|]. by injection Hfail as <-.
Qed.

Lemma select_objects_fails (content : list (Z * list Z)) (n : nat) (f : failure) :
  select_objects content n = Fail f → f = UndefinedBehaviour.
Proof.
  unfold select_objects.
  intros (s & k & x & _ & Hfail)%for_each_fails.
  destruct (bool_decide (x.1 < _)); [|discriminate].
  destruct (bool_decide _); [discriminate|]. by injection Hfail as <-.
Qed.

(** X10.  [prepare_all] puts every instance into exactly one set: the
    printable ones into the selected set, the others into the unprintable
    set.  The wipe tower, when there is one, is selected too, and the
    unselected set stays empty. *)
Theorem prepare_all_partition (plater : Plater) (job : ArrangeJob) :
  prepare_all plater = Ok job →
  let tower := if has_wipe_tower plater then 1%nat else 0%nat in
  m_unselected job = [] ∧
  length (m_selected job)
  = (count_printable (model_objects plater) + tower)%nat ∧
  (length (m_selected job) + length (m_unprintable job))%nat
  = (count_instances (model_objects plater) + tower)%nat.
Proof.
  unfold prepare_all.
  intros (looped & Hloop & [= <-])%bind_Ok_inv. cbv zeta.
  assert (m_unselected looped = []) as Hunsel.
  { revert Hloop. apply (for_each_preserved _ m_unselected).
    intros s i obj s'. apply for_each_preserved.
    intros s1 i1 mi s1' (ap & _ & [= <-])%bind_Ok_inv.
    by destruct (printable mi). }
  assert (length (m_selected looped) = count_printable (model_objects plater))
    as Hsel.
  { change (length (m_selected looped)
            = (length (m_selected clear_input)
               + count_printable (model_objects plater))%nat).
    revert Hloop. unfold count_printable.
    apply (for_each_measure _ (λ job, length (m_selected job))
             (λ obj, length (filter (λ mi, printable mi = true) (instances obj)))).
    intros s i obj s'. rewrite <- sum_list_indicator.
    apply (for_each_measure _ (λ job, length (m_selected job))
             (λ mi, if printable mi then 1%nat else 0%nat)).
    intros s1 i1 mi s1' (ap & _ & [= <-])%bind_Ok_inv.
    destruct (printable mi); cbn; [rewrite length_app; cbn|]; lia. }
  assert ((length (m_selected looped) + length (m_unprintable looped))%nat
          = count_instances (model_objects plater)) as Hall.
  { change ((length (m_selected looped) + length (m_unprintable looped))%nat
            = (length (m_selected clear_input)
               + length (m_unprintable clear_input)
               + count_instances (model_objects plater))%nat).
    revert Hloop. unfold count_instances.
    apply (for_each_measure _
             (λ job, (length (m_selected job) + length (m_unprintable job))%nat)
             (λ obj, length (instances obj))).
    intros s i obj s'. rewrite <- (sum_list_ones (instances obj)).
    apply (for_each_measure _
             (λ job, (length (m_selected job) + length (m_unprintable job))%nat)
             (λ _, 1%nat)).
    intros s1 i1 mi s1' (ap & _ & [= <-])%bind_Ok_inv.
    destruct (printable mi); cbn; rewrite length_app; cbn; lia. }
  unfold get_wipe_tower_arrangepoly.
  destruct (has_wipe_tower plater); cbn; rewrite ?length_app; cbn;
    (split; [done|split; lia]).
Qed.

(** The classification loops of [prepare_selected], whatever is selected. *)
Lemma classify_instances_counts (plater : Plater)
    (obj_sel : list (option (list Z))) (objects : list ModelObject)
    (oidx : nat) (job job' : ArrangeJob) :
  for_each (λ job oidx mo,
      let instlist := default None (obj_sel !! oidx) in
      inst_sel ← select_instances instlist (length (instances mo));
      for_each (λ job i mi,
        let ap := get_arrange_poly plater (ModelInstanceRef oidx i) in
        ap ← add_brim ap (config mo) plater;
        Ok (if printable mi
            then (if default false (inst_sel !! i)
                  then push_selected ap job
                  else push_unselected ap job)
            else push_unprintable ap job))
        0%nat (instances mo) job)
    oidx objects job = Ok job' →
  (length (m_selected job') + length (m_unselected job'))%nat
  = (length (m_selected job) + length (m_unselected job)
     + count_printable objects)%nat ∧
  (length (m_selected job') + length (m_unselected job')
   + length (m_unprintable job'))%nat
  = (length (m_selected job) + length (m_unselected job)
     + length (m_unprintable job) + count_instances objects)%nat.
Proof.
  intros Hrun. split.
  - revert Hrun. unfold count_printable.
    apply (for_each_measure _
             (λ job, (length (m_selected job) + length (m_unselected job))%nat)
             (λ obj, length (filter (λ mi, printable mi = true) (instances obj)))).
    intros s i mo s'. cbv zeta.
    intros (inst_sel & _ & Hinner)%bind_Ok_inv. revert Hinner.
    rewrite <- sum_list_indicator.
    apply (for_each_measure _
             (λ job, (length (m_selected job) + length (m_unselected job))%nat)
             (λ mi, if printable mi then 1%nat else 0%nat)).
    intros s1 i1 mi s1' (ap & _ & [= <-])%bind_Ok_inv.
    destruct (printable mi); [destruct (default false _)|];
      cbn; rewrite ?length_app; cbn; lia.
  - revert Hrun. unfold count_instances.
    apply (for_each_measure _
             (λ job, (length (m_selected job) + length (m_unselected job)
                      + length (m_unprintable job))%nat)
             (λ obj, length (instances obj))).
    intros s i mo s'. cbv zeta.
    intros (inst_sel & _ & Hinner)%bind_Ok_inv. revert Hinner.
    rewrite <- (sum_list_ones (instances mo)).
    apply (for_each_measure _
             (λ job, (length (m_selected job) + length (m_unselected job)
                      + length (m_unprintable job))%nat)
             (λ _, 1%nat)).
    intros s1 i1 mi s1' (ap & _ & [= <-])%bind_Ok_inv.
    destruct (printable mi); [destruct (default false _)|];
      cbn; rewrite ?length_app; cbn; lia.
Qed.

Lemma swap_if_empty_facts (job : ArrangeJob) :
  (length (m_selected (swap_if_empty job))
   + length (m_unselected (swap_if_empty job)))%nat
  = (length (m_selected job) + length (m_unselected job))%nat ∧
  m_unprintable (swap_if_empty job) = m_unprintable job ∧
  (m_selected (swap_if_empty job) = [] → m_unselected (swap_if_empty job) = []).
Proof.
  destruct job as [[|a sel] unsel unpr]; cbn.
  - split; [lia|]. split; done.
  - split; [done|]. split; [done|discriminate].
Qed.

(** X11.  Whatever the selection, [prepare_selected] puts every instance
    and the wipe tower into exactly one of the three sets, the printable
    ones and the tower into the selected or the unselected set.  The
    selected set is left empty only when there is nothing to arrange: no
    printable instance and no wipe tower; the unselected set is then empty
    as well. *)
Theorem prepare_selected_partition (plater : Plater) (job : ArrangeJob) :
  prepare_selected plater = Ok job →
  let tower := if has_wipe_tower plater then 1%nat else 0%nat in
  (length (m_selected job) + length (m_unselected job))%nat
  = (count_printable (model_objects plater) + tower)%nat ∧
  (length (m_selected job) + length (m_unselected job)
   + length (m_unprintable job))%nat
  = (count_instances (model_objects plater) + tower)%nat ∧
  (m_selected job = [] →
   m_unselected job = [] ∧
   count_printable (model_objects plater) = 0%nat ∧
   has_wipe_tower plater = false).
Proof.
  unfold prepare_selected. cbv zeta.
  intros (classified & Hclass & [= <-])%bind_Ok_inv.
  unfold classify_selected in Hclass.
  apply bind_Ok_inv in Hclass as (obj_sel & _ & Hclass).
  apply bind_Ok_inv in Hclass as (looped & Hloop & [= <-]).
  apply classify_instances_counts in Hloop as [Hprintable Hall].
  cbn in Hprintable, Hall.
  set (tower := if has_wipe_tower plater then 1%nat else 0%nat).
  set (classified :=
         if has_wipe_tower plater
         then if selection_is_wipe_tower plater
              then push_selected (get_arrange_poly plater WipeTowerRef) looped
              else push_unselected (get_arrange_poly plater WipeTowerRef) looped
         else looped).
  assert ((length (m_selected classified) + length (m_unselected classified))%nat
          = (count_printable (model_objects plater) + tower)%nat
          ∧ length (m_unprintable classified) = length (m_unprintable looped))
    as [Hc Hu].
  { unfold classified, tower.
    destruct (has_wipe_tower plater); [destruct (selection_is_wipe_tower plater)|];
      cbn; rewrite ?length_app; cbn; lia. }
  destruct (swap_if_empty_facts classified) as (Hs & Hsu & Hempty).
  cbn [m_selected m_unselected m_unprintable]. rewrite length_fmap, Hsu, Hu.
  split; [lia|]. split; [lia|].
  intros Hnone. specialize (Hempty Hnone). rewrite Hempty, Hnone in *.
  cbn in Hs. split; [done|]. unfold tower in *.
  destruct (has_wipe_tower plater); [lia|]. split; [lia|done].
Qed.

End PrepareFurther.

Section PrepareFurtherExamples.
Import ArrangeJob.

(** A printable and an unprintable instance, and a wipe tower. *)
Lemma prepare_all_partition_witness :
  let plater := Sample.plater Sample.mixed_instances [] false true false in
  ∃ job,
    prepare_all (H := Sample.unit_lib) plater = Ok job ∧
    m_unselected job = [] ∧
    length (m_selected job) = 2%nat ∧
    length (m_unprintable job) = 1%nat.
Proof.
  intros plater.
  destruct (prepare_all (H := Sample.unit_lib) plater) as [job|] eqn:Hjob;
    [|vm_compute in Hjob; discriminate Hjob].
  exists job. split; [reflexivity|].
  destruct (prepare_all_partition (H := Sample.unit_lib) plater job Hjob)
    as (Hunsel & Hsel & Hall).
  split; [exact Hunsel|]. change (length (m_selected job) = 2%nat) in Hsel.
  split; [exact Hsel|].
  change ((length (m_selected job) + length (m_unprintable job))%nat = 3%nat)
    in Hall. lia.
Defined.

(** The second of three instances is selected; the wipe tower is not. *)
Lemma prepare_selected_partition_witness :
  let plater := Sample.plater Sample.three_instances [(0, [1])] false true false in
  ∃ job,
    prepare_selected (H := Sample.unit_lib) plater = Ok job ∧
    (length (m_selected job) + length (m_unselected job))%nat = 4%nat ∧
    length (m_unprintable job) = 0%nat.
Proof.
  intros plater.
  destruct (prepare_selected (H := Sample.unit_lib) plater) as [job|] eqn:Hjob;
    [|vm_compute in Hjob; discriminate Hjob].
  exists job. split; [reflexivity|].
  destruct (prepare_selected_partition (H := Sample.unit_lib) plater job Hjob)
    as (Hprintable & Hall & _).
  change ((length (m_selected job) + length (m_unselected job))%nat = 4%nat)
    in Hprintable.
  change ((length (m_selected job) + length (m_unselected job)
           + length (m_unprintable job))%nat = 4%nat) in Hall.
  split; [exact Hprintable|lia].
Defined.

End PrepareFurtherExamples.

(** ** An empty selection, entries out of range, and failures *)

Section SelectionFurther.
Import ArrangeJob.
Context `{ArrangeLib}.

(** With nothing selected, the instance loops of [prepare_selected] do what
    those of [prepare_all] do, with the unselected set in place of the
    selected one. *)
Lemma classify_nothing_selected (plater : Plater) (n : nat)
    (objects : list ModelObject) (oidx : nat) (job : ArrangeJob) :
  for_each (λ job oidx mo,
      let instlist := default None (replicate n None !! oidx) in
      inst_sel ← select_instances instlist (length (instances mo));
      for_each (λ job i mi,
        let ap := get_arrange_poly plater (ModelInstanceRef oidx i) in
        ap ← add_brim ap (config mo) plater;
        Ok (if printable mi
            then (if default false (inst_sel !! i)
                  then push_selected ap job
                  else push_unselected ap job)
            else push_unprintable ap job))
        0%nat (instances mo) job)
    oidx objects (exchanged job)
  = exchanged <$>
    for_each (λ job oidx obj,
        for_each (λ job i mi,
          let ap := get_arrange_poly plater (ModelInstanceRef oidx i) in
          ap ← add_brim ap (config obj) plater;
          Ok (if printable mi then push_selected ap job
              else push_unprintable ap job))
          0%nat (instances obj) job)
      oidx objects job.
Proof.
  apply for_each_fmap. intros s i mo. cbv zeta.
  rewrite lookup_replicate_default. cbn [select_instances]. rewrite bind_Ok.
  apply for_each_fmap. intros s1 i1 mi. cbv zeta.
  rewrite lookup_replicate_default.
  destruct (add_brim _ _ _) as [ap|f]; [|done].
  rewrite !bind_Ok. by destruct (printable mi).
Qed.

(** X12.  With an empty selection, [prepare_selected] prepares what
    [prepare_all] prepares, unless the wipe tower is the selection: the
    same items in the same sets, or the same failure. *)
Theorem prepare_selected_nothing_selected (plater : Plater) :
  selection_content plater = [] →
  has_wipe_tower plater && selection_is_wipe_tower plater = false →
  prepare_selected plater = prepare_all plater.
Proof.
  intros Hcontent Htower.
  unfold prepare_selected, classify_selected, prepare_all. cbv zeta.
  rewrite Hcontent, select_objects_nil, bind_Ok.
  change clear_input with (exchanged clear_input) at 1.
  rewrite classify_nothing_selected.
  destruct (for_each _ 0%nat (model_objects plater) clear_input)
    as [looped|f] eqn:Hloop; [|done].
  assert (m_unselected looped = []) as Hunsel.
  { revert Hloop. apply (for_each_preserved _ m_unselected).
    intros s i obj s'. apply for_each_preserved.
    intros s1 i1 mi s1' (ap & _ & [= <-])%bind_Ok_inv.
    by destruct (printable mi). }
  rewrite fmap_Ok, !bind_Ok. f_equal.
  unfold get_wipe_tower_arrangepoly, swap_if_empty, exchanged,
    push_selected, push_unselected.
  destruct looped as [sel unsel unpr]. cbn in Hunsel. subst unsel.
  destruct (has_wipe_tower plater); cbn in Htower |- *; [rewrite Htower|];
    reflexivity.
Qed.

(** X13.  The first loop of [prepare_selected] passes over the selection
    entries whose object index is not below the number of model objects:
    dropping them from the selection changes nothing. *)
Theorem select_objects_ignores_other_objects (content : list (Z * list Z))
    (n : nat) :
  select_objects content n
  = select_objects
      (filter (λ s : Z * list Z, s.1 < Z.of_nat n) content) n.
Proof.
  unfold select_objects.
  match goal with |- for_each ?b _ _ _ = _ => set (body := b) end.
  enough (∀ i j obj_sel,
            for_each body i content obj_sel
            = for_each body j
                (filter (λ s : Z * list Z, s.1 < Z.of_nat n) content) obj_sel)
    as Hloops by apply Hloops.
  induction content as [|s content IH]; intros i j obj_sel; [done|].
  rewrite filter_cons. cbn [for_each].
  destruct (decide (s.1 < Z.of_nat n)) as [Hin|Hout].
  - cbn [for_each]. destruct (body obj_sel i s) as [obj_sel'|f] eqn:Hbody.
    + assert (body obj_sel j s = Ok obj_sel') as -> by exact Hbody.
      rewrite !bind_Ok. apply IH.
    + assert (body obj_sel j s = Fail f) as -> by exact Hbody. done.
  - assert (body obj_sel i s = Ok obj_sel) as ->.
    { unfold body. by rewrite bool_decide_eq_false_2. }
    rewrite bind_Ok. apply IH.
Qed.

(** X14.  [prepare] does not throw.  When it fails, it is at the assertion
    of [add_brim], in a build with assertions and without the unified
    brim, or by undefined behaviour: an offset without a contour indexed in
    a build without assertions, or, when the selection is arranged, a
    selection entry written outside the flag vectors. *)
Theorem prepare_failures (shift : bool) (plater : Plater) (f : failure) :
  prepare shift plater = Fail f →
  (f = AssertionFailure ∧ NDEBUG = false ∧
   complete_objects_one_brim (plater_config plater) = false) ∨
  (f = UndefinedBehaviour ∧
   (shift = true ∨
    (NDEBUG = true ∧ complete_objects_one_brim (plater_config plater) = false))).
Proof.
  assert (Hinner : ∀ (body : ArrangePolygon → nat → ModelInstance →
                             ArrangeJob → ArrangeJob)
                     oidx mo i xs s,
            for_each (λ job i mi,
                let ap := get_arrange_poly plater (ModelInstanceRef oidx i) in
                ap ← add_brim ap (config mo) plater;
                Ok (body ap i mi job)) i xs s = Fail f →
            complete_objects_one_brim (plater_config plater) = false ∧
            (f = AssertionFailure ∧ NDEBUG = false ∨
             f = UndefinedBehaviour ∧ NDEBUG = true)).
  { intros body oidx mo i xs s (s' & k & mi & _ & Hfail)%for_each_fails.
    cbv zeta in Hfail.
    destruct (add_brim _ _ _) as [ap|f'] eqn:Hbrim; [discriminate|].
    injection Hfail as ->. by eapply add_brim_failures. }
  destruct shift; cbn [prepare].
  - unfold prepare_selected, classify_selected. cbv zeta. intros Hfail.
    destruct (select_objects _ _) as [obj_sel|f'] eqn:Hobj.
    2:{ injection Hfail as ->. apply select_objects_fails in Hobj as ->. auto. }
    rewrite bind_Ok in Hfail.
    destruct (for_each _ 0%nat (model_objects plater) clear_input)
      as [looped|f'] eqn:Hloop; [discriminate|].
    injection Hfail as ->.
    apply for_each_fails in Hloop as (s' & k & mo & _ & Hloop).
    cbv zeta in Hloop.
    destruct (select_instances _ _) as [inst_sel|f'] eqn:Hinst.
    2:{ injection Hloop as ->. apply select_instances_fails in Hinst as ->. auto. }
    rewrite bind_Ok in Hloop.
    apply (Hinner (λ ap i mi job,
                     if printable mi
                     then if default false (inst_sel !! i)
                          then push_selected ap job
                          else push_unselected ap job
                     else push_unprintable ap job)) in Hloop
      as [Hflag [[-> Hd]|[-> Hd]]]; auto.
  - unfold prepare_all. intros Hfail.
    destruct (for_each _ 0%nat (model_objects plater) clear_input)
      as [looped|f'] eqn:Hloop; [discriminate|].
    injection Hfail as ->.
    apply for_each_fails in Hloop as (s' & k & mo & _ & Hloop).
    apply (Hinner (λ ap _ mi job,
                     if printable mi then push_selected ap job
                     else push_unprintable ap job)) in Hloop
      as [Hflag [[-> Hd]|[-> Hd]]]; auto.
Qed.

End SelectionFurther.

Section SelectionFurtherExamples.
Import ArrangeJob.

(** Three instances and a wipe tower, nothing selected: both ways of
    preparing select the four of them. *)
Lemma prepare_selected_nothing_selected_witness :
  let plater := Sample.plater Sample.three_instances [] false true false in
  prepare_selected (H := Sample.unit_lib) plater
  = prepare_all (H := Sample.unit_lib) plater ∧
  (length ∘ m_selected) <$> prepare_all (H := Sample.unit_lib) plater
  = Ok 4%nat.
Proof.
  intros plater. split.
  - apply (prepare_selected_nothing_selected (H := Sample.unit_lib) plater);
      reflexivity.
  - reflexivity.
Defined.

(** A build with assertions and an offset that comes back in two pieces:
    preparing stops at the assertion. *)
Lemma prepare_failures_witness :
  let plater := Sample.plater Sample.three_instances [] false false false in
  ∃ f,
    prepare (H := Sample.split_debug_lib) false plater = Fail f ∧
    f = AssertionFailure.
Proof.
  intros plater.
  destruct (prepare (H := Sample.split_debug_lib) false plater)
    as [job|f] eqn:Hprepare; [vm_compute in Hprepare; discriminate Hprepare|].
  exists f. split; [reflexivity|].
  destruct (prepare_failures (H := Sample.split_debug_lib) false plater f
              Hprepare) as [(-> & _)|(_ & [Hshift|[Hndebug _]])].
  - reflexivity.
  - discriminate Hshift.
  - discriminate Hndebug.
Defined.

End SelectionFurtherExamples.

(** ** Virtual beds, the engine run and the commit *)

Section RunFurther.
Import ArrangeJob.
Context `{ArrangeLib}.

Lemma coord_of_double_below (q : Q) :
  (0 <= q)%Q → (inject_Z (coord_of_double q) <= q)%Q.
Proof.
  destruct q as [n d]. unfold Qle, coord_of_double. cbn. intros Hn.
  rewrite Z.mul_1_r in *. rewrite Z.mul_comm.
  apply Z.mul_quot_le; lia.
Qed.

(** X15.  An item whose X lies within the span of its virtual bed, [bed_idx]
    strides from the origin, is brought by [remove_stride] into the span of
    the first bed.  Its X is then not negative, and not above any whole
    number that bounds the stride as long as the numbers are below
    [2 ^ 53]; when the stride itself is a whole number of units and
    [bed_idx * stride] is below [2 ^ 53], the difference is exact and X is
    below the stride.  The rest of the item is kept. *)
Theorem remove_stride_first_bed (stride : Q) (p : ArrangePolygon) :
  - 2 ^ 53 < bed_idx p < 2 ^ 53 →
  (inject_Z (bed_idx p) * stride <= inject_Z (translation p).1)%Q →
  (inject_Z (translation p).1 < (inject_Z (bed_idx p) + 1) * stride)%Q →
  0 ≤ (translation (remove_stride stride p)).1 ∧
  (∀ n : Z, (stride <= inject_Z n)%Q →
            - 2 ^ 53 < n < 2 ^ 53 →
            - 2 ^ 53 < (translation p).1 < 2 ^ 53 →
            - 2 ^ 53 < (translation p).1 - n →
            (translation (remove_stride stride p)).1 ≤ n) ∧
  (∀ s : Z, (stride == inject_Z s)%Q →
            - 2 ^ 53 < (translation p).1 < 2 ^ 53 →
            - 2 ^ 53 < bed_idx p * s < 2 ^ 53 →
            (translation (remove_stride stride p)).1
            = (translation p).1 - bed_idx p * s ∧
            (inject_Z (translation (remove_stride stride p)).1 < stride)%Q) ∧
  (translation (remove_stride stride p)).2 = (translation p).2 ∧
  bed_idx (remove_stride stride p) = bed_idx p ∧
  poly (remove_stride stride p) = poly p.
Proof.
  intros Hb Hlo Hhi. split; [|split; [|split; [|done]]].
  - cbn. apply (Z.le_trans _ (coord_of_double 0)); [done|].
    apply coord_of_double_mono, round_double_nonneg.
    assert (double_mul (double_of_int (bed_idx p)) stride
            <= double_of_int (translation p).1)%Q; [|lra].
    apply round_double_mono. by rewrite double_of_int_exact.
  - intros n Hn Hn53 Hx Hxn. cbn.
    assert (0 < n) as Hnpos.
    { rewrite Zlt_Qlt. change (inject_Z 0) with 0%Q. lra. }
    rewrite <- (coord_of_double_inject_Z n).
    apply coord_of_double_mono.
    rewrite <- (round_double_Z n) by done.
    apply round_double_mono.
    assert (inject_Z ((translation p).1 - n)
            <= double_mul (double_of_int (bed_idx p)) stride)%Q as Hproduct.
    { pose proof (round_double_Z ((translation p).1 - n) ltac:(lia))
        as Hexact.
      assert (round_double (inject_Z ((translation p).1 - n))
              <= double_mul (double_of_int (bed_idx p)) stride)%Q; [|lra].
      apply round_double_mono. rewrite double_of_int_exact by done.
      unfold Z.sub. rewrite inject_Z_plus, inject_Z_opp. lra. }
    rewrite double_of_int_exact by done.
    unfold Z.sub in Hproduct. rewrite inject_Z_plus, inject_Z_opp in Hproduct.
    lra.
  - intros s Hs Hx Hbs.
    rewrite Hs in Hlo, Hhi. change 1%Q with (inject_Z 1) in Hhi.
    rewrite <- inject_Z_mult, <- Zle_Qle in Hlo.
    rewrite <- inject_Z_plus, <- inject_Z_mult, <- Zlt_Qlt in Hhi.
    assert ((bed_idx p + 1) * s = bed_idx p * s + s) as Hmul by ring.
    assert (- 2 ^ 53 < (translation p).1 - bed_idx p * s < 2 ^ 53) as Hd.
    { rewrite Hmul in Hhi.
      destruct (Z.lt_trichotomy (bed_idx p) 0) as [Hneg|[Hzero|Hpos]].
      - assert (bed_idx p * s ≤ - s) by nia. lia.
      - rewrite Hzero in *. lia.
      - assert (s ≤ bed_idx p * s) by nia. lia. }
    rewrite (remove_stride_exact s) by (done || by rewrite Hs).
    split; [done|]. rewrite Hs, <- Zlt_Qlt. lia.
Qed.

Lemma omap_bind_nil {A B C : Type} (f : B → option C) (g : A → list B)
    (xs : list A) :
  (∀ x y, y ∈ g x → f y = None) → omap f (xs ≫= g) = [].
Proof.
  intros Hnone. induction xs as [|x xs IH]; [done|].
  rewrite bind_cons, omap_app, IH, app_nil_r.
  specialize (Hnone x). induction (g x) as [|y ys IHy]; [done|].
  cbn. rewrite (Hnone y) by (apply elem_of_cons; by left).
  apply IHy. intros z Hz. apply Hnone, elem_of_cons. by right.
Qed.

Lemma progressind_selected_quiet {C : Type} (f : Event → option C)
    (count size : Z) (sts : list Z) :
  (∀ st msg, f (UpdateStatus st msg) = None) →
  omap f (sts ≫= progressind_selected count size) = [].
Proof.
  intros Hf. apply omap_bind_nil. intros st ev Hev.
  unfold progressind_selected in Hev.
  destruct (bool_decide _); [|by apply not_elem_of_nil in Hev].
  by apply list_elem_of_singleton in Hev as ->.
Qed.

Lemma progressind_unprintable_quiet {C : Type} (f : Event → option C)
    (count : Z) (sts : list Z) :
  (∀ st msg, f (UpdateStatus st msg) = None) →
  omap f (sts ≫= progressind_unprintable count) = [].
Proof.
  intros Hf. apply omap_bind_nil. intros st ev Hev.
  unfold progressind_unprintable in Hev.
  destruct (bool_decide _); [|by apply not_elem_of_nil in Hev].
  by apply list_elem_of_singleton in Hev as ->.
Qed.

(** X16.  [process] does not touch the unselected items.  It enters the
    engine for the selected items against the unselected ones, and the
    selected set is what that call left.  When that call threw, the engine
    is not entered again and the unprintable items stay as they were;
    otherwise it is entered once more, for the unprintable items against
    nothing.  The error is shown once when a call threw and not at all
    otherwise, and the last thing [process] does, thrown or not, is to post
    the full count with the message for a cancelled or a finished run. *)
Theorem process_outcome (plater : Plater) (canceled : bool) (job : ArrangeJob) :
  let params := arrange_params plater canceled in
  let first :=
    arrange (m_selected job) (m_unselected job) (bed_shape plater) params in
  let second := arrange (m_unprintable job) [] (bed_shape plater) params in
  let count :=
    to_unsigned
      (Z.of_nat (length (m_selected job) + length (m_unprintable job))) in
  let job' := (process plater canceled job).1 in
  let events := (process plater canceled job).2 in
  m_unselected job' = m_unselected job ∧
  m_selected job' = arranged first ∧
  m_unprintable job'
  = match thrown first with
    | Some _ => m_unprintable job
    | None => arranged second
    end ∧
  engine_calls events
  = (m_selected job, m_unselected job)
    :: match thrown first with
       | Some _ => []
       | None => [(m_unprintable job, [])]
       end ∧
  errors_shown events
  = match thrown first, thrown second with
    | None, None => []
    | _, _ =>
        ["Could not arrange model objects! Some geometries may be invalid."]
    end ∧
  last events
  = Some (UpdateStatus (to_int count)
            (if canceled then "Arranging canceled." else "Arranging done.")).
Proof.
  intros params first second count job' events.
  unfold job', events, process. fold params first second count.
  destruct (thrown first) as [e1|]; [|destruct (thrown second) as [e2|]];
    cbn [fst snd m_selected m_unselected m_unprintable];
    (split; [done|]); (split; [done|]); (split; [done|]);
    unfold engine_calls, errors_shown;
    rewrite ?app_comm_cons, !omap_app; cbn [omap list_omap];
    rewrite ?omap_app;
    rewrite !progressind_selected_quiet, ?progressind_unprintable_quiet by done;
    (split; [done|]); (split; [done|]);
    by rewrite last_snoc.
Qed.

End RunFurther.

(** An item at X = 500 on bed 2, a stride of 220: it is handed over at
    X = 60.  With the stride 220.00000000000003 it is handed over at
    X = 59, which is not negative and not above 221. *)
Lemma remove_stride_first_bed_witness :
  let p :=
    ArrangeJob.get_arrange_poly (ArrangeLib := Sample.unit_lib)
      (Sample.plater Sample.three_instances [] false false false)
      (ArrangeJob.ModelInstanceRef 0 2) in
  let rounded := (220 + (1 # 35184372088832))%Q in
  (ArrangeJob.translation p).1 = 500 ∧
  (ArrangeJob.translation (ArrangeJob.remove_stride 220 p)).1 = 60 ∧
  0 ≤ (ArrangeJob.translation (ArrangeJob.remove_stride 220 p)).1 ∧
  (inject_Z (ArrangeJob.translation (ArrangeJob.remove_stride 220 p)).1 < 220)%Q ∧
  (ArrangeJob.translation (ArrangeJob.remove_stride rounded p)).1 = 59 ∧
  0 ≤ (ArrangeJob.translation (ArrangeJob.remove_stride rounded p)).1 ≤ 221.
Proof.
  intros p rounded.
  destruct (remove_stride_first_bed 220 p) as (Hlo & _ & Hwhole & _);
    [cbn; lia|discriminate|reflexivity|].
  destruct (Hwhole 220) as [Hx Hhi]; [reflexivity|cbn; lia..|].
  destruct (remove_stride_first_bed rounded p) as (Hlo' & Hbound & _);
    [cbn; lia|vm_compute; discriminate|vm_compute; reflexivity|].
  specialize (Hbound 221).
  split; [reflexivity|]. split; [exact Hx|]. split; [exact Hlo|].
  split; [exact Hhi|]. split; [vm_compute; reflexivity|].
  split; [exact Hlo'|].
  apply Hbound; [vm_compute; discriminate|cbn; lia..].
Defined.

(** Far from the origin the double difference is no longer exact: on bed
    1014138929, with a stride of 251067325.00000003, an X within the span
    of the bed comes out at 251067328, beyond the stride. *)
Lemma remove_stride_far_bed :
  let stride := (251067325 + (1 # 33554432))%Q in
  let p :=
    {| ArrangeJob.poly := Sample.square 10;
       ArrangeJob.translation := (254617148333462280, 0);
       ArrangeJob.rotation := 0;
       ArrangeJob.bed_idx := 1014138929;
       ArrangeJob.priority := 0;
       ArrangeJob.setter := ArrangeJob.ModelInstanceRef 0 0 |} in
  (round_double stride == stride)%Q ∧
  (inject_Z (ArrangeJob.bed_idx p) * stride
   <= inject_Z (ArrangeJob.translation p).1)%Q ∧
  (inject_Z (ArrangeJob.translation p).1
   < (inject_Z (ArrangeJob.bed_idx p) + 1) * stride)%Q ∧
  (ArrangeJob.translation (ArrangeJob.remove_stride stride p)).1 = 251067328 ∧
  (stride < 251067328)%Q.
Proof. vm_compute. repeat split; discriminate. Qed.

Section StatusFurther.
Import ArrangeJob.
Context `{ArrangeLib}.

Lemma to_unsigned_small (z : Z) : 0 ≤ z < 2 ^ 32 → to_unsigned z = z.
Proof. intros Hz. unfold to_unsigned. by apply Z.mod_small. Qed.

Lemma to_int_small (z : Z) : 0 ≤ z < 2 ^ 31 → to_int z = z.
Proof. intros Hz. unfold to_int. rewrite Z.mod_small by lia. lia. Qed.

Lemma progressind_selected_elem (count size : Z) (sts : list Z) (ev : Event) :
  ev ∈ sts ≫= progressind_selected count size →
  ∃ st, st ∈ sts ∧
        ev = UpdateStatus
               (to_int (to_unsigned (count - to_unsigned (st + size))))
               arrangestr.
Proof.
  intros (st & Hev & Hst)%list_elem_of_bind. exists st. split; [done|].
  unfold progressind_selected in Hev.
  destruct (bool_decide _); [|by apply not_elem_of_nil in Hev].
  by apply list_elem_of_singleton in Hev.
Qed.

Lemma progressind_unprintable_elem (count : Z) (sts : list Z) (ev : Event) :
  ev ∈ sts ≫= progressind_unprintable count →
  ∃ st, st ∈ sts ∧ ev = UpdateStatus (to_int (to_unsigned (count - st))) arrangestr.
Proof.
  intros (st & Hev & Hst)%list_elem_of_bind. exists st. split; [done|].
  unfold progressind_unprintable in Hev.
  destruct (bool_decide _); [|by apply not_elem_of_nil in Hev].
  by apply list_elem_of_singleton in Hev.
Qed.

(** X17.  When the engine reports, as the number of items left, values
    between 0 and the number of items it was given, every status that
    [process] posts lies between 0 and the total of selected and
    unprintable items: the unsigned subtractions do not wrap. *)
Theorem process_status_in_range (plater : Plater) (canceled : bool)
    (job : ArrangeJob) (status : Z) (msg : string) :
  let params := arrange_params plater canceled in
  let first :=
    arrange (m_selected job) (m_unselected job) (bed_shape plater) params in
  let second := arrange (m_unprintable job) [] (bed_shape plater) params in
  let selected := Z.of_nat (length (m_selected job)) in
  let unprintable := Z.of_nat (length (m_unprintable job)) in
  selected + unprintable < 2 ^ 31 →
  Forall (λ st, 0 ≤ st ≤ selected) (progress first) →
  Forall (λ st, 0 ≤ st ≤ unprintable) (progress second) →
  UpdateStatus status msg ∈ (process plater canceled job).2 →
  0 ≤ status ≤ selected + unprintable.
Proof.
  intros params first second selected unprintable Hfit Hfirst Hsecond.
  rewrite Forall_forall in Hfirst, Hsecond.
  unfold process. fold params first second.
  rewrite Nat2Z.inj_add. fold selected unprintable.
  rewrite (to_unsigned_small (selected + unprintable)) by lia.
  assert (Hlast : to_int (selected + unprintable) = selected + unprintable)
    by (apply to_int_small; lia).
  assert (Hsel : ∀ ev, ev ∈ progress first
                         ≫= progressind_selected (selected + unprintable)
                              unprintable →
                 ev = UpdateStatus status msg →
                 0 ≤ status ≤ selected + unprintable).
  { intros ev (st & Hst & ->)%progressind_selected_elem [= <- _].
    specialize (Hfirst st Hst).
    rewrite (to_unsigned_small (st + unprintable)) by lia.
    rewrite to_unsigned_small, to_int_small; lia. }
  assert (Hunpr : ∀ ev, ev ∈ progress second
                          ≫= progressind_unprintable (selected + unprintable) →
                  ev = UpdateStatus status msg →
                  0 ≤ status ≤ selected + unprintable).
  { intros ev (st & Hst & ->)%progressind_unprintable_elem [= <- _].
    specialize (Hsecond st Hst).
    rewrite to_unsigned_small, to_int_small; lia. }
  destruct (thrown first); [|destruct (thrown second)];
    cbn [snd]; rewrite !elem_of_app, !elem_of_cons, ?elem_of_app, ?elem_of_cons;
    intros Hin;
    repeat match type of Hin with
      | _ ∨ _ => destruct Hin as [Hin|Hin]
      | _ ∈ [] => by apply not_elem_of_nil in Hin
      | _ ∈ _ ≫= progressind_selected _ _ => by eapply Hsel
      | _ ∈ _ ≫= progressind_unprintable _ => by eapply Hunpr
      | UpdateStatus _ _ = UpdateStatus _ _ => injection Hin as -> _; lia
      | _ = _ => discriminate Hin
      end.
Qed.

(** X18.  A [finalize] that is not cancelled leaves the selected and the
    unselected set as they are and applies, in this order, every selected
    item and every unprintable item; an unselected item is applied only if
    it is one of those.  All unprintable items are moved up by one and the
    same number of beds, at least one, which exceeds every bed index of the
    selected and unselected items, so the beds between unprintable items
    stay apart as the engine left them.  The plater is updated and the job
    finalized at the end. *)
Theorem finalize_commits (job : ArrangeJob) :
  ∃ shift,
    1 ≤ shift ∧
    (∀ p, p ∈ m_selected job ++ m_unselected job → bed_idx p < shift) ∧
    (shift = 1 ∨
     ∃ p, p ∈ m_selected job ++ m_unselected job ∧ shift = bed_idx p + 1) ∧
    finalize false job
    = ({| m_selected := m_selected job;
          m_unselected := m_unselected job;
          m_unprintable :=
            (λ u, set_bed_idx (bed_idx u + shift) u) <$> m_unprintable job |},
       (Apply <$> m_selected job)
       ++ (Apply <$> ((λ u, set_bed_idx (bed_idx u + shift) u)
                      <$> m_unprintable job))
       ++ [PlaterUpdate; JobFinalize]).
Proof.
  exists (max_bed_idx 0 (m_selected job ++ m_unselected job) + 1).
  destruct (max_bed_idx_spec (m_selected job ++ m_unselected job) 0)
    as (Hge & Hub & Hatt).
  split; [lia|]. split.
  { intros p Hp. specialize (Hub p Hp). lia. }
  split.
  { destruct Hatt as [->|(p & Hp & <-)]; [by left|right; eauto]. }
  unfold finalize. by rewrite max_bed_idx_app.
Qed.

End StatusFurther.

(** Three selected items, reported as 2, 1 and 0 left: the statuses stay
    within 0 and 3. *)
Lemma process_status_in_range_witness :
  let plater := Sample.plater Sample.three_instances [] false false true in
  ∃ job,
    ArrangeJob.prepare_all (H := Sample.unit_lib) plater = Ok job ∧
    ∀ status msg,
      ArrangeJob.UpdateStatus status msg
      ∈ (ArrangeJob.process (H := Sample.unit_lib) plater false job).2 →
      0 ≤ status ≤ 3.
Proof.
  intros plater.
  destruct (ArrangeJob.prepare_all (H := Sample.unit_lib) plater)
    as [job|] eqn:Hjob; [|vm_compute in Hjob; discriminate Hjob].
  exists job. split; [reflexivity|].
  vm_compute in Hjob. injection Hjob as <-.
  intros status msg.
  apply (process_status_in_range (H := Sample.unit_lib) plater false).
  - reflexivity.
  - repeat constructor; discriminate.
  - constructor.
Defined.

(** A selected item on bed 1 and two unprintable items on the engine's
    beds 0 and 2: they end on beds 2 and 4, two beds apart as before. *)
Lemma finalize_commits_witness :
  let item (b : Z) (i : nat) :=
    {| ArrangeJob.poly := Sample.square 10;
       ArrangeJob.translation := (0, 0);
       ArrangeJob.rotation := 0;
       ArrangeJob.bed_idx := b;
       ArrangeJob.priority := 0;
       ArrangeJob.setter := ArrangeJob.ModelInstanceRef 0 i |} in
  let job :=
    {| ArrangeJob.m_selected := [item 1 0%nat];
       ArrangeJob.m_unselected := [];
       ArrangeJob.m_unprintable := [item 0 1%nat; item 2 2%nat] |} in
  ∃ shift,
    1 ≤ shift ∧
    ArrangeJob.m_unprintable (ArrangeJob.finalize false job).1
    = [item (0 + shift) 1%nat; item (2 + shift) 2%nat] ∧
    ArrangeJob.m_unprintable (ArrangeJob.finalize false job).1
    = [item 2 1%nat; item 4 2%nat].
Proof.
  intros item job.
  destruct (finalize_commits job) as (shift & Hshift & _ & _ & Hfinalize).
  exists shift. split; [exact Hshift|]. split.
  - rewrite Hfinalize. reflexivity.
  - reflexivity.
Defined.
